(** * packlet: adaptive chunking and chunk assembly

    A shallow embedding of the two Python sources of the repository,

    - [previous-scripts/ref/chunker.py]: token counter, sentence splitter,
      recursive decomposer, hard word-boundary cut, greedy packer and
      sentence-overlap pass of [adaptive_chunk];
    - [generate_chunks.py]: [count_tokens], [chunk_content_with_langchain],
      [extract_heading_from_chunk], [calculate_char_offsets] and
      [create_chunk];

    followed by the properties the specification states about them.

    Conventions.  A Python [str] is a [string]; one character is one
    [ascii], so the texts covered are those over code points below 256.
    Python [int]s that enter token arithmetic or offsets are [Z]; list
    indices and lengths are [nat].  Externals (the tiktoken tokenizer, the
    LangChain splitter, the helpers of [markdown_utils], SHA-256) are
    section variables. *)

From Stdlib Require Import ZArith QArith Lia Ascii String.
From stdpp Require Import base list strings pretty.

Local Open Scope string_scope.
Local Open Scope list_scope.
Local Open Scope Z_scope.

(** ** Python string primitives *)

Module Py.

(** [str.isspace] on one character, which is also the class [\s] of the
    [re] module on [str] patterns: TAB..CR, FS..US, space, NEL, NBSP. *)
Definition isspace (c : ascii) : bool :=
  let n := nat_of_ascii c in
  ((9 <=? n)%nat && (n <=? 13)%nat)
  || ((28 <=? n)%nat && (n <=? 32)%nat)
  || (n =? 133)%nat || (n =? 160)%nat.

Definition is_empty (s : string) : bool :=
  match s with "" => true | _ => false end.

(** [len(s)] *)
Definition len (s : string) : Z := Z.of_nat (String.length s).

(** [s.lstrip()], [s.rstrip()], [s.strip()] *)
Fixpoint lstrip (s : string) : string :=
  match s with
  | "" => ""
  | String c r => if isspace c then lstrip r else s
  end.

Fixpoint rstrip (s : string) : string :=
  match s with
  | "" => ""
  | String c r =>
      let r' := rstrip r in
      if isspace c && is_empty r' then "" else String c r'
  end.

Definition strip (s : string) : string := rstrip (lstrip s).

(** [s.split()]: maximal runs of non-whitespace characters. [cur] is the
    word being read. *)
Definition close_word (cur : string) : list string :=
  if is_empty cur then [] else [cur].

Fixpoint split_go (cur : string) (s : string) : list string :=
  match s with
  | "" => close_word cur
  | String c r =>
      if isspace c then close_word cur ++ split_go "" r
      else split_go (cur +:+ String c "") r
  end.

Definition split (s : string) : list string := split_go "" s.

(** [s.split(sep)] for a one-character separator: every separator cuts,
    empty fields are kept. *)
Fixpoint split_on (sep : ascii) (s : string) : list string :=
  match s with
  | "" => [""]
  | String c r =>
      if Ascii.eqb c sep then "" :: split_on sep r
      else match split_on sep r with
           | x :: xs => String c x :: xs
           | [] => [String c ""]
           end
  end.

(** [sep.join(l)] *)
Definition join (sep : string) (l : list string) : string :=
  String.concat sep l.

(** [s.startswith(p)] *)
Definition startswith (s p : string) : bool := String.prefix p s.

(** [s.find(sub)]: the lowest index where [sub] occurs, [-1] if none. *)
Fixpoint find_from (sub s : string) (i : nat) : option nat :=
  if String.prefix sub s then Some i
  else match s with
       | "" => None
       | String _ r => find_from sub r (S i)
       end.

Definition find (s sub : string) : Z :=
  match find_from sub s 0 with
  | Some i => Z.of_nat i
  | None => -1
  end.

(** [s[a:b]] with Python's treatment of negative and out-of-range
    bounds. *)
Definition clamp_index (n i : Z) : Z :=
  if i <? 0 then Z.max 0 (i + n) else Z.min i n.

Definition slice (s : string) (a b : Z) : string :=
  let a' := clamp_index (len s) a in
  let b' := clamp_index (len s) b in
  String.substring (Z.to_nat a') (Z.to_nat (b' - a')) s.

(** [l[-k:]] for [k > 0]: the last [k] elements, all of [l] when it is
    shorter. *)
Definition last_n {A} (k : nat) (l : list A) : list A :=
  drop (length l - k)%nat l.

(** [l.insert(k, x)] for [0 <= k]: before position [k], at the end when
    [k] is past it. *)
Definition list_insert_at {A} (k : nat) (x : A) (l : list A) : list A :=
  take k l ++ x :: drop k l.

(** The newline character and the separator of two newlines. *)
Definition nl : ascii := ascii_of_nat 10.
Definition newline : string := String nl "".
Definition blank_line : string := String nl (String nl "").

(** A word: a non-empty string without whitespace, as [s.split()]
    returns them. *)
Fixpoint all_nonspace (s : string) : bool :=
  match s with
  | "" => true
  | String c r => negb (isspace c) && all_nonspace r
  end.

Definition is_word (w : string) : Prop :=
  is_empty w = false ∧ all_nonspace w = true.

(** [str(n)], as an f-string prints a non-negative integer *)
Definition str_of_nat (n : nat) : string := pretty n.

(** The characters of [s] that are not whitespace, in order: what
    ["".join(s.split())] gives. *)
Fixpoint squeeze (s : string) : string :=
  match s with
  | "" => ""
  | String c r => if isspace c then squeeze r else String c (squeeze r)
  end.

(** [s.replace(old, new)]: every occurrence of [old], found from the left
    and without overlap, becomes [new]; with an empty [old], [new] is put
    in front of every character and at the end.  Every round of
    [replace_go] consumes a character, so its fuel above the length of
    [s] is never exhausted. *)
Fixpoint replace_empty (new s : string) : string :=
  match s with
  | "" => new
  | String c r => new +:+ String c (replace_empty new r)
  end.

Fixpoint drop_chars (n : nat) (s : string) : string :=
  match n, s with
  | O, _ => s
  | S n', String _ r => drop_chars n' r
  | S _, "" => ""
  end.

Fixpoint replace_go (fuel : nat) (old new s : string) : string :=
  match fuel with
  | O => s
  | S fuel' =>
      match s with
      | "" => ""
      | String c r =>
          if String.prefix old s
          then new +:+ replace_go fuel' old new
                         (drop_chars (String.length old) s)
          else String c (replace_go fuel' old new r)
      end
  end.

Definition replace (s old new : string) : string :=
  if is_empty old then replace_empty new s
  else replace_go (String.length s) old new s.

(** The character [c] does not occur in [s]. *)
Fixpoint lacks (c : ascii) (s : string) : bool :=
  match s with
  | "" => true
  | String d r => negb (Ascii.eqb d c) && lacks c r
  end.

End Py.

(** ** previous-scripts/ref/chunker.py *)

Module Chunker.

(** The fallback of [_build_token_counter], used when tiktoken cannot be
    loaded: [max(1, len(s) // 4)]. *)
Definition heuristic_count (s : string) : Z := Z.max 1 (Py.len s / 4).

(** [_build_token_counter]: [enc] is the tiktoken encoder's token count,
    absent when loading tiktoken raises. *)
Definition _build_token_counter (enc : option (string → Z)) : string → Z :=
  match enc with
  | Some f => f
  | None => heuristic_count
  end.

(** *** [split_sentences] *)

(** The classes of [_SENT_RE]: a lookbehind for a non-whitespace
    character and one of [.!?], then [\s+], then a lookahead for an
    upper-case letter, a digit, a double or single quote, an opening
    curly quote or an opening parenthesis.  The curly quote lies beyond
    code point 255 and cannot occur in a modelled text. *)
Definition is_terminal (c : ascii) : bool :=
  Ascii.eqb c "." || Ascii.eqb c "!" || Ascii.eqb c "?".

Definition is_opener (c : ascii) : bool :=
  let n := nat_of_ascii c in
  ((65 <=? n)%nat && (n <=? 90)%nat)      (* A-Z *)
  || ((48 <=? n)%nat && (n <=? 57)%nat)   (* 0-9 *)
  || (n =? 34)%nat                        (* double quote *)
  || (n =? 39)%nat                        (* single quote *)
  || (n =? 40)%nat.                       (* ( *)

(** The lookbehind [(?<=\S[.!?])] on the two characters before the
    current position. *)
Definition lookbehind (p2 p1 : option ascii) : bool :=
  match p2, p1 with
  | Some a, Some b => negb (Py.isspace a) && is_terminal b
  | _, _ => false
  end.

(** The lookahead, seen from inside a whitespace run: the run ends in
    front of an opener.  [\s+] is greedy and the opener is not
    whitespace, so a match always takes the whole run. *)
Fixpoint run_then_opener (s : string) : bool :=
  match s with
  | "" => false
  | String c r => if Py.isspace c then run_then_opener r else is_opener c
  end.

Definition cons_head (c : ascii) (l : list string) : list string :=
  match l with
  | x :: xs => String c x :: xs
  | [] => [String c ""]
  end.

(** [_SENT_RE.split(s)].  [p2], [p1] are the two characters already
    read, [skipping] says that the position is inside a matched
    separator; the head of the result continues the current field. *)
Fixpoint sent_re_split_go (p2 p1 : option ascii) (skipping : bool)
    (s : string) : list string :=
  match s with
  | "" => [""]
  | String c r =>
      if Py.isspace c then
        if skipping then sent_re_split_go p1 (Some c) true r
        else if lookbehind p2 p1 && run_then_opener r
             then "" :: sent_re_split_go p1 (Some c) true r
             else cons_head c (sent_re_split_go p1 (Some c) false r)
      else cons_head c (sent_re_split_go p1 (Some c) false r)
  end.

Definition sent_re_split (s : string) : list string :=
  sent_re_split_go None None false s.

Definition fence : string := "```".

Fixpoint skip (n : nat) (s : string) : string :=
  match n, s with
  | O, _ => s
  | S n', String _ r => skip n' r
  | S _, "" => ""
  end.

(** The leftmost match of [(```[\s\S]*?```)]: the first fence that has
    a closing fence behind it, up to the nearest such closing fence.
    Returns the text before the match, the match, and the text after. *)
Definition find_fence (text : string) : option (string * string * string) :=
  match Py.find_from fence text 0 with
  | None => None
  | Some p =>
      match Py.find_from fence (skip (p + 3) text) 0 with
      | None => None
      | Some q =>
          Some (String.substring 0 p text,
                String.substring p (q + 6) text,
                skip (p + q + 6) text)
      end
  end.

(** The loop over [re.finditer] together with the handling of [tail];
    every match consumes at least six characters, so [fuel] above the
    length of the text is never exhausted. *)
Fixpoint split_blocks (fuel : nat) (text : string) : list string :=
  match fuel with
  | O => []
  | S fuel' =>
      match find_fence text with
      | Some (before, block, after) =>
          (if Py.is_empty before then []
           else sent_re_split (Py.strip before))
          ++ block :: split_blocks fuel' after
      | None =>
          if Py.is_empty text then [] else sent_re_split (Py.strip text)
      end
  end.

Definition split_sentences (text : string) : list string :=
  List.filter (fun b => negb (Py.is_empty b))
    (map Py.strip (split_blocks (S (String.length text)) text)).

(** *** The structural splitters *)

(** [re.split] on a pattern that is a single lookahead anchored by [^] in
    multi-line mode: the text is cut in front of every line start at which
    the lookahead holds, and the groups the lookahead captures are put
    between the two sides of the cut.  [cut] is the lookahead, applied to
    the rest of the text at a line start; [bol] says that the position is a
    line start. *)
Fixpoint split_before_go (cut : string → option (list string)) (bol : bool)
    (s : string) : list string :=
  match s with
  | "" => [""]
  | String c r =>
      let rest := cons_head c (split_before_go cut (Ascii.eqb c Py.nl) r) in
      match (if bol then cut s else None) with
      | Some groups => "" :: groups ++ rest
      | None => rest
      end
  end.

Definition split_before (cut : string → option (list string)) (s : string)
    : list string :=
  split_before_go cut true s.

Definition non_blank (p : string) : bool := negb (Py.is_empty (Py.strip p)).

(** The lookahead of [split_by_markdown_headings]: one to six hash signs,
    then a whitespace character.  [heading_tail room] reads what follows a
    first hash sign, with room for [room] more. *)
Fixpoint heading_tail (room : nat) (s : string) : bool :=
  match s with
  | "" => false
  | String c r =>
      if Ascii.eqb c "#" then
        match room with
        | O => false
        | S room' => heading_tail room' r
        end
      else Py.isspace c
  end.

Definition heading_here (s : string) : option (list string) :=
  match s with
  | String c r => if Ascii.eqb c "#" && heading_tail 5 r then Some [] else None
  | "" => None
  end.

Definition split_by_markdown_headings (text : string) : list string :=
  List.filter non_blank (split_before heading_here (Py.strip text)).

(** [re.split] on a run of two or more newlines; [skipping] says that the
    position is inside such a run. *)
Fixpoint paragraph_go (skipping : bool) (s : string) : list string :=
  match s with
  | "" => [""]
  | String c r =>
      if Ascii.eqb c Py.nl then
        if skipping then paragraph_go true r
        else
          match r with
          | String c' _ =>
              if Ascii.eqb c' Py.nl then "" :: paragraph_go true r
              else cons_head c (paragraph_go false r)
          | "" => cons_head c (paragraph_go false r)
          end
      else cons_head c (paragraph_go false r)
  end.

Definition split_by_paragraph (text : string) : list string :=
  List.filter non_blank (paragraph_go false (Py.strip text)).

Definition split_by_sentence (text : string) : list string :=
  split_sentences text.

(** The lookahead of [split_by_code_symbols]: whitespace, then one of the
    keywords, which is the captured group and so becomes a piece of its
    own. *)
Definition code_keywords : list string :=
  ["def "; "class "; "function "; "export "; "const "; "let "; "var "].

Definition code_symbol_here (s : string) : option (list string) :=
  match List.find (fun kw => String.prefix kw (Py.lstrip s)) code_keywords with
  | Some kw => Some [kw]
  | None => None
  end.

Definition split_by_code_symbols (text : string) : list string :=
  List.filter non_blank (split_before code_symbol_here (Py.strip text)).

(** *** [_hard_cut] *)

Definition is_nil {A} (l : list A) : bool :=
  match l with [] => true | _ => false end.

(** The [for w in words] loop; the state is [(chunks, cur, cur_tokens)]. *)
Fixpoint hard_cut_loop (max_toks : Z) (tok : string → Z)
    (words : list string) (chunks cur : list string) (cur_tokens : Z)
    : list string * list string :=
  match words with
  | [] => (chunks, cur)
  | w :: ws =>
      let wtok := tok (w +:+ " ") in
      if (max_toks <? cur_tokens + wtok) && negb (is_nil cur)
      then hard_cut_loop max_toks tok ws
             (chunks ++ [Py.strip (Py.join " " cur)]) [w] wtok
      else hard_cut_loop max_toks tok ws
             chunks (cur ++ [w]) (cur_tokens + wtok)
  end.

Definition _hard_cut (s : string) (max_toks : Z) (tok : string → Z)
    : list string :=
  let '(chunks, cur) := hard_cut_loop max_toks tok (Py.split s) [] [] 0 in
  if is_nil cur then chunks else chunks ++ [Py.strip (Py.join " " cur)].

(** *** A reading of the hard cut and a statement about it *)

(** The hard cut read as a grouping of the words: [cur] is the open
    group, [cur_tokens] its running total; a group is closed when the
    next word would take the total above [max_toks]. *)
Definition close_group (cur : list string) : list (list string) :=
  if is_nil cur then [] else [cur].

Fixpoint hard_cut_groups (max_toks : Z) (tok : string → Z)
    (words cur : list string) (cur_tokens : Z) : list (list string) :=
  match words with
  | [] => close_group cur
  | w :: ws =>
      let wtok := tok (w +:+ " ") in
      if (max_toks <? cur_tokens + wtok) && negb (is_nil cur)
      then cur :: hard_cut_groups max_toks tok ws [w] wtok
      else hard_cut_groups max_toks tok ws (cur ++ [w]) (cur_tokens + wtok)
  end.

(** The words [ws] all join the open group [cur]: none of them closes
    it. *)
Fixpoint takes_all (max_toks : Z) (tok : string → Z)
    (ws cur : list string) (cur_tokens : Z) : bool :=
  match ws with
  | [] => true
  | w :: ws' =>
      let wtok := tok (w +:+ " ") in
      negb ((max_toks <? cur_tokens + wtok) && negb (is_nil cur))
      && takes_all max_toks tok ws' (cur ++ [w]) (cur_tokens + wtok)
  end.

(** The statement that the hard cut reduces size: on an input of more
    than one word, every piece has strictly fewer tokens than the
    input. *)
Definition hard_cut_reduces (tok : string → Z) (max_toks : Z) (s : string)
    : Prop :=
  (1 < length (Py.split s))%nat →
  Forall (fun piece => tok piece < tok s) (_hard_cut s max_toks tok).

(** The total of a measure over a list of strings. *)
Definition total (f : string → Z) (l : list string) : Z :=
  foldr (fun x acc => f x + acc) 0 l.

(** The measure the hard cut adds up: the tokens of a word followed by
    a space. *)
Definition word_cost (tok : string → Z) (w : string) : Z := tok (w +:+ " ").

(** *** [adaptive_chunk] *)

(** A chunk dictionary [{id, text, n_tokens, meta}]; [meta] is absent
    until step 4 attaches [{"structure": structure}]. *)
Record Chunk := mkChunk {
  id : nat;
  text : string;
  n_tokens : Z;
  meta : option string
}.

Definition set_text (c : Chunk) (t : string) (n : Z) : Chunk :=
  {| id := id c; text := t; n_tokens := n; meta := meta c |}.

Definition set_meta (c : Chunk) (m : string) : Chunk :=
  {| id := id c; text := text c; n_tokens := n_tokens c; meta := Some m |}.

Section AdaptiveChunk.

(** The counter returned by [_build_token_counter]. *)
Variable count_tokens : string → Z.
Variables max_tokens min_tokens : Z.

Definition _too_big (s : string) : bool := max_tokens <? count_tokens s.

(** [_split_with_rules]: the recursion is on the list of rules. *)
Fixpoint _split_with_rules (s : string)
    (rules : list (string → list string)) : list string :=
  match rules with
  | [] => _hard_cut s max_tokens count_tokens
  | rule :: finer =>
      let parts := rule s in
      if (length parts =? 1)%nat then
        if _too_big s then _split_with_rules s finer else [s]
      else
        flat_map (fun p => if _too_big p then _split_with_rules p finer
                           else [p]) parts
  end.

(** The variables of the packer: the list [parts], which the loop
    itself extends, the cursor [i], the buffer with its running token
    total, and the chunks flushed so far. *)
Record PackState := mkPack {
  parts : list string;
  i : nat;
  buf : list string;
  buf_tokens : Z;
  chunks : list Chunk
}.

Definition flush (st : PackState) : PackState :=
  if is_nil (buf st) then st
  else
    let body := Py.strip (Py.join Py.blank_line (buf st)) in
    let n := count_tokens body in
    {| parts := parts st; i := i st; buf := []; buf_tokens := 0;
       chunks := chunks st
         ++ [{| id := length (chunks st); text := body; n_tokens := n;
                meta := None |}] |}.

Definition accept (st : PackState) (piece : string) (ptok : Z)
    : PackState :=
  {| parts := parts st; i := S (i st); buf := buf st ++ [piece];
     buf_tokens := buf_tokens st + ptok; chunks := chunks st |}.

(** The oversized branch: every piece of the hard cut is inserted at
    position [i + 1], one after the other, and the cursor moves on. *)
Definition resplit (st : PackState) (piece : string) : PackState :=
  {| parts := fold_left (fun ps sub => Py.list_insert_at (S (i st)) sub ps)
                (_hard_cut piece max_tokens count_tokens) (parts st);
     i := S (i st); buf := buf st; buf_tokens := buf_tokens st;
     chunks := chunks st |}.

(** One iteration of [while i < len(parts)]; [None] when the loop
    condition fails. *)
Definition pack_step (st : PackState) : option PackState :=
  match parts st !! i st with
  | None => None
  | Some piece =>
      let ptok := count_tokens piece in
      if max_tokens <? ptok then Some (resplit st piece)
      else if buf_tokens st + ptok <=? max_tokens
      then Some (accept st piece ptok)
      else if buf_tokens st <? min_tokens then
        if (i st <? length (parts st))%nat
           && (buf_tokens st + ptok <=? max_tokens)
        then Some (accept st piece ptok)
        else Some (flush st)
      else Some (flush st)
  end.

(** The loop, bounded by [fuel]: [None] when the fuel runs out before
    the loop condition fails. *)
Fixpoint pack_loop (fuel : nat) (st : PackState) : option PackState :=
  match pack_step st with
  | None => Some st
  | Some st' =>
      match fuel with
      | O => None
      | S fuel' => pack_loop fuel' st'
      end
  end.

Definition pack_init (ps : list string) : PackState :=
  {| parts := ps; i := 0; buf := []; buf_tokens := 0; chunks := [] |}.

(** Step 2 as a whole: the loop and the final [flush()]. *)
Definition pack (fuel : nat) (ps : list string) : option (list Chunk) :=
  st ← pack_loop fuel (pack_init ps);
  Some (chunks (flush st)).

(** Step 3: the overlap pass at index [j], updating the list in place. *)
Definition overlap_at (overlap_sentences : Z) (cs : list Chunk) (j : nat)
    : list Chunk :=
  match cs !! (j - 1)%nat, cs !! j with
  | Some prev, Some cur =>
      let prev_tail :=
        Py.last_n (Z.to_nat overlap_sentences)
          (split_sentences (text prev)) in
      let t := Py.strip (Py.join " " prev_tail +:+ " " +:+ text cur) in
      <[j := set_text cur t (count_tokens t)]> cs
  | _, _ => cs
  end.

Definition add_overlap (overlap_sentences : Z) (cs : list Chunk)
    : list Chunk :=
  if (0 <? overlap_sentences) && (1 <? length cs)%nat
  then fold_left (overlap_at overlap_sentences)
         (seq 1 (length cs - 1)) cs
  else cs.

Definition splitters_for (structure : string)
    : list (string → list string) :=
  if String.eqb structure "markdown"
  then [split_by_markdown_headings; split_by_paragraph; split_by_sentence]
  else if String.eqb structure "code"
  then [split_by_code_symbols; split_by_paragraph; split_by_sentence]
  else [split_by_paragraph; split_by_sentence].

(** [adaptive_chunk], with [count_tokens] for the counter built from
    [token_model]; [None] when the packer is still running after [fuel]
    iterations. *)
Definition adaptive_chunk (fuel : nat) (text : string)
    (overlap_sentences : Z) (structure : string)
    : option (list Chunk) :=
  let parts := _split_with_rules text (splitters_for structure) in
  cs ← pack fuel parts;
  Some (map (fun c => set_meta c structure)
          (add_overlap overlap_sentences cs)).

(** *** Readings of the packer and statements about it *)

(** A piece that the packer does not have to cut again. *)
Definition fits (p : string) : Prop := count_tokens p ≤ max_tokens.

(** The packer read as a grouping of the pieces: a piece joins the
    open group [buf] when the group's total with it stays within
    [max_tokens], and otherwise closes it and opens the next group. *)
Fixpoint greedy_groups (ps buf : list string) : list (list string) :=
  match ps with
  | [] => close_group buf
  | p :: ps' =>
      if total count_tokens buf + count_tokens p <=? max_tokens
      then greedy_groups ps' (buf ++ [p])
      else close_group buf ++ greedy_groups ps' [p]
  end.

(** The chunk that [flush] makes of a group, and the chunks of a list
    of groups numbered from [start]. *)
Definition chunk_of_group (k : nat) (g : list string) : Chunk :=
  let body := Py.strip (Py.join Py.blank_line g) in
  {| id := k; text := body; n_tokens := count_tokens body; meta := None |}.

Definition chunks_of_groups (start : nat) (gs : list (list string))
    : list Chunk :=
  imap (fun k g => chunk_of_group (start + k) g) gs.

(** The statement of budget respect: every chunk but the last has a
    token count within [min_tokens, max_tokens], unless it is a single
    piece that itself exceeds [max_tokens]. *)
Definition single_oversized (ps : list string) (c : Chunk) : Prop :=
  ∃ p, p ∈ ps ∧ text c = Py.strip p ∧ max_tokens < count_tokens p.

Definition budget_respected (ps : list string) (cs : list Chunk) : Prop :=
  ∀ k c, cs !! k = Some c → (S k < length cs)%nat →
         (min_tokens ≤ n_tokens c ∧ n_tokens c ≤ max_tokens)
         ∨ single_oversized ps c.

(** The statement of the look-ahead: whenever adding the next piece to
    the buffer would exceed [max_tokens] and the buffer's running total is
    below [min_tokens], the iteration accepts the piece if the total with
    it is within [max_tokens], and otherwise flushes the buffer. *)
Definition lookahead_or_flush (st : PackState) : Prop :=
  ∀ piece,
    parts st !! i st = Some piece →
    max_tokens < buf_tokens st + count_tokens piece →
    buf_tokens st < min_tokens →
    pack_step st
    = Some (if buf_tokens st + count_tokens piece <=? max_tokens
            then accept st piece (count_tokens piece)
            else flush st).

(** The statement that overlap comes from pre-overlap text: the text
    of every chunk after the first is the tail of the predecessor's
    text before the pass, then a space, then its own text. *)
Definition overlap_from_pre_overlap (overlap_sentences : Z)
    (before after : list Chunk) : Prop :=
  ∀ j prev cur c',
    before !! j = Some prev → before !! S j = Some cur →
    after !! S j = Some c' →
    text c'
    = Py.strip (Py.join " "
                  (Py.last_n (Z.to_nat overlap_sentences)
                     (split_sentences (text prev)))
                +:+ " " +:+ text cur).

End AdaptiveChunk.

End Chunker.

(** ** generate_chunks.py *)

Module GenerateChunks.

Definition MAX_CHUNK_TOKENS : Z := 625.
Definition OVERLAP_TOKENS : Z := 100.
Definition MIN_CHUNK_TOKENS : Z := 50.

(** A value used as a condition: [None] and the empty string are false. *)
Definition truthy (o : option string) : bool :=
  match o with
  | Some s => negb (Py.is_empty s)
  | None => false
  end.

(** The dictionary returned by [calculate_char_offsets]; the three
    confidence constants are exact rationals. *)
Record CharOffsets := mkOffsets {
  char_start : Z;
  char_end : Z;
  source_length : Z;
  confidence : Q
}.

Definition calculate_char_offsets (chunk_content full_content : option string)
    : CharOffsets :=
  let full := default "" full_content in
  let chunk := default "" chunk_content in
  if negb (truthy full_content) || negb (truthy chunk_content) then
    {| char_start := -1; char_end := -1;
       source_length := if truthy full_content then Py.len full else 0;
       confidence := 0%Q |}
  else
    let chunk_stripped := Py.strip chunk in
    let start := Py.find full chunk_stripped in
    if negb (start =? -1) then
      {| char_start := start;
         char_end := start + Py.len chunk_stripped;
         source_length := Py.len full;
         confidence := 1%Q |}
    else
      let search_portion :=
        if 100 <? Py.len chunk_stripped then Py.slice chunk_stripped 0 100
        else chunk_stripped in
      let partial_start := Py.find full search_portion in
      if negb (partial_start =? -1) then
        let estimated_end := partial_start + Py.len chunk_stripped in
        {| char_start := partial_start;
           char_end := Z.min estimated_end (Py.len full);
           source_length := Py.len full;
           confidence := (8 # 10)%Q |}
      else
        {| char_start := -1; char_end := -1;
           source_length := Py.len full;
           confidence := 0%Q |}.

(** [extract_heading_from_chunk]: the first line that, stripped, starts
    with a hash sign. *)
Definition extract_heading_from_chunk (chunk_text : string) : string :=
  let lines := Py.split_on Py.nl chunk_text in
  match List.find (fun l => Py.startswith l "#") (map Py.strip lines) with
  | Some stripped => stripped
  | None => ""
  end.

(** The document metadata; the keys that [create_chunk] reads with
    [metadata[...]] are fields, the ones read with [.get] are optional. *)
Record Metadata := mkMetadata {
  md_title : string;
  md_date : string;
  md_slug : string;
  md_tags : list string;
  md_source_url : string;
  md_post_path : string;
  md_original_file_sha256 : option string;
  md_images : list (option string)   (* the [alt] entry of each image *)
}.

(** The dictionary returned by [get_chunk_header_context]; [None] is an
    absent key. *)
Record HeaderContext := mkHeaderContext {
  hc_header_path : option (list string);
  hc_header_hierarchy : option string
}.

Definition no_header_context : HeaderContext :=
  {| hc_header_path := None; hc_header_hierarchy := None |}.

Record ChunkMeta := mkChunkMeta {
  title : string;
  date : string;
  slug : string;
  tags : list string;
  source_url : string;
  post_path : string;
  image_alt_texts : list string
}.

Record Chunk := mkChunk {
  id : string;
  parent_id : string;
  prev_id : option string;
  next_id : option string;
  embed_text : string;
  display_markdown : string;
  chunk_number : nat;
  content_type : string;
  heading : string;
  header_path : list string;
  header_hierarchy : string;
  token_count : Z;
  links : list (string * string);
  char_offsets : CharOffsets;
  source_content_sha256 : option string;
  original_file_sha256 : string;
  metadata : ChunkMeta
}.

(** An entry of [temp_chunks]. *)
Record TempChunk := mkTemp {
  tc_content : string;
  tc_markdown_content : string;
  tc_heading : string;
  tc_chunk_num : nat
}.

Section Pipeline.

(** tiktoken's token count, [None] when tiktoken raises. *)
Variable tiktoken_len : string → option Z.
(** [RecursiveCharacterTextSplitter(...).split_text]. *)
Variable split_text : string → list string.
(** The helpers imported from [markdown_utils], and SHA-256. *)
Variable clean_markdown_text : string → string.
Variable extract_markdown_links : string → list (string * string).
Variable get_chunk_header_context : string → string → HeaderContext.
Variable sha256_hexdigest : string → string.

Definition count_tokens (text : string) : Z :=
  match tiktoken_len text with
  | Some n => n
  | None => Py.len text / 4
  end.

Definition create_chunk (content heading : string) (md : Metadata)
    (chunk_num : nat) (content_type : string)
    (prev_id next_id full_content markdown_chunk_content : option string)
    : Chunk :=
  let chunk_links := extract_markdown_links content in
  let header_context :=
    if truthy full_content
    then get_chunk_header_context (default "" full_content) content
    else no_header_context in
  let offset_content :=
    if truthy markdown_chunk_content then markdown_chunk_content
    else Some content in
  let char_offsets :=
    if truthy full_content
    then calculate_char_offsets offset_content full_content
    else {| char_start := -1; char_end := -1; source_length := 0;
            confidence := 0%Q |} in
  let source_content_sha256 :=
    if truthy full_content
    then Some (sha256_hexdigest (default "" full_content))
    else None in
  let cleaned_content := clean_markdown_text content in
  let title_prefix := "Title: " +:+ md_title md +:+ Py.newline in
  let context_content :=
    if truthy (hc_header_hierarchy header_context) then
      let hierarchy_prefix :=
        "Section: " +:+ default "" (hc_header_hierarchy header_context)
        +:+ Py.newline in
      title_prefix +:+ hierarchy_prefix +:+ Py.newline +:+ cleaned_content
    else if negb (Py.is_empty heading)
            && negb (Py.startswith heading (md_title md)) then
      title_prefix +:+ heading +:+ Py.blank_line +:+ cleaned_content
    else
      title_prefix +:+ Py.newline +:+ cleaned_content in
  let parent_id := content_type +:+ ":" +:+ md_slug md in
  let chunk_id := parent_id +:+ "::ch" +:+ Py.str_of_nat chunk_num in
  {| id := chunk_id;
     parent_id := parent_id;
     prev_id := prev_id;
     next_id := next_id;
     embed_text := context_content;
     display_markdown :=
       if truthy markdown_chunk_content
       then default "" markdown_chunk_content else content;
     chunk_number := chunk_num;
     content_type := content_type;
     heading := heading;
     header_path := default [] (hc_header_path header_context);
     header_hierarchy := default "" (hc_header_hierarchy header_context);
     token_count := count_tokens context_content;
     links := chunk_links;
     char_offsets := char_offsets;
     source_content_sha256 := source_content_sha256;
     original_file_sha256 := default "" (md_original_file_sha256 md);
     metadata :=
       {| title := md_title md; date := md_date md; slug := md_slug md;
          tags := md_tags md; source_url := md_source_url md;
          post_path := md_post_path md;
          image_alt_texts :=
            omap (fun alt => if truthy alt then alt else None)
                 (md_images md) |} |}.

(** One iteration of the first pass over [text_chunks]. *)
Definition first_pass_step (temp_chunks : list TempChunk)
    (chunk_text : string) : list TempChunk :=
  let cleaned_text := clean_markdown_text chunk_text in
  if count_tokens cleaned_text <? MIN_CHUNK_TOKENS then temp_chunks
  else
    temp_chunks
    ++ [{| tc_content := cleaned_text;
           tc_markdown_content := chunk_text;
           tc_heading := extract_heading_from_chunk chunk_text;
           tc_chunk_num := length temp_chunks |}].

Definition first_pass (text_chunks : list string) : list TempChunk :=
  fold_left first_pass_step text_chunks [].

(** The test of the first pass, read positively: the chunk text is kept
    when its cleaned form has at least [MIN_CHUNK_TOKENS] tokens. *)
Definition kept (chunk_text : string) : bool :=
  negb (count_tokens (clean_markdown_text chunk_text) <? MIN_CHUNK_TOKENS).

(** The entry of [temp_chunks] made from a kept chunk text at position
    [k] of the kept ones. *)
Definition temp_of (k : nat) (chunk_text : string) : TempChunk :=
  {| tc_content := clean_markdown_text chunk_text;
     tc_markdown_content := chunk_text;
     tc_heading := extract_heading_from_chunk chunk_text;
     tc_chunk_num := k |}.

(** One iteration of the second pass; [n] is [len(temp_chunks)]. *)
Definition second_pass_item (content : string) (md : Metadata) (n : nat)
    (i : nat) (temp_chunk : TempChunk) : Chunk :=
  let parent_id := "post:" +:+ md_slug md in
  let prev_id :=
    if (0 <? i)%nat
    then Some (parent_id +:+ "::ch" +:+ Py.str_of_nat (i - 1))
    else None in
  let next_id :=
    if Z.of_nat i <? Z.of_nat n - 1
    then Some (parent_id +:+ "::ch" +:+ Py.str_of_nat (i + 1))
    else None in
  create_chunk (tc_content temp_chunk) (tc_heading temp_chunk) md
    (tc_chunk_num temp_chunk) "post" prev_id next_id
    (Some content) (Some (tc_markdown_content temp_chunk)).

Definition chunk_content_with_langchain (content : string) (md : Metadata)
    : list Chunk :=
  let text_chunks := split_text content in
  let temp_chunks := first_pass text_chunks in
  imap (second_pass_item content md (length temp_chunks)) temp_chunks.

(** The statement that no packed chunk is dropped: every chunk text the
    splitter returns is the displayed text of an emitted chunk. *)
Definition no_packed_chunk_dropped (content : string) (md : Metadata)
    : Prop :=
  ∀ t, t ∈ split_text content →
       ∃ c, c ∈ chunk_content_with_langchain content md
            ∧ display_markdown c = t.

(** The statement that the emitted chunks cover the document: their
    texts, read in order, have the words of the document. *)
Definition covers_document (content : string) (md : Metadata) : Prop :=
  Py.split (Py.join " "
              (map display_markdown
                 (chunk_content_with_langchain content md)))
  = Py.split content.

End Pipeline.

(** The file name that [save_chunks_as_individual_files] makes of a chunk
    id. *)
Definition safe_filename (chunk_id : string) : string :=
  Py.replace (Py.replace chunk_id ":" "_") "::" "__" +:+ ".json".

End GenerateChunks.

(** ** Concrete collaborators and documents

    Stand-ins for the externals, used to run the pipeline on concrete
    documents. *)

Module Fixtures.

Import GenerateChunks.

(** tiktoken cannot be loaded: [count_tokens] takes its fallback. *)
Definition no_tiktoken (_ : string) : option Z := None.

(** A tokenizer that makes one token of every character. *)
Definition char_tokens (s : string) : option Z := Some (Py.len s).

(** What the LangChain splitter returns on a text that fits
    [chunk_size]: the text itself, as one chunk. *)
Definition split_fitting (s : string) : list string := [s].

(** A splitter that cuts at every newline. *)
Definition split_lines (s : string) : list string := Py.split_on Py.nl s.

(** Cleaning a text without markup changes nothing. *)
Definition clean_plain (s : string) : string := s.

Definition no_links (_ : string) : list (string * string) := [].

(** Modelled from the spec: [extract_markdown_links] and
    [clean_markdown_text] of [markdown_utils], which is not among the
    sources.  The links are the [(text, url)] pairs of the inline links
    [[text](url)]; cleaning strips the link syntax and keeps the link
    text.  [until stop s] is the text of [s] in front of the first [stop]
    and the text behind it. *)
Fixpoint until (stop : ascii) (s : string) : option (string * string) :=
  match s with
  | "" => None
  | String c r =>
      if Ascii.eqb c stop then Some ("", r)
      else match until stop r with
           | Some (a, b) => Some (String c a, b)
           | None => None
           end
  end.

Definition link_here (s : string) : option (string * string * string) :=
  match s with
  | String c r =>
      if Ascii.eqb c "[" then
        match until "]" r with
        | Some (text, String c' r') =>
            if Ascii.eqb c' "(" then
              match until ")" r' with
              | Some (url, rest) => Some (text, url, rest)
              | None => None
              end
            else None
        | _ => None
        end
      else None
  | "" => None
  end.

Fixpoint links_go (fuel : nat) (s : string) : list (string * string) :=
  match fuel, s with
  | S fuel', String _ r =>
      match link_here s with
      | Some (text, url, rest) => (text, url) :: links_go fuel' rest
      | None => links_go fuel' r
      end
  | _, _ => []
  end.

Definition inline_links (s : string) : list (string * string) :=
  links_go (String.length s) s.

Fixpoint unlink_go (fuel : nat) (s : string) : string :=
  match fuel, s with
  | S fuel', String c r =>
      match link_here s with
      | Some (text, _, rest) => text +:+ unlink_go fuel' rest
      | None => String c (unlink_go fuel' r)
      end
  | _, _ => ""
  end.

Definition strip_link_syntax (s : string) : string :=
  unlink_go (String.length s) s.

(** A note of one paragraph with one link, long enough to be kept. *)
Definition linked_note : string :=
  "Read [the guide](https://example.org/guide) before the first session: "
  +:+ "it explains how to set up the pump, how to clean every part after "
  +:+ "use, how long milk keeps in the fridge and in the freezer, and "
  +:+ "where to ask for help when something does not work as expected.".

Definition no_context (_ _ : string) : HeaderContext := no_header_context.

Definition digest_stub (s : string) : string := s.

Definition demo_md : Metadata :=
  {| md_title := "Notes"; md_date := "2024-01-01"; md_slug := "notes";
     md_tags := []; md_source_url := "https://example.org/notes";
     md_post_path := "blog/notes.md"; md_original_file_sha256 := None;
     md_images := [] |}.

(** Two lines of more than fifty characters each. *)
Definition two_lines : string :=
  "The first line of the note is long enough to be kept as a chunk."
  +:+ Py.newline
  +:+ "The second line of the note is just as long and is kept as well.".

(** The pipeline of [generate_chunks.py] with the character tokenizer
    and the line splitter. *)
Definition langchain_lines : string → Metadata → list Chunk :=
  chunk_content_with_langchain char_tokens split_lines clean_plain
    no_links no_context digest_stub.

(** A document of three short paragraphs, and the three chunks that the
    packer makes of them under a budget of one token. *)
Definition three_paragraphs : string :=
  "A b." +:+ Py.blank_line +:+ "c d" +:+ Py.blank_line +:+ "E f.".

(** The scenario document of the specification. *)
Definition titled_document : string :=
  "# Title" +:+ Py.blank_line +:+ "Short intro." +:+ Py.blank_line
  +:+ "## A" +:+ Py.newline +:+ "One. Two. Three.".

(** The packer in front of a word of three tokens, with one piece of one
    token in the buffer. *)
Definition before_long_word : Chunker.PackState :=
  Chunker.mkPack ["aaaa"; "bbbbbbbbbbbb"] 1 ["aaaa"] 1 [].

(** A run of [n] stars; a chunk text and a document that have their
    first hundred characters in common and differ behind them. *)
Fixpoint stars (n : nat) : string :=
  match n with
  | O => ""
  | S n' => String "*" (stars n')
  end.

Definition drifted_chunk : string := stars 100 +:+ " and a tail".
Definition drifted_document : string := stars 100 +:+ " and another end".

Definition three_chunks : list Chunker.Chunk :=
  [ Chunker.mkChunk 0 "A b." 1 None;
    Chunker.mkChunk 1 "c d" 1 None;
    Chunker.mkChunk 2 "E f." 1 None ].

End Fixtures.

(** * Properties *)

(** ** Facts about the string primitives *)

Section PyFacts.

Lemma prefix_length (a b : string) :
  String.prefix a b = true → (String.length a ≤ String.length b)%nat.
Proof.
  revert b. induction a as [|c a IH]; intros [|d b]; simpl; try lia;
    try discriminate.
  destruct (ascii_dec c d); [|discriminate].
  intros H. apply IH in H. lia.
Qed.

(** What a successful search returns: an index inside [s] at which [sub]
    occurs. *)
Lemma find_from_found (sub s : string) (k i : nat) :
  Py.find_from sub s k = Some i →
  (k ≤ i)%nat
  ∧ String.substring (i - k) (String.length sub) s = sub
  ∧ (i - k + String.length sub ≤ String.length s)%nat.
Proof.
  revert k. induction s as [|c s IH]; intros k; cbn [Py.find_from].
  - destruct (String.prefix sub "") eqn:E; [|done].
    intros [= <-]. replace (k - k)%nat with 0%nat by lia.
    split; [lia|]. split.
    + by apply String.prefix_correct.
    + apply prefix_length in E. lia.
  - destruct (String.prefix sub (String c s)) eqn:E.
    + intros [= <-]. replace (k - k)%nat with 0%nat by lia.
      split; [lia|]. split.
      * by apply String.prefix_correct.
      * apply prefix_length in E. lia.
    + intros H. apply IH in H as (Hk & Hsub & Hlen).
      split; [lia|].
      replace (i - k)%nat with (S (i - S k)) by lia.
      split; [exact Hsub | cbn [String.length]; lia].
Qed.

(** The index is the lowest one: [sub] does not occur in front of it. *)
Lemma find_from_lowest (sub s : string) (k i j : nat) :
  Py.find_from sub s k = Some i → (j < i - k)%nat →
  String.substring j (String.length sub) s ≠ sub.
Proof.
  revert k j. induction s as [|c s IH]; intros k j; cbn [Py.find_from].
  - destruct (String.prefix sub ""); [|done]. intros [= <-]. lia.
  - destruct (String.prefix sub (String c s)) eqn:E.
    + intros [= <-]. lia.
    + intros H Hj. destruct j as [|j].
      * intros Hsub. apply String.prefix_correct in Hsub. congruence.
      * simpl. apply (IH (S k)); [done|lia].
Qed.

Lemma find_cases (s sub : string) :
  (∃ i, Py.find_from sub s 0 = Some i ∧ Py.find s sub = Z.of_nat i)
  ∨ (Py.find_from sub s 0 = None ∧ Py.find s sub = -1).
Proof.
  unfold Py.find. destruct (Py.find_from sub s 0) as [i|]; eauto.
Qed.

Lemma slice_substring (s : string) (a m : nat) :
  (a + m ≤ String.length s)%nat →
  Py.slice s (Z.of_nat a) (Z.of_nat a + Z.of_nat m) = String.substring a m s.
Proof.
  intros H. unfold Py.slice, Py.clamp_index, Py.len.
  destruct (Z.ltb_spec (Z.of_nat a) 0); [lia|].
  destruct (Z.ltb_spec (Z.of_nat a + Z.of_nat m) 0); [lia|].
  rewrite !Z.min_l by lia.
  f_equal; lia.
Qed.

End PyFacts.

(** ** The sentence splitter ([split_sentences]) *)

Section Sentences.

Import Chunker.

Lemma length_skip (n : nat) (s : string) :
  String.length (skip n s) = (String.length s - n)%nat.
Proof.
  revert s. induction n as [|n IH]; intros [|c s]; simpl; try done.
Qed.

(** A fenced block takes at least its two fences from the text. *)
Lemma find_fence_shorter (text before block after : string) :
  find_fence text = Some (before, block, after) →
  (String.length after < String.length text)%nat.
Proof.
  unfold find_fence.
  destruct (Py.find_from fence text 0) as [p|] eqn:Ep; [|done].
  destruct (Py.find_from fence (skip (p + 3) text) 0) as [q|] eqn:Eq; [|done].
  intros [= _ _ <-].
  apply find_from_found in Ep as (_ & _ & Hp).
  apply find_from_found in Eq as (_ & _ & Hq).
  rewrite length_skip in Hq. rewrite length_skip.
  change (String.length fence) with 3%nat in *. lia.
Qed.

(** The fuel of [split_blocks] is never exhausted: every amount above the
    length of the text gives the same blocks. *)
Lemma split_blocks_fuel (fuel fuel' : nat) (text : string) :
  (String.length text < fuel)%nat → (String.length text < fuel')%nat →
  split_blocks fuel text = split_blocks fuel' text.
Proof.
  revert fuel' text. induction fuel as [|fuel IH]; intros fuel' text H H';
    [lia|].
  destruct fuel' as [|fuel']; [lia|]. simpl.
  destruct (find_fence text) as [[[before block] after]|] eqn:E; [|done].
  apply find_fence_shorter in E. do 2 f_equal. apply IH; lia.
Qed.

Example split_sentences_fenced :
  split_sentences
    "Paragraph one. Paragraph two.  Another ```x. Y``` sentence. 9 lives! (ok)? no.  "
  = ["Paragraph one."; "Paragraph two."; "Another"; "```x. Y```";
     "sentence."; "9 lives!"; "(ok)? no."].
Proof. reflexivity. Qed.

End Sentences.

(** ** Character offsets ([calculate_char_offsets]) *)

Section Offsets.

Import GenerateChunks.

(** The exact-match branch is the only one that reports confidence 1. *)
Lemma confidence_one_exact (chunk_content full_content : option string) :
  confidence (calculate_char_offsets chunk_content full_content) = 1%Q →
  ∃ i : nat,
    Py.find_from (Py.strip (default "" chunk_content))
      (default "" full_content) 0 = Some i
    ∧ calculate_char_offsets chunk_content full_content
      = {| char_start := Z.of_nat i;
           char_end := Z.of_nat i
                       + Py.len (Py.strip (default "" chunk_content));
           source_length := Py.len (default "" full_content);
           confidence := 1%Q |}.
Proof.
  unfold calculate_char_offsets.
  destruct (negb (truthy full_content) || negb (truthy chunk_content));
    [cbn; intros [=]|].
  destruct (find_cases (default "" full_content)
              (Py.strip (default "" chunk_content)))
    as [(i & Hi & ->)|(Hn & ->)].
  - destruct (Z.eqb_spec (Z.of_nat i) (-1)); [lia|]. cbn.
    intros _. by exists i.
  - cbn [Z.eqb negb].
    destruct (negb (Py.find _ _ =? -1)); cbn; intros [=].
Qed.

(** C6.  Offset correctness: whenever [calculate_char_offsets] reports
    confidence 1.0, the slice of the source document from [char_start] to
    [char_end] is exactly the chunk text with the surrounding whitespace
    stripped. *)
Theorem offset_correctness (chunk_content full_content : string) :
  let r := calculate_char_offsets (Some chunk_content) (Some full_content) in
  confidence r = 1%Q →
  Py.slice full_content (char_start r) (char_end r) = Py.strip chunk_content.
Proof.
  intros r Hc. subst r.
  apply confidence_one_exact in Hc as (i & Hfind & ->). simpl in *.
  apply find_from_found in Hfind as (_ & Hsub & Hlen).
  rewrite Nat.sub_0_r in Hsub, Hlen.
  unfold Py.len. by rewrite slice_substring.
Qed.

Lemma offset_correctness_witness :
  let r := calculate_char_offsets (Some "  world ") (Some "hello world!") in
  confidence r = 1%Q
  ∧ Py.slice "hello world!" (char_start r) (char_end r) = "world".
Proof.
  split; [reflexivity|].
  apply (offset_correctness "  world " "hello world!"). reflexivity.
Defined.

(** The ordering of the offsets stated with the data model: the end is
    not before the start whenever the confidence is positive. *)
Lemma offsets_ordered (chunk_content full_content : option string) :
  let r := calculate_char_offsets chunk_content full_content in
  (0 < confidence r)%Q → char_start r ≤ char_end r.
Proof.
  unfold calculate_char_offsets.
  destruct (negb (truthy full_content) || negb (truthy chunk_content));
    [cbn; intros H; by inversion H|].
  destruct (find_cases (default "" full_content)
              (Py.strip (default "" chunk_content)))
    as [(i & Hi & ->)|(Hn & ->)].
  - destruct (Z.eqb_spec (Z.of_nat i) (-1)); [lia|]. cbn. unfold Py.len. lia.
  - cbn [Z.eqb negb].
    match goal with
    | |- context [Py.find ?s ?sub] =>
        destruct (find_cases s sub) as [(j & Hj & ->)|(Hn' & ->)]
    end.
    + destruct (Z.eqb_spec (Z.of_nat j) (-1)); [lia|]. cbn. intros _.
      apply find_from_found in Hj as (_ & _ & Hlen). unfold Py.len. lia.
    + cbn. intros H; by inversion H.
Qed.

(** C10.  The offset computation is a total function (no operation in
    it can raise); when the chunk text or the document text is empty or
    absent the result is the sentinel [-1, -1] with confidence 0.0 and
    [source_length] the length of the document (0 when it is absent);
    and the confidence is always one of 1.0, 0.8 and 0.0. *)
Theorem offsets_total_sentinel (chunk_content full_content : option string) :
  let r := calculate_char_offsets chunk_content full_content in
  (truthy chunk_content = false ∨ truthy full_content = false →
     r = {| char_start := -1; char_end := -1;
            source_length := match full_content with
                             | Some full => Py.len full
                             | None => 0
                             end;
            confidence := 0%Q |})
  ∧ (confidence r = 1%Q ∨ confidence r = (8 # 10)%Q ∨ confidence r = 0%Q).
Proof.
  split.
  - intros H. unfold calculate_char_offsets.
    destruct (truthy full_content) eqn:Hf, (truthy chunk_content) eqn:Hc;
      simpl; destruct H; try discriminate; try reflexivity;
      destruct full_content as [[|]|]; try discriminate; reflexivity.
  - unfold calculate_char_offsets.
    destruct (negb (truthy full_content) || negb (truthy chunk_content));
      simpl; [tauto|].
    destruct (negb (Py.find _ _ =? -1)); simpl; [tauto|].
    destruct (negb (Py.find _ _ =? -1)); simpl; tauto.
Qed.

Lemma offsets_total_sentinel_witness :
  calculate_char_offsets (Some "") (Some "hello world!")
  = {| char_start := -1; char_end := -1; source_length := 12;
       confidence := 0%Q |}.
Proof.
  apply (offsets_total_sentinel (Some "") (Some "hello world!")).
  left. reflexivity.
Defined.

End Offsets.

(** ** Chunk assembly ([chunk_content_with_langchain], [create_chunk]) *)

Section Assembly.

Import GenerateChunks.

Variable tiktoken_len : string → option Z.
Variable split_text : string → list string.
Variable clean_markdown_text : string → string.
Variable extract_markdown_links : string → list (string * string).
Variable get_chunk_header_context : string → string → HeaderContext.
Variable sha256_hexdigest : string → string.

Local Abbreviation count_tokens := (count_tokens tiktoken_len).
Local Abbreviation kept := (kept tiktoken_len clean_markdown_text).
Local Abbreviation temp_of := (temp_of clean_markdown_text).
Local Abbreviation first_pass := (first_pass tiktoken_len clean_markdown_text).
Local Abbreviation first_pass_step :=
  (first_pass_step tiktoken_len clean_markdown_text).
Local Abbreviation second_pass_item :=
  (second_pass_item tiktoken_len clean_markdown_text
     extract_markdown_links get_chunk_header_context sha256_hexdigest).
Local Abbreviation chunk_content_with_langchain :=
  (chunk_content_with_langchain tiktoken_len split_text clean_markdown_text
     extract_markdown_links get_chunk_header_context sha256_hexdigest).

(** The first pass is a filter: it keeps, in order, the chunk texts that
    pass the size test and numbers them consecutively. *)
Lemma first_pass_from (text_chunks : list string) (acc : list TempChunk) :
  fold_left first_pass_step text_chunks acc
  = acc ++ imap (fun k => temp_of (length acc + k))
             (List.filter kept text_chunks).
Proof.
  revert acc. induction text_chunks as [|t l IH]; intros acc; simpl.
  - by rewrite app_nil_r.
  - rewrite IH. unfold GenerateChunks.first_pass_step, GenerateChunks.kept.
    destruct (count_tokens (clean_markdown_text t) <? MIN_CHUNK_TOKENS);
      simpl; [done|].
    rewrite <- app_assoc. simpl. f_equal.
    unfold GenerateChunks.temp_of at 2. rewrite Nat.add_0_r. f_equal.
    apply imap_ext. intros k x _. simpl. rewrite length_app. simpl.
    f_equal. lia.
Qed.

Lemma first_pass_filter (text_chunks : list string) :
  first_pass text_chunks = imap temp_of (List.filter kept text_chunks).
Proof. unfold first_pass. by rewrite first_pass_from. Qed.

Lemma length_first_pass (text_chunks : list string) :
  length (first_pass text_chunks) = length (List.filter kept text_chunks).
Proof. by rewrite first_pass_filter, length_imap. Qed.

(** The emitted chunk at position [k]. *)
Lemma langchain_lookup (content : string) (md : Metadata) (k : nat) :
  chunk_content_with_langchain content md !! k
  = (fun t => second_pass_item content md
                (length (List.filter kept (split_text content))) k
                (temp_of k t))
    <$> List.filter kept (split_text content) !! k.
Proof.
  unfold GenerateChunks.chunk_content_with_langchain.
  rewrite list_lookup_imap, length_first_pass, first_pass_filter.
  rewrite list_lookup_imap.
  by destruct (List.filter kept (split_text content) !! k).
Qed.

Lemma length_langchain (content : string) (md : Metadata) :
  length (chunk_content_with_langchain content md)
  = length (List.filter kept (split_text content)).
Proof.
  unfold GenerateChunks.chunk_content_with_langchain.
  by rewrite length_imap, length_first_pass.
Qed.

(** C5.  Sequential linkage: in the chunks of one document, the
    [next_id] of chunk [i] is the [id] of chunk [i+1] and the [prev_id]
    of chunk [i+1] is the [id] of chunk [i]; the first chunk has no
    [prev_id] and the last one no [next_id]. *)
Theorem sequential_linkage (content : string) (md : Metadata) :
  let chunks := chunk_content_with_langchain content md in
  (∀ i c c',
     chunks !! i = Some c → chunks !! S i = Some c' →
     next_id c = Some (id c') ∧ prev_id c' = Some (id c))
  ∧ (∀ c, chunks !! 0%nat = Some c → prev_id c = None)
  ∧ (∀ c, chunks !! (length chunks - 1)%nat = Some c → next_id c = None).
Proof.
  intros chunks. subst chunks. split; [|split].
  - intros k c c' Hc Hc'.
    pose proof (lookup_lt_Some _ _ _ Hc') as Hlt.
    rewrite length_langchain in Hlt.
    rewrite langchain_lookup in Hc, Hc'.
    destruct (List.filter kept (split_text content) !! k) as [t|];
      [|done].
    destruct (List.filter kept (split_text content) !! S k) as [t'|];
      [|done].
    simpl in Hc, Hc'. injection Hc as <-. injection Hc' as <-.
    unfold GenerateChunks.second_pass_item, create_chunk. simpl.
    destruct (Z.ltb_spec (Z.of_nat k)
                (Z.of_nat (length (List.filter kept (split_text content)))
                 - 1)); [|lia].
    rewrite Nat.sub_0_r. by replace (k + 1)%nat with (S k) by lia.
  - intros c Hc. rewrite langchain_lookup in Hc.
    destruct (List.filter kept (split_text content) !! 0%nat) as [t|];
      [|done].
    simpl in Hc. by injection Hc as <-.
  - intros c Hc. rewrite length_langchain, langchain_lookup in Hc.
    destruct (List.filter kept (split_text content) !! _) as [t|]; [|done].
    simpl in Hc. injection Hc as <-.
    unfold GenerateChunks.second_pass_item, create_chunk. simpl.
    destruct (Z.ltb_spec
      (Z.of_nat (length (List.filter kept (split_text content)) - 1))
      (Z.of_nat (length (List.filter kept (split_text content))) - 1));
      [lia|done].
Qed.

(** The [id] of every chunk follows the pattern [post:<slug>::ch<N>] with
    [N] its position, which is also its [chunk_number]. *)
Lemma chunk_id_pattern (content : string) (md : Metadata) (k : nat) c :
  chunk_content_with_langchain content md !! k = Some c →
  id c = "post:" +:+ md_slug md +:+ "::ch" +:+ Py.str_of_nat k
  ∧ chunk_number c = k.
Proof.
  rewrite langchain_lookup.
  destruct (List.filter kept (split_text content) !! k) as [t|]; [|done].
  simpl. by intros [= <-].
Qed.

(** The emitted chunks are, in order, the chunk texts of the splitter
    that pass the size test. *)
Lemma langchain_display (content : string) (md : Metadata) :
  map display_markdown (chunk_content_with_langchain content md)
  = map (fun t => if Py.is_empty t then clean_markdown_text t else t)
      (List.filter kept (split_text content)).
Proof.
  apply list_eq. intros k. rewrite !list_lookup_fmap, langchain_lookup.
  destruct (List.filter kept (split_text content) !! k) as [t|]; [|done].
  simpl. by destruct t.
Qed.

(** C7 (amended).  Dropping for size happens after packing: the emitted
    chunks are exactly, in order and numbered consecutively, the chunk
    texts returned by the splitter whose cleaned form has at least
    [MIN_CHUNK_TOKENS] tokens; a packed chunk below that size does not
    pass the test and is left out. *)
Theorem size_drop_after_packing (content : string) (md : Metadata) :
  let chunks := chunk_content_with_langchain content md in
  let survivors :=
    List.filter (fun t => negb (count_tokens (clean_markdown_text t)
                                <? MIN_CHUNK_TOKENS))
      (split_text content) in
  length chunks = length survivors
  ∧ (∀ k t, survivors !! k = Some t →
       ∃ c, chunks !! k = Some c ∧ chunk_number c = k
            ∧ display_markdown c
              = if Py.is_empty t then clean_markdown_text t else t)
  ∧ (∀ t, t ∈ split_text content →
       count_tokens (clean_markdown_text t) < MIN_CHUNK_TOKENS →
       t ∉ survivors).
Proof.
  intros chunks survivors. subst chunks. split; [|split].
  - apply length_langchain.
  - intros k t Hk. rewrite langchain_lookup.
    change (List.filter kept (split_text content)) with survivors.
    rewrite Hk. simpl. eexists. split; [done|]. split; [done|].
    by destruct t.
  - intros t _ Hlt Hin. apply list_elem_of_In, filter_In in Hin as [_ Hk].
    destruct (Z.ltb_spec (count_tokens (clean_markdown_text t))
                MIN_CHUNK_TOKENS); [done|lia].
Qed.

(** C8.  What [links] holds: the pairs extracted from the cleaned text
    of the chunk, the argument [content] that the second pass hands to
    [create_chunk], while the raw text goes to [display_markdown]. *)
Theorem links_from_cleaned_text (content : string) (md : Metadata)
    (k : nat) (c : Chunk) :
  chunk_content_with_langchain content md !! k = Some c →
  ∃ raw,
    List.filter kept (split_text content) !! k = Some raw
    ∧ links c = extract_markdown_links (clean_markdown_text raw)
    ∧ display_markdown c
      = if Py.is_empty raw then clean_markdown_text raw else raw.
Proof.
  rewrite langchain_lookup.
  destruct (List.filter kept (split_text content) !! k) as [t|]; [|done].
  simpl. intros [= <-]. exists t. split; [done|]. split; [done|].
  by destruct t.
Qed.

End Assembly.

Section AssemblyExamples.

Import GenerateChunks Fixtures.

Example langchain_lines_ids :
  map (fun c => (id c, prev_id c, next_id c)) (langchain_lines two_lines demo_md)
  = [("post:notes::ch0", None, Some "post:notes::ch1");
     ("post:notes::ch1", Some "post:notes::ch0", None)].
Proof. vm_compute. reflexivity. Qed.

Lemma sequential_linkage_witness :
  ∃ c c',
    langchain_lines two_lines demo_md !! 0%nat = Some c
    ∧ langchain_lines two_lines demo_md !! 1%nat = Some c'
    ∧ next_id c = Some (id c') ∧ prev_id c' = Some (id c).
Proof.
  destruct (langchain_lines two_lines demo_md !! 0%nat) as [c|] eqn:E0;
    [|vm_compute in E0; discriminate].
  destruct (langchain_lines two_lines demo_md !! 1%nat) as [c'|] eqn:E1;
    [|vm_compute in E1; discriminate].
  exists c, c'. split; [done|]. split; [done|].
  exact (proj1 (sequential_linkage char_tokens split_lines clean_plain
                  no_links no_context digest_stub two_lines demo_md)
           0%nat c c' E0 E1).
Defined.

(** C7, as stated, fails: a document of eleven characters comes back
    from the splitter as one packed chunk, which the first pass drops;
    nothing is emitted. *)
Lemma packed_chunk_dropped :
  ¬ no_packed_chunk_dropped no_tiktoken split_fitting clean_plain
      no_links no_context digest_stub "Short note." demo_md.
Proof.
  intros H. destruct (H "Short note.") as (c & Hc & _).
  - apply list_elem_of_In. vm_compute. tauto.
  - vm_compute in Hc. by apply elem_of_nil in Hc.
Qed.

Lemma size_drop_after_packing_witness :
  ∃ c, langchain_lines two_lines demo_md !! 1%nat = Some c
       ∧ chunk_number c = 1%nat
       ∧ display_markdown c
         = "The second line of the note is just as long and is kept as well.".
Proof.
  destruct (proj1 (proj2 (size_drop_after_packing char_tokens split_lines
                            clean_plain no_links no_context digest_stub
                            two_lines demo_md)) 1%nat
              "The second line of the note is just as long and is kept as well.")
    as (c & Hc & Hn & Hd).
  - vm_compute. reflexivity.
  - exists c. split; [exact Hc|]. split; [exact Hn|exact Hd].
Defined.

Lemma links_from_cleaned_text_witness :
  ∃ c raw,
    langchain_lines two_lines demo_md !! 0%nat = Some c
    ∧ links c = no_links (clean_plain raw)
    ∧ display_markdown c = raw.
Proof.
  destruct (langchain_lines two_lines demo_md !! 0%nat) as [c|] eqn:E0;
    [|vm_compute in E0; discriminate].
  destruct (links_from_cleaned_text char_tokens split_lines clean_plain
              no_links no_context digest_stub two_lines demo_md 0%nat c E0)
    as (raw & Hraw & Hl & Hd).
  exists c, raw. split; [done|]. split; [done|].
  vm_compute in Hraw. injection Hraw as <-. exact Hd.
Defined.

(** The failing input of C8: the note holds one link, and the pipeline
    reports none, because the links are extracted from the text that the
    first pass has already cleaned. *)
Example links_of_linked_note :
  inline_links linked_note = [("the guide", "https://example.org/guide")]
  ∧ map (fun c => (links c, display_markdown c))
      (chunk_content_with_langchain no_tiktoken split_fitting
         strip_link_syntax inline_links no_context digest_stub
         linked_note demo_md)
    = [([], linked_note)].
Proof. split; vm_compute; reflexivity. Qed.

End AssemblyExamples.

(** ** Words, [strip] and [join] *)

Section Words.

Lemma append_cons (x : ascii) (a b : string) :
  String x a +:+ b = String x (a +:+ b).
Proof. reflexivity. Qed.

Lemma append_nil_l (a : string) : "" +:+ a = a.
Proof. reflexivity. Qed.

Lemma append_assoc (a b c : string) : (a +:+ b) +:+ c = a +:+ (b +:+ c).
Proof.
  induction a as [|x a IH]; [done|]. rewrite !append_cons. by rewrite IH.
Qed.

Lemma append_nil_r (a : string) : a +:+ "" = a.
Proof.
  induction a as [|x a IH]; [done|]. rewrite append_cons. by rewrite IH.
Qed.

Lemma length_append (a b : string) :
  String.length (a +:+ b) = (String.length a + String.length b)%nat.
Proof.
  induction a as [|x a IH]; [done|]. rewrite append_cons. simpl.
  by rewrite IH.
Qed.

Lemma all_nonspace_app (a b : string) :
  Py.all_nonspace (a +:+ b) = Py.all_nonspace a && Py.all_nonspace b.
Proof.
  induction a as [|c a IH]; [done|]. rewrite append_cons. simpl.
  rewrite IH. by rewrite andb_assoc.
Qed.

Lemma is_empty_app (a b : string) :
  Py.is_empty (a +:+ b) = Py.is_empty a && Py.is_empty b.
Proof. by destruct a. Qed.

Lemma split_go_words (cur s : string) :
  Py.all_nonspace cur = true → Forall Py.is_word (Py.split_go cur s).
Proof.
  revert cur. induction s as [|c s IH]; intros cur Hcur; simpl.
  - unfold Py.close_word. destruct (Py.is_empty cur) eqn:E; [done|].
    by repeat constructor.
  - destruct (Py.isspace c) eqn:Hc.
    + apply Forall_app. split; [|by apply IH].
      unfold Py.close_word. destruct (Py.is_empty cur) eqn:E; [done|].
      by repeat constructor.
    + apply IH. rewrite all_nonspace_app, Hcur. simpl. by rewrite Hc.
Qed.

(** Every element of [s.split()] is a word. *)
Lemma split_words (s : string) : Forall Py.is_word (Py.split s).
Proof. by apply split_go_words. Qed.

Lemma lstrip_word_app (w s : string) :
  Py.is_word w → Py.lstrip (w +:+ s) = w +:+ s.
Proof.
  intros [Hne Hns]. destruct w as [|c w]; [done|]. simpl in *.
  by destruct (Py.isspace c).
Qed.

Lemma rstrip_word (w : string) : Py.is_word w → Py.rstrip w = w.
Proof.
  intros [_ Hns]. induction w as [|c w IH]; [done|]. simpl in *.
  apply andb_prop in Hns as [Hc Hw]. rewrite (IH Hw).
  by destruct (Py.isspace c).
Qed.

Lemma rstrip_app_word (s w : string) :
  Py.is_word w → Py.rstrip (s +:+ w) = s +:+ w.
Proof.
  intros Hw. induction s as [|c s IH]; simpl.
  - by apply rstrip_word.
  - rewrite IH. rewrite is_empty_app, (proj1 Hw).
    by rewrite !andb_false_r.
Qed.

(** The space-joined form of a non-empty list of words begins and ends
    with a word. *)
Lemma join_words_ends (g : list string) :
  Forall Py.is_word g → g ≠ [] →
  ∃ w s, Py.is_word w ∧ Py.join " " g = s +:+ w.
Proof.
  induction g as [|x g IH]; [done|]. intros Hg _.
  apply Forall_cons in Hg as [Hx Hg].
  destruct g as [|y g].
  - exists x, "". by split.
  - destruct IH as (w & s & Hw & Hs); [done|done|].
    exists w, (x +:+ " " +:+ s). split; [done|].
    change (Py.join " " (x :: y :: g))
      with (x +:+ " " +:+ Py.join " " (y :: g)).
    rewrite Hs. by rewrite !append_assoc.
Qed.

Lemma join_words_starts (g : list string) :
  Forall Py.is_word g → g ≠ [] →
  ∃ w s, Py.is_word w ∧ Py.join " " g = w +:+ s.
Proof.
  destruct g as [|x g]; [done|]. intros Hg _.
  apply Forall_cons in Hg as [Hx Hg].
  destruct g as [|y g].
  - exists x, "". split; [done|]. by rewrite append_nil_r.
  - by exists x, (" " +:+ Py.join " " (y :: g)).
Qed.

(** Stripping the space-joined form of words changes nothing. *)
Lemma strip_join_words (g : list string) :
  Forall Py.is_word g → Py.strip (Py.join " " g) = Py.join " " g.
Proof.
  intros Hg. destruct g as [|x g]; [done|].
  unfold Py.strip.
  assert (Py.lstrip (Py.join " " (x :: g)) = Py.join " " (x :: g)) as ->.
  { destruct (join_words_starts (x :: g)) as (w & s & Hw & ->);
      [done|done|]. by apply lstrip_word_app. }
  destruct (join_words_ends (x :: g)) as (w & s & Hw & ->); [done|done|].
  by apply rstrip_app_word.
Qed.

Lemma strip_word (w : string) : Py.is_word w → Py.strip w = w.
Proof.
  intros Hw. apply (strip_join_words [w]). by constructor.
Qed.

End Words.

Section SplitJoin.

Lemma split_go_word (w cur s : string) :
  Py.all_nonspace w = true →
  Py.split_go cur (w +:+ s) = Py.split_go (cur +:+ w) s.
Proof.
  revert cur. induction w as [|c w IH]; intros cur Hw.
  - by rewrite append_nil_l, append_nil_r.
  - simpl in Hw. apply andb_prop in Hw as [Hc Hw].
    rewrite append_cons. simpl.
    destruct (Py.isspace c); [done|].
    rewrite IH by done. by rewrite append_assoc.
Qed.

(** [" ".join(g).split()] gives the words back. *)
Lemma split_join_words (g : list string) :
  Forall Py.is_word g → Py.split (Py.join " " g) = g.
Proof.
  induction g as [|w g IH]; [done|]. intros Hg.
  apply Forall_cons in Hg as [[Hne Hns] Hg]. unfold Py.split.
  destruct g as [|y g].
  - change (Py.join " " [w]) with w.
    rewrite <- (append_nil_r w) at 1. rewrite split_go_word by done.
    rewrite append_nil_l. simpl. unfold Py.close_word. by rewrite Hne.
  - change (Py.join " " (w :: y :: g))
      with (w +:+ String " " (Py.join " " (y :: g))).
    rewrite split_go_word by done. rewrite append_nil_l. simpl.
    unfold Py.close_word. rewrite Hne. simpl. f_equal. by apply IH.
Qed.

(** Whitespace in the middle separates the words on both sides. *)
Lemma split_go_app_space (a b cur : string) (sp : ascii) :
  Py.isspace sp = true →
  Py.split_go cur (a +:+ String sp b) = Py.split_go cur a ++ Py.split b.
Proof.
  intros Hsp. revert cur. induction a as [|c a IH]; intros cur.
  - rewrite append_nil_l. simpl. by rewrite Hsp.
  - rewrite append_cons. simpl. destruct (Py.isspace c).
    + rewrite IH. by rewrite app_assoc.
    + apply IH.
Qed.

Lemma split_lstrip (s : string) : Py.split (Py.lstrip s) = Py.split s.
Proof.
  induction s as [|c s IH]; [done|]. simpl.
  unfold Py.split. simpl. destruct (Py.isspace c) eqn:E; [done|].
  simpl. by rewrite E.
Qed.

Lemma split_go_rstrip (s cur : string) :
  Py.split_go cur (Py.rstrip s) = Py.split_go cur s.
Proof.
  revert cur. induction s as [|c s IH]; intros cur; [done|]. simpl.
  destruct (Py.isspace c) eqn:E; simpl.
  - destruct (Py.is_empty (Py.rstrip s)) eqn:E'.
    + rewrite <- IH. destruct (Py.rstrip s); [|done]. simpl.
      by rewrite app_nil_r.
    + simpl. rewrite E. by rewrite IH.
  - rewrite E. apply IH.
Qed.

(** Stripping does not change the words. *)
Lemma split_strip (s : string) : Py.split (Py.strip s) = Py.split s.
Proof.
  unfold Py.strip, Py.split at 1. rewrite split_go_rstrip.
  apply split_lstrip.
Qed.

(** The words of pieces joined by blank lines are the words of the
    pieces. *)
Lemma split_join_blank (g : list string) :
  Py.split (Py.join Py.blank_line g) = concat (map Py.split g).
Proof.
  induction g as [|x g IH]; [done|].
  destruct g as [|y g].
  - simpl. by rewrite app_nil_r.
  - change (Py.join Py.blank_line (x :: y :: g))
      with (x +:+ String Py.nl
              (String Py.nl (Py.join Py.blank_line (y :: g)))).
    unfold Py.split at 1. rewrite split_go_app_space by done.
    change (concat (map Py.split (x :: y :: g)))
      with (Py.split x ++ concat (map Py.split (y :: g))).
    f_equal. rewrite <- IH. unfold Py.split. by simpl.
Qed.

End SplitJoin.

(** ** The hard word-boundary cut ([_hard_cut]) *)

Section HardCut.

Import Chunker.

Variable tok : string → Z.
Variable max_toks : Z.

Local Abbreviation cost := (total (word_cost tok)).
Local Abbreviation render := (fun g => Py.strip (Py.join " " g)).

Lemma total_app (f : string → Z) (a b : list string) :
  total f (a ++ b) = total f a + total f b.
Proof. induction a as [|x a IH]; simpl; [done|]. rewrite IH. lia. Qed.

(** The loop of [_hard_cut] computes the grouping. *)
Lemma hard_cut_loop_groups (words chunks cur : list string) (ct : Z) :
  let '(chunks', cur') := hard_cut_loop max_toks tok words chunks cur ct in
  (if is_nil cur' then chunks' else chunks' ++ [render cur'])
  = chunks ++ map render (hard_cut_groups max_toks tok words cur ct).
Proof.
  revert chunks cur ct. induction words as [|w ws IH]; intros chunks cur ct.
  - simpl. unfold close_group. destruct cur; simpl; [|done].
    by rewrite app_nil_r.
  - simpl. destruct ((max_toks <? ct + tok (w +:+ " ")) && negb (is_nil cur)).
    + specialize (IH (chunks ++ [render cur]) [w] (tok (w +:+ " "))).
      destruct (hard_cut_loop _ _ ws _ _ _) as [chunks' cur'].
      rewrite IH. by rewrite <- app_assoc.
    + apply IH.
Qed.

Lemma hard_cut_is_groups (s : string) :
  _hard_cut s max_toks tok
  = map render (hard_cut_groups max_toks tok (Py.split s) [] 0).
Proof.
  unfold _hard_cut.
  pose proof (hard_cut_loop_groups (Py.split s) [] [] 0) as H.
  by destruct (hard_cut_loop _ _ _ _ _ _) as [chunks' cur'].
Qed.

Lemma hard_cut_groups_concat (words cur : list string) (ct : Z) :
  concat (hard_cut_groups max_toks tok words cur ct) = cur ++ words.
Proof.
  revert cur ct. induction words as [|w ws IH]; intros cur ct; simpl.
  - unfold close_group. destruct cur; simpl; by rewrite ?app_nil_r.
  - destruct (_ && _); simpl; rewrite IH; [done|].
    by rewrite <- app_assoc.
Qed.

Lemma hard_cut_groups_nonempty (words cur : list string) (ct : Z) :
  Forall (fun g => g ≠ []) (hard_cut_groups max_toks tok words cur ct).
Proof.
  revert cur ct. induction words as [|w ws IH]; intros cur ct; simpl.
  - unfold close_group. destruct cur; simpl; by repeat constructor.
  - destruct (_ && negb (is_nil cur)) eqn:E; [|apply IH].
    constructor; [|apply IH].
    apply andb_prop in E as [_ E]. by destruct cur.
Qed.

(** Every group stays within the budget by the summed word costs, or is
    a single word. *)
Lemma hard_cut_groups_budget (words cur : list string) (ct : Z) :
  ct = cost cur →
  cost cur ≤ max_toks ∨ (length cur ≤ 1)%nat →
  Forall (fun g => cost g ≤ max_toks ∨ length g = 1%nat)
    (hard_cut_groups max_toks tok words cur ct).
Proof.
  revert cur ct. induction words as [|w ws IH]; intros cur ct Hct Hcur; simpl.
  - unfold close_group. destruct cur as [|x [|y cur]]; simpl;
      repeat constructor; simpl in *; lia.
  - destruct (Z.ltb_spec max_toks (ct + tok (w +:+ " "))) as [Hlt|Hle];
      simpl.
    + destruct cur as [|x cur]; simpl.
      * apply IH; [|right; simpl; lia].
        subst ct. simpl. unfold word_cost. lia.
      * constructor.
        { destruct Hcur as [?|Hl]; [by left|].
          right. simpl in Hl. destruct cur; simpl in *; lia. }
        apply IH; [|right; simpl; lia].
        simpl. unfold word_cost. lia.
    + assert (Hc : cost (cur ++ [w]) = ct + tok (w +:+ " ")).
      { rewrite total_app. subst ct. simpl. unfold word_cost at 2. lia. }
      apply IH; [done|]. left. lia.
Qed.

Lemma length_le_concat {A} (gs : list (list A)) (g : list A) :
  g ∈ gs → (length g ≤ length (concat gs))%nat.
Proof.
  induction gs as [|g0 gs IH]; [by intros ?%elem_of_nil|].
  intros [->|Hin]%elem_of_cons; simpl; rewrite length_app; [lia|].
  apply IH in Hin. lia.
Qed.

(** In a grouping into two or more non-empty groups, every group is
    shorter than the whole. *)
Lemma groups_shorter {A} (gs : list (list A)) :
  Forall (fun g => g ≠ []) gs → (2 ≤ length gs)%nat →
  Forall (fun g => (length g < length (concat gs))%nat) gs.
Proof.
  intros Hne Hlen. destruct gs as [|g0 [|g1 gs]]; simpl in Hlen; try lia.
  apply Forall_cons in Hne as [Hg0 Hne].
  pose proof Hne as Hne'. apply Forall_cons in Hne' as [Hg1 _].
  constructor.
  - simpl. rewrite !length_app. destruct g1; [done|]. simpl. lia.
  - apply Forall_forall. intros g Hin.
    apply length_le_concat in Hin.
    change (concat (g0 :: g1 :: gs)) with (g0 ++ concat (g1 :: gs)).
    rewrite length_app.
    assert (0 < length g0)%nat by (destruct g0; [done|simpl; lia]). lia.
Qed.

(** Words that all join the open group leave one group. *)
Lemma takes_all_groups (ws cur : list string) (ct : Z) :
  takes_all max_toks tok ws cur ct = true →
  hard_cut_groups max_toks tok ws cur ct = close_group (cur ++ ws).
Proof.
  revert cur ct. induction ws as [|w ws IH]; intros cur ct; simpl.
  - by rewrite app_nil_r.
  - destruct ((max_toks <? ct + tok (w +:+ " ")) && negb (is_nil cur));
      simpl; [done|].
    intros H. rewrite IH by done. by rewrite <- app_assoc.
Qed.

Lemma takes_all_app (a b cur : list string) (ct : Z) :
  takes_all max_toks tok (a ++ b) cur ct
  = takes_all max_toks tok a cur ct
    && takes_all max_toks tok b (cur ++ a) (ct + cost a).
Proof.
  revert cur ct. induction a as [|w a IH]; intros cur ct; simpl.
  - rewrite app_nil_r. f_equal. lia.
  - rewrite IH, <- app_assoc, <- andb_assoc. simpl.
    do 3 f_equal. unfold word_cost. lia.
Qed.

(** Every group of the hard cut is made of words that join one another
    when read again from an empty group. *)
Lemma hard_cut_groups_take_all (words cur : list string) (ct : Z) :
  ct = cost cur →
  takes_all max_toks tok cur [] 0 = true →
  Forall (fun g => takes_all max_toks tok g [] 0 = true)
    (hard_cut_groups max_toks tok words cur ct).
Proof.
  revert cur ct. induction words as [|w ws IH]; intros cur ct Hct Hcur; simpl.
  - unfold close_group. destruct cur; simpl; by repeat constructor.
  - destruct ((max_toks <? ct + tok (w +:+ " ")) && negb (is_nil cur)) eqn:E.
    + constructor; [done|]. apply IH.
      * simpl. unfold word_cost. lia.
      * simpl. by rewrite andb_false_r.
    + apply IH.
      * rewrite total_app, <- Hct. simpl. unfold word_cost. lia.
      * rewrite takes_all_app, Hcur. simpl. rewrite Z.add_0_l, <- Hct, E.
        done.
Qed.

(** The hard cut returns each of its pieces unchanged. *)
Lemma hard_cut_idempotent (s piece : string) :
  piece ∈ _hard_cut s max_toks tok →
  _hard_cut piece max_toks tok = [piece].
Proof.
  rewrite hard_cut_is_groups. intros Hin.
  apply list_elem_of_fmap in Hin as (g & -> & Hg).
  set (groups := hard_cut_groups max_toks tok (Py.split s) [] 0) in *.
  assert (Hcat : concat groups = Py.split s)
    by apply hard_cut_groups_concat.
  assert (Hwords : Forall Py.is_word g).
  { apply Forall_forall. intros w Hw.
    pose proof (split_words s) as Hs. rewrite <- Hcat in Hs.
    rewrite Forall_forall in Hs. apply Hs.
    apply list_elem_of_In, in_concat. exists g.
    split; by apply list_elem_of_In. }
  assert (Hne : g ≠ []).
  { pose proof (hard_cut_groups_nonempty (Py.split s) [] 0) as H.
    rewrite Forall_forall in H. by apply H. }
  assert (Htake : takes_all max_toks tok g [] 0 = true).
  { pose proof (hard_cut_groups_take_all (Py.split s) [] 0 eq_refl eq_refl)
      as H.
    rewrite Forall_forall in H. by apply H. }
  rewrite hard_cut_is_groups, strip_join_words, split_join_words by done.
  rewrite takes_all_groups by done. simpl.
  unfold close_group. destruct g as [|w g]; [done|].
  cbn [is_nil map]. by rewrite strip_join_words.
Qed.

(** C9 (amended).  The hard cut is a total function, so it terminates
    on every input.  Its pieces are the space-joined groups of
    consecutive words of the input, in order and none empty, and when
    there is more than one piece each of them has strictly fewer words
    than the input.  When the input is above [max_toks] and the counter
    gives every piece no more than the summed costs of its words, every
    piece of more than one word is within [max_toks] and so has strictly
    fewer tokens than the input; a piece of a single word is that word
    as it is, whatever its token count.  An input of one word is emitted
    as that word, as one piece. *)
Theorem hard_cut_pieces (s : string) :
  (∃ groups : list (list string),
     _hard_cut s max_toks tok = map (Py.join " ") groups
     ∧ concat groups = Py.split s
     ∧ Forall (fun g => g ≠ []) groups)
  ∧ ((1 < length (_hard_cut s max_toks tok))%nat →
     Forall (fun piece =>
               (length (Py.split piece) < length (Py.split s))%nat)
       (_hard_cut s max_toks tok))
  ∧ (max_toks < tok s →
     Forall (fun piece => tok piece ≤ cost (Py.split piece))
       (_hard_cut s max_toks tok) →
     Forall (fun piece =>
               length (Py.split piece) = 1%nat
               ∨ (tok piece ≤ max_toks ∧ tok piece < tok s))
       (_hard_cut s max_toks tok))
  ∧ (∀ w, Py.split s = [w] → _hard_cut s max_toks tok = [w]).
Proof.
  set (groups := hard_cut_groups max_toks tok (Py.split s) [] 0).
  assert (Hcat : concat groups = Py.split s)
    by apply hard_cut_groups_concat.
  assert (Hne : Forall (fun g => g ≠ []) groups)
    by apply hard_cut_groups_nonempty.
  assert (Hbud : Forall (fun g => cost g ≤ max_toks ∨ length g = 1%nat)
                   groups).
  { apply hard_cut_groups_budget; [done|]. right. simpl. lia. }
  assert (Hwords : Forall (Forall Py.is_word) groups).
  { apply Forall_forall. intros g Hg. apply Forall_forall. intros w Hw.
    pose proof (split_words s) as Hs. rewrite <- Hcat in Hs.
    rewrite Forall_forall in Hs. apply Hs.
    apply list_elem_of_In, in_concat. exists g.
    split; by apply list_elem_of_In. }
  assert (Hcut : _hard_cut s max_toks tok = map (Py.join " ") groups).
  { rewrite hard_cut_is_groups. fold groups.
    apply map_ext_Forall. eapply Forall_impl; [exact Hwords|].
    intros g Hg. by apply strip_join_words. }
  assert (Hin : ∀ piece, piece ∈ map (Py.join " ") groups →
                  ∃ g, g ∈ groups ∧ piece = Py.join " " g
                       ∧ Py.split piece = g).
  { intros piece Hp.
    apply list_elem_of_In, in_map_iff in Hp as (g & <- & Hg).
    apply list_elem_of_In in Hg. exists g. split; [done|]. split; [done|].
    apply split_join_words. rewrite Forall_forall in Hwords.
    by apply Hwords. }
  split; [by exists groups|]. rewrite Hcut. split; [|split].
  - intros Hlen. rewrite length_map in Hlen.
    assert (Hshort : Forall (fun g => (length g < length (concat groups))%nat)
                       groups) by (apply groups_shorter; [done|lia]).
    rewrite Hcat in Hshort. rewrite Forall_forall in Hshort.
    apply Forall_forall. intros piece Hp.
    destruct (Hin piece Hp) as (g & Hg & _ & ->). by apply Hshort.
  - intros Hover Hsub. rewrite Forall_forall in Hsub.
    rewrite Forall_forall in Hbud.
    apply Forall_forall. intros piece Hp. specialize (Hsub piece Hp).
    destruct (Hin piece Hp) as (g & Hg & _ & Hs). rewrite Hs in *.
    destruct (Hbud g Hg) as [Hle|Hone]; [right; lia|by left].
  - intros w Hw.
    destruct groups as [|g0 [|g1 gs]].
    + simpl in Hcat. congruence.
    + simpl in Hcat. rewrite app_nil_r in Hcat. by rewrite Hcat, Hw.
    + apply Forall_cons in Hne as [Hg0 Hne].
      apply Forall_cons in Hne as [Hg1 _].
      rewrite Hw in Hcat. apply (f_equal length) in Hcat.
      simpl in Hcat. rewrite !length_app in Hcat.
      destruct g0, g1; simpl in *; try done; lia.
Qed.

End HardCut.

Section HardCutExamples.

Import Chunker.

Example hard_cut_three_words :
  _hard_cut "  aaaa bbbb  cccc " 2 heuristic_count = ["aaaa bbbb"; "cccc"].
Proof. reflexivity. Qed.

(** The budget test adds up the costs of the words and never counts a
    joined piece: two words of one token each, with their space, make a
    piece of three tokens under a budget of two. *)
Example hard_cut_pair_over_budget :
  _hard_cut "wwwwww wwwwww" 2 heuristic_count = ["wwwwww wwwwww"]
  ∧ heuristic_count "wwwwww wwwwww" = 3.
Proof. split; reflexivity. Qed.

(** C9, as stated, fails: a long word of three tokens followed by a
    short one is above the budget of two; the cut takes the short word
    off, and the long word, which cannot be cut, is a piece of the same
    three tokens as the input. *)
Lemma hard_cut_no_token_reduction :
  ¬ hard_cut_reduces heuristic_count 2 "wwwwwwwwwwww b".
Proof.
  intros H. unfold hard_cut_reduces in H.
  assert (Hlen : (1 < length (Py.split "wwwwwwwwwwww b"))%nat)
    by (vm_compute; lia).
  apply H in Hlen. vm_compute in Hlen.
  apply Forall_cons in Hlen as [Hlt _]. vm_compute in Hlt. discriminate.
Qed.

Example hard_cut_long_word_kept :
  _hard_cut "wwwwwwwwwwww b" 2 heuristic_count = ["wwwwwwwwwwww"; "b"]
  ∧ heuristic_count "wwwwwwwwwwww b" = 3
  ∧ heuristic_count "wwwwwwwwwwww" = 3.
Proof. repeat split; reflexivity. Qed.

Lemma hard_cut_pieces_witness :
  Forall (fun piece =>
            length (Py.split piece) = 1%nat
            ∨ (heuristic_count piece ≤ 2
               ∧ heuristic_count piece < heuristic_count "aaaa bbbb cccc"))
    (_hard_cut "aaaa bbbb cccc" 2 heuristic_count)
  ∧ Forall (fun piece => (length (Py.split piece) < 3)%nat)
      (_hard_cut "aaaa bbbb cccc" 2 heuristic_count).
Proof.
  destruct (hard_cut_pieces heuristic_count 2 "aaaa bbbb cccc")
    as (_ & Hwords & Htok & _).
  split.
  - apply Htok; [reflexivity|].
    change (_hard_cut "aaaa bbbb cccc" 2 heuristic_count)
      with ["aaaa bbbb"; "cccc"].
    repeat constructor; vm_compute; discriminate.
  - apply Hwords. vm_compute. lia.
Defined.

End HardCutExamples.

(** ** The greedy packer of [adaptive_chunk] *)

Section Packer.

Import Chunker.

Variable count_tokens : string → Z.
Variables max_tokens min_tokens : Z.

Local Abbreviation weight := (total count_tokens).
Local Abbreviation pack_step := (pack_step count_tokens max_tokens min_tokens).
Local Abbreviation pack_loop := (pack_loop count_tokens max_tokens min_tokens).
Local Abbreviation pack := (pack count_tokens max_tokens min_tokens).
Local Abbreviation flush := (flush count_tokens).
Local Abbreviation greedy_groups := (greedy_groups count_tokens max_tokens).
Local Abbreviation chunks_of_groups := (chunks_of_groups count_tokens).
Local Abbreviation chunk_of_group := (chunk_of_group count_tokens).

Local Abbreviation fits := (fits count_tokens max_tokens).

Lemma chunks_of_groups_cons (start : nat) (g : list string) gs :
  chunks_of_groups start (g :: gs)
  = chunk_of_group start g :: chunks_of_groups (S start) gs.
Proof.
  unfold Chunker.chunks_of_groups. simpl. rewrite Nat.add_0_r. f_equal.
  apply imap_ext. intros k x _. simpl. f_equal. lia.
Qed.

Lemma flush_chunks (st : PackState) :
  chunks (flush st)
  = chunks st ++ chunks_of_groups (length (chunks st)) (close_group (buf st)).
Proof.
  unfold Chunker.flush, close_group. destruct (buf st) as [|x b]; simpl.
  - by rewrite app_nil_r.
  - unfold Chunker.chunks_of_groups. simpl. by rewrite Nat.add_0_r.
Qed.

Lemma lookup_of_drop {A} (l : list A) (k : nat) (x : A) (r : list A) :
  drop k l = x :: r → l !! k = Some x ∧ drop (S k) l = r.
Proof.
  intros H. assert (Hx : l !! k = Some x).
  { rewrite <- (Nat.add_0_r k), <- lookup_drop. by rewrite H. }
  split; [done|]. rewrite (drop_S _ _ _ Hx) in H. congruence.
Qed.

(** On pieces that all fit, the loop ends within two iterations per
    remaining piece, never touches [parts], and the chunks after the
    final flush are those of the grouping. *)
Lemma pack_loop_groups (rest : list string) :
  Forall fits rest →
  ∀ (st : PackState) (fuel : nat),
    drop (i st) (parts st) = rest →
    buf_tokens st = weight (buf st) →
    (2 * length rest ≤ fuel)%nat →
    ∃ st', pack_loop fuel st = Some st'
           ∧ parts st' = parts st
           ∧ chunks (flush st')
             = chunks st
               ++ chunks_of_groups (length (chunks st))
                    (greedy_groups rest (buf st)).
Proof.
  induction rest as [|p rest IH]; intros Hfit st fuel Hdrop Hbt Hfuel.
  - exists st.
    assert (Hnone : parts st !! i st = None).
    { apply lookup_ge_None. apply drop_nil_inv in Hdrop.
      (* the cursor is at the end *) lia. }
    assert (Hstep : pack_step st = None)
      by (unfold Chunker.pack_step; by rewrite Hnone).
    split; [destruct fuel; simpl; by rewrite Hstep|].
    split; [done|]. apply flush_chunks.
  - apply Forall_cons in Hfit as [Hp Hfit]. unfold Chunker.fits in Hp.
    apply lookup_of_drop in Hdrop as [Hlook Hdrop].
    simpl in Hfuel.
    destruct (Z.leb_spec (weight (buf st) + count_tokens p) max_tokens)
      as [Hroom|Hfull].
    + (* the piece joins the buffer *)
      set (st1 := accept st p (count_tokens p)).
      assert (Hstep : pack_step st = Some st1).
      { unfold Chunker.pack_step. rewrite Hlook. simpl.
        destruct (Z.ltb_spec max_tokens (count_tokens p)); [lia|].
        rewrite Hbt.
        by destruct (Z.leb_spec (weight (buf st) + count_tokens p)
                       max_tokens); [|lia]. }
      destruct fuel as [|fuel]; [lia|].
      destruct (IH Hfit st1 fuel) as (st' & Hrun & Hparts & Hchunks).
      * done.
      * subst st1. unfold accept. cbn [buf buf_tokens].
        rewrite total_app, Hbt. simpl. lia.
      * lia.
      * exists st'. split; [simpl; by rewrite Hstep|]. split; [done|].
        rewrite Hchunks. simpl.
        by destruct (Z.leb_spec (weight (buf st) + count_tokens p)
                       max_tokens); [|lia].
    + (* the buffer is flushed, then the piece opens the next one *)
      assert (Hbuf : buf st ≠ []).
      { intros E. rewrite E in Hfull. simpl in Hfull. lia. }
      set (st1 := flush st).
      assert (Hstep : pack_step st = Some st1).
      { unfold Chunker.pack_step. rewrite Hlook. simpl.
        destruct (Z.ltb_spec max_tokens (count_tokens p)); [lia|].
        rewrite Hbt.
        destruct (Z.leb_spec (weight (buf st) + count_tokens p)
                    max_tokens); [lia|].
        rewrite andb_false_r. by destruct (_ <? min_tokens). }
      assert (Hst1 : st1 = {| parts := parts st; i := i st; buf := [];
                             buf_tokens := 0;
                             chunks := chunks st
                               ++ [chunk_of_group (length (chunks st))
                                     (buf st)] |}).
      { subst st1. unfold Chunker.flush. by destruct (buf st). }
      clearbody st1. subst st1.
      match type of Hstep with _ = Some ?s => set (st1 := s) in * end.
      set (st2 := accept st1 p (count_tokens p)).
      assert (Hstep1 : pack_step st1 = Some st2).
      { unfold Chunker.pack_step. cbn [st1 parts i buf_tokens].
        rewrite Hlook. cbn [length]. rewrite Z.add_0_l.
        destruct (Z.ltb_spec max_tokens (count_tokens p)); [lia|].
        by destruct (Z.leb_spec (count_tokens p) max_tokens); [|lia]. }
      destruct fuel as [|[|fuel]]; [lia|lia|].
      destruct (IH Hfit st2 fuel) as (st' & Hrun & Hparts & Hchunks).
      * done.
      * cbn. lia.
      * lia.
      * exists st'. split; [simpl; by rewrite Hstep, Hstep1|].
        split; [done|].
        rewrite Hchunks. cbn [st2 st1 accept chunks buf].
        cbn [Chunker.greedy_groups].
        destruct (Z.leb_spec (weight (buf st) + count_tokens p)
                    max_tokens); [lia|].
        unfold close_group. destruct (buf st) as [|x b] eqn:E; [done|].
        cbn [is_nil app]. rewrite chunks_of_groups_cons, <- app_assoc.
        rewrite length_app. cbn [length app].
        do 3 f_equal. lia.
Qed.

Lemma greedy_groups_concat (ps buf : list string) :
  concat (greedy_groups ps buf) = buf ++ ps.
Proof.
  revert buf. induction ps as [|p ps IH]; intros buf; simpl.
  - unfold close_group. destruct buf; simpl; by rewrite ?app_nil_r.
  - destruct (_ <=? _).
    + rewrite IH. by rewrite <- app_assoc.
    + rewrite concat_app, IH. unfold close_group.
      destruct buf; simpl; by rewrite ?app_nil_r.
Qed.

Lemma greedy_groups_nonempty (ps buf : list string) :
  Forall (fun g => g ≠ []) (greedy_groups ps buf).
Proof.
  revert buf. induction ps as [|p ps IH]; intros buf; simpl.
  - unfold close_group. destruct buf; simpl; by repeat constructor.
  - destruct (_ <=? _); [apply IH|].
    apply Forall_app. split; [|apply IH].
    unfold close_group. destruct buf; simpl; by repeat constructor.
Qed.

(** The total of every group is within [max_tokens]. *)
Lemma greedy_groups_fit (ps buf : list string) :
  Forall fits ps → (buf ≠ [] → weight buf ≤ max_tokens) →
  Forall (fun g => weight g ≤ max_tokens) (greedy_groups ps buf).
Proof.
  revert buf. induction ps as [|p ps IH]; intros buf Hfit Hbuf; simpl.
  - unfold close_group. destruct buf; simpl; repeat constructor.
    by apply Hbuf.
  - apply Forall_cons in Hfit as [Hp Hfit]. unfold Chunker.fits in Hp.
    destruct (Z.leb_spec (weight buf + count_tokens p) max_tokens).
    + apply IH; [done|]. intros _. rewrite total_app. simpl. lia.
    + apply Forall_app. split.
      * unfold close_group. destruct buf; simpl; repeat constructor.
        by apply Hbuf.
      * apply IH; [done|]. intros _. simpl. lia.
Qed.

(** A non-empty open buffer is the beginning of the first group. *)
Lemma greedy_groups_head (ps buf : list string) :
  buf ≠ [] → ∃ r gs, greedy_groups ps buf = (buf ++ r) :: gs.
Proof.
  revert buf. induction ps as [|p ps IH]; intros buf Hbuf; simpl.
  - exists [], []. unfold close_group. destruct buf; [done|].
    by rewrite app_nil_r.
  - destruct (_ <=? _).
    + destruct (IH (buf ++ [p])) as (r & gs & ->); [by destruct buf|].
      exists (p :: r), gs. by rewrite <- app_assoc.
    + exists [], (greedy_groups ps [p]). unfold close_group.
      destruct buf; [done|]. by rewrite app_nil_r.
Qed.

(** A group is closed only because the first piece of the next group
    would take its total above [max_tokens]. *)
Lemma greedy_groups_tight (ps buf : list string) (k : nat) g g' :
  greedy_groups ps buf !! k = Some g →
  greedy_groups ps buf !! S k = Some g' →
  ∃ p r, g' = p :: r ∧ max_tokens < weight g + count_tokens p.
Proof.
  revert buf k. induction ps as [|p ps IH]; intros buf k; simpl.
  - unfold close_group. destruct buf; simpl; [done|].
    intros _ H. by destruct k.
  - destruct (Z.leb_spec (weight buf + count_tokens p) max_tokens)
      as [Hroom|Hfull]; [apply IH|].
    unfold close_group. destruct buf as [|x buf]; simpl; [apply IH|].
    destruct k as [|k]; simpl; [|apply IH].
    intros [= <-] Hg'.
    destruct (greedy_groups_head ps [p]) as (r & gs & E); [done|].
    rewrite E in Hg'. simpl in Hg'. injection Hg' as <-.
    exists p, r. split; [done|]. simpl in Hfull. simpl. lia.
Qed.

(** An oversized piece that the hard cut returns unchanged is put back
    behind the cursor: the loop meets it again at every iteration and
    never ends. *)
Lemma pack_loop_irreducible (fuel : nat) (st : PackState) (piece : string) :
  parts st !! i st = Some piece →
  max_tokens < count_tokens piece →
  _hard_cut piece max_tokens count_tokens = [piece] →
  pack_loop fuel st = None.
Proof.
  intros Hlook Hbig Hcut. revert st Hlook.
  induction fuel as [|fuel IH]; intros st Hlook.
  - simpl. unfold Chunker.pack_step. rewrite Hlook. simpl.
    by destruct (Z.ltb_spec max_tokens (count_tokens piece)); [|lia].
  - simpl. unfold Chunker.pack_step. rewrite Hlook. simpl.
    destruct (Z.ltb_spec max_tokens (count_tokens piece)); [|lia].
    apply IH. unfold resplit. rewrite Hcut. simpl.
    unfold Py.list_insert_at.
    pose proof (lookup_lt_Some _ _ _ Hlook) as Hlt.
    rewrite lookup_app_r; rewrite length_take; [|lia].
    by replace (S (i st) - S (i st) `min` length (parts st))%nat
      with 0%nat by lia.
Qed.

Lemma step_accepts (st : PackState) (p : string) :
  parts st !! i st = Some p → count_tokens p ≤ max_tokens →
  buf_tokens st + count_tokens p ≤ max_tokens →
  pack_step st = Some (accept st p (count_tokens p)).
Proof.
  intros Hlook Hp Hroom. unfold Chunker.pack_step. rewrite Hlook. simpl.
  destruct (Z.ltb_spec max_tokens (count_tokens p)); [lia|].
  by destruct (Z.leb_spec (buf_tokens st + count_tokens p) max_tokens);
    [|lia].
Qed.

Lemma step_flushes (st : PackState) (p : string) :
  parts st !! i st = Some p → count_tokens p ≤ max_tokens →
  max_tokens < buf_tokens st + count_tokens p →
  pack_step st = Some (flush st).
Proof.
  intros Hlook Hp Hfull. unfold Chunker.pack_step. rewrite Hlook. simpl.
  destruct (Z.ltb_spec max_tokens (count_tokens p)); [lia|].
  destruct (Z.leb_spec (buf_tokens st + count_tokens p) max_tokens); [lia|].
  rewrite andb_false_r. by destruct (_ <? min_tokens).
Qed.

Lemma flush_nonempty (st : PackState) :
  buf st ≠ [] →
  flush st
  = {| parts := parts st; i := i st; buf := []; buf_tokens := 0;
       chunks := chunks st
                 ++ [chunk_of_group (length (chunks st)) (buf st)] |}.
Proof. intros H. unfold Chunker.flush. by destruct (buf st). Qed.

(** An oversized piece that the hard cut returns unchanged stops the
    packer for good, also behind pieces that fit. *)
Lemma pack_loop_blocked (before : list string) (bad : string)
    (rest : list string) :
  Forall fits before →
  max_tokens < count_tokens bad →
  _hard_cut bad max_tokens count_tokens = [bad] →
  ∀ (st : PackState) (fuel : nat),
    drop (i st) (parts st) = before ++ bad :: rest →
    buf_tokens st = weight (buf st) →
    pack_loop fuel st = None.
Proof.
  intros Hfit Hbig Hcut.
  induction before as [|p before IH]; intros st fuel Hdrop Hbt.
  - apply lookup_of_drop in Hdrop as [Hlook _].
    by apply (pack_loop_irreducible fuel st bad).
  - apply Forall_cons in Hfit as [Hp Hfit]. unfold Chunker.fits in Hp.
    apply lookup_of_drop in Hdrop as [Hlook Hdrop].
    destruct (Z.le_gt_cases (buf_tokens st + count_tokens p) max_tokens)
      as [Hroom|Hfull].
    + pose proof (step_accepts st p Hlook Hp Hroom) as Hstep.
      destruct fuel as [|fuel]; simpl; rewrite Hstep; [done|].
      apply IH; [done|done|].
      unfold accept. cbn [buf buf_tokens]. rewrite total_app, Hbt.
      simpl. lia.
    + pose proof (step_flushes st p Hlook Hp Hfull) as Hstep.
      assert (Hbuf : buf st ≠ []).
      { intros E. rewrite Hbt, E in Hfull. simpl in Hfull. lia. }
      pose proof (flush_nonempty st Hbuf) as Hflush.
      assert (Hstep1 : pack_step (flush st)
                       = Some (accept (flush st) p (count_tokens p))).
      { apply step_accepts; rewrite ?Hflush; cbn [parts i buf_tokens];
          [done|done|lia]. }
      destruct fuel as [|[|fuel]]; simpl; rewrite Hstep; [done| |].
      * by rewrite Hstep1.
      * rewrite Hstep1. apply IH; [done| |].
        -- by rewrite Hflush.
        -- rewrite Hflush. cbn. lia.
Qed.

(** C3 (amended).  The look-ahead of the packer: when the piece under
    the cursor is itself within [max_tokens], adding it to the buffer
    would exceed [max_tokens] and the buffer's running total is below
    [min_tokens], the packer makes one look-ahead test, accepting the
    piece if the buffer's total plus the piece's tokens is within
    [max_tokens]; as it is not, the buffer is flushed as a completed
    chunk, and the next iteration starts a new buffer with that piece. *)
Theorem lookahead_then_flush (st : PackState) (piece : string) :
  parts st !! i st = Some piece →
  count_tokens piece ≤ max_tokens →
  buf_tokens st = weight (buf st) →
  max_tokens < buf_tokens st + count_tokens piece →
  buf_tokens st < min_tokens →
  pack_step st
  = Some (if buf_tokens st + count_tokens piece <=? max_tokens
          then accept st piece (count_tokens piece)
          else flush st)
  ∧ flush st
    = {| parts := parts st; i := i st; buf := []; buf_tokens := 0;
         chunks := chunks st
                   ++ [chunk_of_group (length (chunks st)) (buf st)] |}
  ∧ pack_step (flush st)
    = Some {| parts := parts st; i := S (i st); buf := [piece];
              buf_tokens := count_tokens piece;
              chunks := chunks st
                        ++ [chunk_of_group (length (chunks st)) (buf st)] |}.
Proof.
  intros Hlook Hfit Hbt Hover Hmin.
  assert (Hbuf : buf st ≠ []).
  { intros E. rewrite Hbt, E in Hover. simpl in Hover. lia. }
  assert (Hflush : flush st
    = {| parts := parts st; i := i st; buf := []; buf_tokens := 0;
         chunks := chunks st
                   ++ [chunk_of_group (length (chunks st)) (buf st)] |}).
  { unfold Chunker.flush. by destruct (buf st). }
  split; [|split; [done|]].
  - unfold Chunker.pack_step. rewrite Hlook. simpl.
    destruct (Z.ltb_spec max_tokens (count_tokens piece)); [lia|].
    destruct (Z.leb_spec (buf_tokens st + count_tokens piece) max_tokens);
      [lia|].
    destruct (Z.ltb_spec (buf_tokens st) min_tokens); [|lia].
    by rewrite andb_false_r.
  - rewrite Hflush. unfold Chunker.pack_step. cbn [parts i buf_tokens].
    rewrite Hlook. cbn [length]. rewrite Z.add_0_l.
    destruct (Z.ltb_spec max_tokens (count_tokens piece)); [lia|].
    by destruct (Z.leb_spec (count_tokens piece) max_tokens); [|lia].
Qed.

(** The packer on pieces that all fit. *)
Lemma pack_is_groups (pieces : list string) (fuel : nat) :
  Forall fits pieces → (2 * length pieces ≤ fuel)%nat →
  pack fuel pieces = Some (chunks_of_groups 0 (greedy_groups pieces [])).
Proof.
  intros Hfit Hfuel.
  destruct (pack_loop_groups pieces Hfit (pack_init pieces) fuel)
    as (st' & Hrun & _ & Hchunks); [done|done|done|].
  unfold Chunker.pack. rewrite Hrun. simpl. by rewrite Hchunks.
Qed.

(** A list of pieces fits as a whole, or has a first piece that does
    not. *)
Lemma first_unfit (pieces : list string) :
  Forall fits pieces
  ∨ ∃ before bad rest,
      pieces = before ++ bad :: rest ∧ Forall fits before
      ∧ max_tokens < count_tokens bad.
Proof.
  induction pieces as [|p pieces IH]; [by left|].
  destruct (Z.le_gt_cases (count_tokens p) max_tokens) as [Hp|Hp].
  - destruct IH as [Hall|(before & bad & rest & -> & Hfit & Hbad)].
    + left. by constructor.
    + right. exists (p :: before), bad, rest. split; [done|].
      split; [by constructor|done].
  - right. exists [], p, pieces. split; [done|]. split; [constructor|lia].
Qed.

(** Every piece of the decomposition fits, or is a piece of a hard cut
    and so unchanged by another hard cut. *)
Lemma split_with_rules_pieces (s : string)
    (rules : list (string → list string)) :
  Forall (fun p => fits p ∨ _hard_cut p max_tokens count_tokens = [p])
    (_split_with_rules count_tokens max_tokens s rules).
Proof.
  assert (Hsmall : ∀ p, _too_big count_tokens max_tokens p = false → fits p).
  { intros p H. unfold _too_big in H. unfold Chunker.fits.
    by destruct (Z.ltb_spec max_tokens (count_tokens p)). }
  revert s. induction rules as [|rule finer IH]; intros s; simpl.
  - apply Forall_forall. intros p Hp. right.
    by apply (hard_cut_idempotent count_tokens max_tokens s).
  - destruct (length (rule s) =? 1)%nat.
    + destruct (_too_big count_tokens max_tokens s) eqn:E; [apply IH|].
      repeat constructor. by apply Hsmall.
    + apply Forall_forall. intros p Hp.
      apply list_elem_of_In, in_flat_map in Hp as (x & _ & Hp).
      destruct (_too_big count_tokens max_tokens x) eqn:E.
      * specialize (IH x). rewrite Forall_forall in IH.
        by apply IH, list_elem_of_In.
      * destruct Hp as [<-|[]]. left. by apply Hsmall.
Qed.

(** The packer returns on the pieces of a decomposition exactly when all
    of them fit. *)
Lemma pack_returns_iff (pieces : list string) :
  Forall (fun p => fits p ∨ _hard_cut p max_tokens count_tokens = [p])
    pieces →
  (∃ fuel cs, pack fuel pieces = Some cs) ↔ Forall fits pieces.
Proof.
  intros Hpieces. split.
  - intros (fuel & cs & Hpack).
    destruct (first_unfit pieces)
      as [Hall|(before & bad & rest & -> & Hfit & Hbad)]; [done|].
    apply Forall_app in Hpieces as [_ Hpieces].
    apply Forall_cons in Hpieces as [[Hbad'|Hcut] _];
      [unfold Chunker.fits in Hbad'; lia|].
    unfold Chunker.pack in Hpack.
    by rewrite (pack_loop_blocked before bad rest Hfit Hbad Hcut) in Hpack.
  - intros Hfit. exists (2 * length pieces)%nat. eexists.
    by apply pack_is_groups.
Qed.

(** [adaptive_chunk] returns exactly when every piece of the
    decomposition is within [max_tokens]. *)
Lemma adaptive_chunk_returns_iff (text : string) (overlap_sentences : Z)
    (structure : string) :
  (∃ fuel cs,
     adaptive_chunk count_tokens max_tokens min_tokens fuel text
       overlap_sentences structure = Some cs)
  ↔ Forall fits
      (_split_with_rules count_tokens max_tokens text
         (splitters_for structure)).
Proof.
  rewrite <- pack_returns_iff by apply split_with_rules_pieces.
  unfold adaptive_chunk. split.
  - intros (fuel & cs & H). exists fuel.
    destruct (pack fuel _) as [cs'|]; [by exists cs'|done].
  - intros (fuel & cs & H). exists fuel. rewrite H. simpl. by eexists.
Qed.

Lemma text_chunks_of_groups (start : nat) (gs : list (list string)) :
  map text (chunks_of_groups start gs)
  = map (fun g => Py.strip (Py.join Py.blank_line g)) gs.
Proof.
  apply list_eq. intros k.
  unfold Chunker.chunks_of_groups.
  rewrite !list_lookup_fmap, list_lookup_imap.
  by destruct (gs !! k).
Qed.

Lemma concat_map_concat {A B} (f : A → list B) (gs : list (list A)) :
  concat (map (fun g => concat (map f g)) gs) = concat (map f (concat gs)).
Proof.
  induction gs as [|g gs IH]; simpl; [done|].
  by rewrite map_app, concat_app, IH.
Qed.

(** The words of the chunk texts are the words of the grouped pieces. *)
Lemma words_chunks_of_groups (start : nat) (gs : list (list string)) :
  concat (map Py.split (map text (chunks_of_groups start gs)))
  = concat (map Py.split (concat gs)).
Proof.
  rewrite text_chunks_of_groups, map_map, <- concat_map_concat.
  f_equal. apply map_ext. intros g.
  by rewrite split_strip, split_join_blank.
Qed.

(** C2 (amended).  On pieces that are each within [max_tokens] the
    packer terminates, and every chunk it produces is a non-empty run of
    pieces whose token counts add up to at most [max_tokens]: the runs,
    put one behind the other, are the pieces, each once and in their
    order, and the chunk made of a run is its pieces joined by blank
    lines and stripped.  A chunk other than the last was closed because
    the next piece would have taken that total above [max_tokens].  The
    total may be below [min_tokens] for any chunk. *)
Theorem packed_totals_within_max (pieces : list string) (fuel : nat) :
  Forall fits pieces → (2 * length pieces ≤ fuel)%nat →
  ∃ groups : list (list string),
    pack fuel pieces = Some (chunks_of_groups 0 groups)
    ∧ concat groups = pieces
    ∧ Forall (fun g => g ≠ [] ∧ weight g ≤ max_tokens) groups
    ∧ (∀ k g g', groups !! k = Some g → groups !! S k = Some g' →
         ∃ p r, g' = p :: r ∧ max_tokens < weight g + count_tokens p).
Proof.
  intros Hfit Hfuel. exists (greedy_groups pieces []).
  split; [by apply pack_is_groups|].
  split; [apply greedy_groups_concat|]. split.
  - pose proof (greedy_groups_nonempty pieces []) as Hne.
    pose proof (greedy_groups_fit pieces [] Hfit) as Hle.
    rewrite Forall_forall in Hne. rewrite Forall_forall in Hle.
    apply Forall_forall. intros g Hg. split; [by apply Hne|].
    by apply Hle.
  - intros k g g'. apply greedy_groups_tight.
Qed.

End Packer.

(** ** Coverage *)

Section Coverage.

Import Chunker GenerateChunks.

(** C1 (amended).  In the packer of [adaptive_chunk], on pieces that are
    each within [max_tokens], the loop terminates and every piece goes
    to exactly one chunk, in input order: the chunks are the pieces cut
    into consecutive non-empty groups, the text of a chunk is its group
    joined by blank lines and stripped, and the words of the chunk texts
    are the words of the pieces.  In [chunk_content_with_langchain] the
    emitted chunks are, in order, the chunk texts of the splitter whose
    cleaned form has at least [MIN_CHUNK_TOKENS] tokens; the smaller ones
    are dropped. *)
Theorem coverage_of_kept_pieces :
  (∀ (count_tokens : string → Z) (max_tokens min_tokens : Z)
     (pieces : list string) (fuel : nat),
     Forall (fits count_tokens max_tokens) pieces →
     (2 * length pieces ≤ fuel)%nat →
     ∃ groups : list (list string),
       pack count_tokens max_tokens min_tokens fuel pieces
       = Some (chunks_of_groups count_tokens 0 groups)
       ∧ concat groups = pieces
       ∧ Forall (fun g => g ≠ []) groups
       ∧ map text (chunks_of_groups count_tokens 0 groups)
         = map (fun g => Py.strip (Py.join Py.blank_line g)) groups
       ∧ concat (map Py.split
                   (map text (chunks_of_groups count_tokens 0 groups)))
         = concat (map Py.split pieces))
  ∧ (∀ tiktoken_len split_text clean_markdown_text extract_markdown_links
       get_chunk_header_context sha256_hexdigest content md,
       map display_markdown
         (chunk_content_with_langchain tiktoken_len split_text
            clean_markdown_text extract_markdown_links
            get_chunk_header_context sha256_hexdigest content md)
       = map (fun t => if Py.is_empty t then clean_markdown_text t else t)
           (List.filter
              (fun t => negb (count_tokens tiktoken_len
                                (clean_markdown_text t)
                              <? MIN_CHUNK_TOKENS))
              (split_text content))).
Proof.
  split.
  - intros count max_tokens min_tokens pieces fuel Hfit Hfuel.
    exists (greedy_groups count max_tokens pieces []).
    split; [by apply pack_is_groups|].
    split; [apply greedy_groups_concat|].
    split; [apply greedy_groups_nonempty|].
    split; [apply text_chunks_of_groups|].
    rewrite words_chunks_of_groups. by rewrite greedy_groups_concat.
  - intros. apply langchain_display.
Qed.

End Coverage.

Section PackerExamples.

Import Fixtures Chunker.

Example pack_two_pieces :
  pack heuristic_count 2 2 4 ["aaaa"; "bbbbbbbb"]
  = Some [ {| id := 0; text := "aaaa"; n_tokens := 1; meta := None |};
           {| id := 1; text := "bbbbbbbb"; n_tokens := 2; meta := None |} ].
Proof. reflexivity. Qed.

(** The recorded token count of a chunk is taken on the joined text and
    may exceed [max_tokens] although the pieces add up to it. *)
Example pack_joined_text_over_max :
  pack heuristic_count 2 1 4 ["aaaaaaa"; "bbbbbbb"]
  = Some [ {| id := 0;
              text := "aaaaaaa" +:+ Py.blank_line +:+ "bbbbbbb";
              n_tokens := 4; meta := None |} ].
Proof. reflexivity. Qed.

(** The pieces of a hard cut made by the packer are inserted one after
    the other at the same position and so come out in reverse order. *)
Example pack_resplit_reversed :
  pack heuristic_count 2 1 6 ["aaaa bbbb cccc"]
  = Some [ {| id := 0; text := "cccc"; n_tokens := 1; meta := None |};
           {| id := 1; text := "aaaa bbbb"; n_tokens := 2; meta := None |} ].
Proof. reflexivity. Qed.

(** The scenario of the specification: a document that fits the budget
    becomes one chunk. *)
Example adaptive_chunk_whole_document :
  adaptive_chunk heuristic_count 800 400 4 titled_document 1 "markdown"
  = Some [ {| id := 0;
              text := "# Title" +:+ Py.blank_line +:+ "Short intro."
                      +:+ Py.blank_line +:+ Py.blank_line
                      +:+ "## A" +:+ Py.newline +:+ "One. Two. Three.";
              n_tokens := 11; meta := Some "markdown" |} ].
Proof. reflexivity. Qed.

(** A document of one word above the budget: [adaptive_chunk] never
    returns. *)
Example adaptive_chunk_oversized_word_diverges (fuel : nat) :
  adaptive_chunk heuristic_count 2 1 fuel "aaaaaaaaaaaa" 1 "markdown" = None.
Proof.
  unfold adaptive_chunk, pack.
  change (_split_with_rules heuristic_count 2 "aaaaaaaaaaaa"
            (splitters_for "markdown")) with ["aaaaaaaaaaaa"].
  by rewrite (pack_loop_irreducible heuristic_count 2 1 fuel
                (pack_init ["aaaaaaaaaaaa"]) "aaaaaaaaaaaa").
Qed.

(** The splitter by code symbols hands the keyword in front of every
    cut to the packer as a piece of its own, besides the text that
    starts with it. *)
Example code_symbols_repeat_keyword :
  split_by_code_symbols ("x = 1" +:+ Py.newline +:+ "def f(): pass")
  = ["x = 1" +:+ Py.newline; "def "; "def f(): pass"].
Proof. reflexivity. Qed.

(** A single word above the budget: the packer never returns. *)
Example pack_oversized_word_diverges (fuel : nat) :
  pack heuristic_count 2 1 fuel ["aaaaaaaaaaaa"] = None.
Proof.
  unfold pack.
  by rewrite (pack_loop_irreducible heuristic_count 2 1 fuel
                (pack_init ["aaaaaaaaaaaa"]) "aaaaaaaaaaaa").
Qed.

(** C2, as stated, fails: with both bounds at two tokens, a piece of one
    token followed by a piece of two gives a first chunk of one token,
    which is neither the last chunk nor an oversized piece. *)
Lemma undersized_middle_chunk :
  ∃ cs, pack heuristic_count 2 2 4 ["aaaa"; "bbbbbbbb"] = Some cs
        ∧ ¬ budget_respected heuristic_count 2 2 ["aaaa"; "bbbbbbbb"] cs.
Proof.
  exists [ {| id := 0; text := "aaaa"; n_tokens := 1; meta := None |};
           {| id := 1; text := "bbbbbbbb"; n_tokens := 2; meta := None |} ].
  split; [reflexivity|]. intros H.
  destruct (H 0%nat _ eq_refl) as [[Hmin _]|(p & Hin & _ & Hbig)].
  - simpl. lia.
  - simpl in Hmin. lia.
  - apply list_elem_of_In in Hin. simpl in Hin.
    destruct Hin as [<-|[<-|[]]]; vm_compute in Hbig; discriminate.
Qed.

Lemma packed_totals_within_max_witness :
  ∃ groups : list (list string),
    pack heuristic_count 2 2 4 ["aaaa"; "bbbbbbbb"]
    = Some (chunks_of_groups heuristic_count 0 groups)
    ∧ concat groups = ["aaaa"; "bbbbbbbb"]
    ∧ Forall (fun g => g ≠ [] ∧ total heuristic_count g ≤ 2) groups.
Proof.
  destruct (packed_totals_within_max heuristic_count 2 2
              ["aaaa"; "bbbbbbbb"] 4)
    as (groups & Hpack & Hcat & Hfit & _).
  - repeat constructor; vm_compute; discriminate.
  - simpl. lia.
  - exists groups. split; [exact Hpack|]. split; [exact Hcat|exact Hfit].
Defined.

Lemma coverage_of_kept_pieces_witness :
  ∃ groups : list (list string),
    pack heuristic_count 2 2 4 ["aaaa"; "bbbbbbbb"]
    = Some (chunks_of_groups heuristic_count 0 groups)
    ∧ concat groups = ["aaaa"; "bbbbbbbb"].
Proof.
  destruct (proj1 coverage_of_kept_pieces heuristic_count 2 2
              ["aaaa"; "bbbbbbbb"] 4%nat)
    as (groups & Hpack & Hcat & _).
  - repeat constructor; vm_compute; discriminate.
  - simpl. lia.
  - exists groups. split; [exact Hpack|exact Hcat].
Defined.

(** C1, as stated, fails: the only chunk of a short document is below
    [MIN_CHUNK_TOKENS] and is dropped, so the emitted chunks carry none
    of the document's words. *)
Lemma short_document_not_covered :
  ¬ GenerateChunks.covers_document no_tiktoken split_fitting clean_plain
      no_links no_context digest_stub "Just a few words." demo_md.
Proof. unfold GenerateChunks.covers_document. vm_compute. discriminate. Qed.

Example before_long_word_reached :
  pack_step heuristic_count 2 2 (pack_init ["aaaa"; "bbbbbbbbbbbb"])
  = Some before_long_word.
Proof. reflexivity. Qed.

(** C3, as stated, fails: with one token in the buffer, below the minimum
    of two, the next piece is a word of three tokens, above the maximum of
    two; adding it would exceed the maximum, yet the buffer is neither
    extended nor flushed: the piece is cut again and the cursor moves
    on. *)
Lemma oversized_piece_not_flushed :
  ¬ lookahead_or_flush heuristic_count 2 2 before_long_word.
Proof.
  intros H. specialize (H "bbbbbbbbbbbb" eq_refl).
  vm_compute in H. specialize (H eq_refl eq_refl). discriminate.
Qed.

Lemma lookahead_then_flush_witness :
  let st := {| parts := ["aaaa"; "bbbbbbbb"]; i := 1; buf := ["aaaa"];
               buf_tokens := 1; chunks := [] |} in
  pack_step heuristic_count 2 2 (flush heuristic_count st)
  = Some {| parts := ["aaaa"; "bbbbbbbb"]; i := 2; buf := ["bbbbbbbb"];
            buf_tokens := 2;
            chunks := [chunk_of_group heuristic_count 0 ["aaaa"]] |}.
Proof.
  intros st.
  apply (lookahead_then_flush heuristic_count 2 2 st "bbbbbbbb");
    vm_compute; try reflexivity; discriminate.
Defined.

End PackerExamples.

(** ** The overlap pass of [adaptive_chunk] *)

Section Overlap.

Import Chunker.

Variable count_tokens : string → Z.
Variable overlap_sentences : Z.

Local Abbreviation overlap_at := (overlap_at count_tokens overlap_sentences).
Local Abbreviation add_overlap := (add_overlap count_tokens).

(** The text that the pass gives to [cur] behind the predecessor
    [prev]. *)
Local Abbreviation overlapped := (fun prev cur : Chunk =>
  Py.strip (Py.join " " (Py.last_n (Z.to_nat overlap_sentences)
                           (split_sentences (text prev)))
            +:+ " " +:+ text cur)).

(** The state of the list after the iterations [1 .. m] of the loop. *)
Lemma overlap_prefix (cs : list Chunk) (m : nat) :
  (m < length cs)%nat →
  let out := fold_left overlap_at (seq 1 m) cs in
  length out = length cs
  ∧ (∀ j, (m < j)%nat → out !! j = cs !! j)
  ∧ out !! 0%nat = cs !! 0%nat
  ∧ (∀ j prev cur,
       (j < m)%nat → out !! j = Some prev → cs !! S j = Some cur →
       out !! S j
       = Some (set_text cur (overlapped prev cur)
                 (count_tokens (overlapped prev cur)))).
Proof.
  induction m as [|m IH]; intros Hm out; subst out.
  - simpl. split; [done|]. split; [done|]. split; [done|]. intros; lia.
  - rewrite seq_S, fold_left_app. simpl.
    destruct IH as (Hlen & Hrest & Hfirst & Hdone); [lia|].
    set (out := fold_left overlap_at (seq 1 m) cs) in *.
    destruct (lookup_lt_is_Some_2 out m) as [prev Hprev]; [lia|].
    destruct (lookup_lt_is_Some_2 cs (S m)) as [cur Hcur]; [lia|].
    assert (Hcur' : out !! S m = Some cur) by (rewrite Hrest; [done|lia]).
    unfold Chunker.overlap_at. simpl. rewrite Nat.sub_0_r, Hprev, Hcur'.
    split; [by rewrite length_insert|].
    split; [intros j Hj; rewrite list_lookup_insert_ne by lia;
            apply Hrest; lia|].
    split; [by rewrite list_lookup_insert_ne by lia|].
    intros j prev' cur' Hj Hprev' Hcur''.
    destruct (decide (j = m)) as [->|Hne].
    + rewrite list_lookup_insert_ne in Hprev' by lia.
      rewrite list_lookup_insert_eq by lia.
      congruence.
    + rewrite list_lookup_insert_ne in Hprev' by lia.
      rewrite list_lookup_insert_ne by lia.
      apply Hdone; [lia|done|done].
Qed.

(** C4.  What the overlap pass does.  With [overlap_sentences > 0] and
    more than one chunk, the pass keeps the number of chunks and never
    modifies the first one; the text of every later chunk becomes the
    last [overlap_sentences] sentences of its immediate predecessor, a
    space and its own text, stripped, where the predecessor's text is
    the one the list holds at that moment: the pre-overlap text for the
    second chunk, but the text with the overlap already injected for
    every chunk after it, since the loop rewrites the list it reads. *)
Theorem overlap_from_current_predecessor (cs : list Chunk) :
  0 < overlap_sentences → (1 < length cs)%nat →
  let out := add_overlap overlap_sentences cs in
  length out = length cs
  ∧ out !! 0%nat = cs !! 0%nat
  ∧ (∀ j prev cur,
       out !! j = Some prev → cs !! S j = Some cur →
       out !! S j
       = Some (set_text cur (overlapped prev cur)
                 (count_tokens (overlapped prev cur)))).
Proof.
  intros Hk Hlen out. subst out. unfold Chunker.add_overlap.
  destruct (Z.ltb_spec 0 overlap_sentences); [|lia].
  destruct (Nat.ltb_spec 1 (length cs)); [|lia]. simpl.
  destruct (overlap_prefix cs (length cs - 1))
    as (Hl & _ & Hfirst & Hdone); [lia|].
  split; [done|]. split; [done|].
  intros j prev cur Hprev Hcur. apply Hdone; [|done|done].
  apply lookup_lt_Some in Hcur. lia.
Qed.

End Overlap.

Section OverlapExamples.

Import Fixtures Chunker.

Example three_chunks_packed :
  pack heuristic_count 1 1 6
    (_split_with_rules heuristic_count 1 three_paragraphs
       (splitters_for "plain"))
  = Some three_chunks.
Proof. reflexivity. Qed.

Example adaptive_chunk_three_paragraphs :
  option_map (map text)
    (adaptive_chunk heuristic_count 1 1 6 three_paragraphs 1 "plain")
  = Some ["A b."; "A b. c d"; "A b. c d E f."].
Proof. reflexivity. Qed.

Example three_chunks_overlapped :
  map text (add_overlap heuristic_count 1 three_chunks)
  = ["A b."; "A b. c d"; "A b. c d E f."].
Proof. reflexivity. Qed.

(** The cascade on three chunks: the second chunk does not begin a
    sentence, so after its overlap is injected its last sentence is its
    whole text, and the third chunk receives the first chunk's text with
    it, where the pre-overlap text of the second chunk has none of it. *)
Lemma overlap_cascades :
  ¬ overlap_from_pre_overlap 1 three_chunks
      (add_overlap heuristic_count 1 three_chunks).
Proof.
  intros H.
  specialize (H 1%nat _ _ _ eq_refl eq_refl eq_refl).
  vm_compute in H. discriminate.
Qed.

Lemma overlap_from_current_predecessor_witness :
  let out := add_overlap heuristic_count 1 three_chunks in
  length out = 3%nat ∧ out !! 0%nat = three_chunks !! 0%nat.
Proof.
  destruct (overlap_from_current_predecessor heuristic_count 1 three_chunks)
    as (Hlen & Hfirst & _).
  - lia.
  - simpl. lia.
  - split; [exact Hlen|exact Hfirst].
Defined.

End OverlapExamples.

(** * Further properties of the two sources *)

(** ** Content modulo whitespace *)

Section Squeeze.

Lemma squeeze_app (a b : string) :
  Py.squeeze (a +:+ b) = Py.squeeze a +:+ Py.squeeze b.
Proof.
  induction a as [|c a IH]; [done|]. rewrite append_cons. simpl.
  destruct (Py.isspace c); [done|]. by rewrite IH.
Qed.

Lemma squeeze_lstrip (s : string) : Py.squeeze (Py.lstrip s) = Py.squeeze s.
Proof.
  induction s as [|c s IH]; [done|]. simpl.
  destruct (Py.isspace c) eqn:E; [done|]. simpl. by rewrite E.
Qed.

Lemma squeeze_rstrip (s : string) : Py.squeeze (Py.rstrip s) = Py.squeeze s.
Proof.
  induction s as [|c s IH]; [done|]. simpl.
  destruct (Py.isspace c) eqn:E; simpl.
  - destruct (Py.is_empty (Py.rstrip s)) eqn:E'; simpl.
    + rewrite <- IH. by destruct (Py.rstrip s).
    + by rewrite E.
  - rewrite E. by rewrite IH.
Qed.

Lemma squeeze_strip (s : string) : Py.squeeze (Py.strip s) = Py.squeeze s.
Proof. unfold Py.strip. by rewrite squeeze_rstrip, squeeze_lstrip. Qed.

Lemma join_empty_cons (x : string) (l : list string) :
  Py.join "" (x :: l) = x +:+ Py.join "" l.
Proof. destruct l; simpl; [by rewrite append_nil_r|done]. Qed.

Lemma join_empty_app (a b : list string) :
  Py.join "" (a ++ b) = Py.join "" a +:+ Py.join "" b.
Proof.
  induction a as [|x a IH]; [done|].
  change ((x :: a) ++ b) with (x :: (a ++ b)).
  by rewrite !join_empty_cons, IH, append_assoc.
Qed.

Lemma join_cons_head (c : ascii) (l : list string) :
  Py.join "" (Chunker.cons_head c l) = String c (Py.join "" l).
Proof.
  destruct l as [|x l]; [done|]. unfold Chunker.cons_head.
  by rewrite !join_empty_cons.
Qed.

(** A separator of whitespace leaves no trace. *)
Lemma squeeze_join_sep (sep : string) (l : list string) :
  Py.squeeze sep = "" →
  Py.squeeze (Py.join sep l) = Py.squeeze (Py.join "" l).
Proof.
  intros Hsep. induction l as [|x l IH]; [done|].
  destruct l as [|y l]; [done|].
  change (Py.join sep (x :: y :: l)) with (x +:+ sep +:+ Py.join sep (y :: l)).
  rewrite (join_empty_cons x), !squeeze_app, Hsep, IH. done.
Qed.

(** The words of a text, put together, are its squeezed form. *)
Lemma join_split_go (cur s : string) :
  Py.join "" (Py.split_go cur s) = cur +:+ Py.squeeze s.
Proof.
  revert cur. induction s as [|c s IH]; intros cur; simpl.
  - unfold Py.close_word. destruct cur; [done|]. simpl.
    by rewrite append_nil_r.
  - destruct (Py.isspace c).
    + rewrite join_empty_app, IH, append_nil_l. unfold Py.close_word.
      by destruct cur.
    + rewrite IH, append_assoc. done.
Qed.

Lemma join_split (s : string) : Py.join "" (Py.split s) = Py.squeeze s.
Proof. apply join_split_go. Qed.

(** Pieces that each keep the content of their source keep the content of
    the whole. *)
Lemma squeeze_join_flat_map {A} (f : A → list string) (g : A → string)
    (l : list A) :
  Forall (fun x => Py.squeeze (Py.join "" (f x)) = Py.squeeze (g x)) l →
  Py.squeeze (Py.join "" (flat_map f l))
  = Py.squeeze (Py.join "" (map g l)).
Proof.
  induction 1 as [|x l Hx _ IH]; [done|]. cbn [flat_map map].
  by rewrite join_empty_app, join_empty_cons, !squeeze_app, Hx, IH.
Qed.

Lemma squeeze_join_map (f : string → string) (l : list string) :
  (∀ x, Py.squeeze (f x) = Py.squeeze x) →
  Py.squeeze (Py.join "" (map f l)) = Py.squeeze (Py.join "" l).
Proof.
  intros Hf. induction l as [|x l IH]; [done|]. simpl map.
  by rewrite !join_empty_cons, !squeeze_app, Hf, IH.
Qed.

Lemma squeeze_join_filter (keep : string → bool) (l : list string) :
  (∀ x, keep x = false → Py.squeeze x = "") →
  Py.squeeze (Py.join "" (List.filter keep l)) = Py.squeeze (Py.join "" l).
Proof.
  intros Hk. induction l as [|x l IH]; [done|]. cbn [List.filter].
  rewrite (join_empty_cons x l), squeeze_app.
  destruct (keep x) eqn:E.
  - by rewrite join_empty_cons, squeeze_app, IH.
  - by rewrite (Hk x E), IH.
Qed.

Lemma squeeze_blank (p : string) :
  Chunker.non_blank p = false → Py.squeeze p = "".
Proof.
  unfold Chunker.non_blank. intros H. rewrite <- squeeze_strip.
  by destruct (Py.strip p).
Qed.

End Squeeze.

(** ** The splitters of [chunker.py] *)

Section Splitters.

Import Chunker.

Lemma skip_add (a b : nat) (s : string) :
  skip (a + b) s = skip b (skip a s).
Proof.
  revert s. induction a as [|a IH]; intros s; [done|].
  destruct s as [|c s]; simpl; [by destruct b|apply IH].
Qed.

Lemma substring_skip (p m : nat) (s : string) :
  String.substring p m s = String.substring 0 m (skip p s).
Proof.
  revert s. induction p as [|p IH]; intros s; [done|].
  destruct s as [|c s]; simpl; [by destruct m|apply IH].
Qed.

Lemma substring_0_add (a b : nat) (s : string) :
  String.substring 0 (a + b) s
  = String.substring 0 a s +:+ String.substring 0 b (skip a s).
Proof.
  revert s. induction a as [|a IH]; intros s; [by destruct s|].
  destruct s as [|c s]; simpl; [by destruct b|]. rewrite append_cons.
  f_equal. apply IH.
Qed.

Lemma substring_0_skip (n : nat) (s : string) :
  s = String.substring 0 n s +:+ skip n s.
Proof.
  revert s. induction n as [|n IH]; intros s; [by destruct s|].
  destruct s as [|c s]; simpl; [done|]. rewrite append_cons. f_equal.
  apply IH.
Qed.

(** What [find_fence] returns is a cut of the text in three, the middle
    part being a block between two fences. *)
Lemma find_fence_parts (text before block after : string) :
  find_fence text = Some (before, block, after) →
  text = before +:+ block +:+ after
  ∧ ∃ inner, block = fence +:+ inner +:+ fence.
Proof.
  unfold find_fence.
  destruct (Py.find_from fence text 0) as [p|] eqn:Ep; [|done].
  destruct (Py.find_from fence (skip (p + 3) text) 0) as [q|] eqn:Eq; [|done].
  intros [= <- <- <-].
  apply find_from_found in Ep as (_ & Hp & _).
  apply find_from_found in Eq as (_ & Hq & _).
  rewrite Nat.sub_0_r in Hp, Hq.
  change (String.length fence) with 3%nat in *.
  rewrite substring_skip in Hp, Hq.
  assert (Hblock : String.substring p (q + 6) text
                   = fence +:+ String.substring 0 q (skip (p + 3) text)
                     +:+ fence).
  { rewrite substring_skip.
    replace (q + 6)%nat with (3 + (q + 3))%nat by lia.
    rewrite substring_0_add, Hp, <- skip_add, substring_0_add, Hq. done. }
  split.
  - rewrite (substring_0_skip p text) at 1. f_equal.
    rewrite (substring_0_skip (q + 6) (skip p text)) at 1.
    rewrite <- substring_skip, <- skip_add. f_equal. f_equal. lia.
  - eexists. exact Hblock.
Qed.

Lemma sent_re_split_go_squeeze (s : string) p2 p1 skipping :
  Py.squeeze (Py.join "" (sent_re_split_go p2 p1 skipping s)) = Py.squeeze s.
Proof.
  revert p2 p1 skipping. induction s as [|c s IH]; intros p2 p1 sk; [done|].
  simpl. destruct (Py.isspace c) eqn:E.
  - destruct sk; [apply IH|].
    destruct (lookbehind p2 p1 && run_then_opener s).
    + rewrite join_empty_cons. apply IH.
    + rewrite join_cons_head. simpl. rewrite E. apply IH.
  - rewrite join_cons_head. simpl. rewrite E. by rewrite IH.
Qed.

Lemma split_blocks_squeeze (fuel : nat) (text : string) :
  (String.length text < fuel)%nat →
  Py.squeeze (Py.join "" (split_blocks fuel text)) = Py.squeeze text.
Proof.
  revert text. induction fuel as [|fuel IH]; intros text Hfuel; [lia|].
  simpl. destruct (find_fence text) as [[[before block] after]|] eqn:E.
  - pose proof (find_fence_shorter _ _ _ _ E) as Hshort.
    apply find_fence_parts in E as [Htext _].
    rewrite join_empty_app, join_empty_cons, !squeeze_app, IH by lia.
    rewrite Htext at 1. rewrite !squeeze_app. f_equal.
    destruct before; [done|]. cbn [Py.is_empty].
    unfold sent_re_split. by rewrite sent_re_split_go_squeeze, squeeze_strip.
  - destruct text; [done|]. cbn [Py.is_empty].
    unfold sent_re_split. by rewrite sent_re_split_go_squeeze, squeeze_strip.
Qed.

Lemma split_sentences_squeeze (text : string) :
  Py.squeeze (Py.join "" (split_sentences text)) = Py.squeeze text.
Proof.
  unfold split_sentences.
  rewrite squeeze_join_filter.
  - rewrite squeeze_join_map by apply squeeze_strip.
    apply split_blocks_squeeze. lia.
  - intros x H. by destruct x.
Qed.

(** X1.  The sentence splitter loses nothing but whitespace: the
    non-whitespace characters of the sentences, read in order, are those
    of the text, with or without fenced blocks in it. *)
Theorem split_sentences_keeps_content (text : string) :
  Py.squeeze (Py.join "" (split_sentences text)) = Py.squeeze text.
Proof. apply split_sentences_squeeze. Qed.

Lemma rstrip_rstrip (s : string) : Py.rstrip (Py.rstrip s) = Py.rstrip s.
Proof.
  induction s as [|c s IH]; [done|]. simpl.
  destruct (Py.isspace c && Py.is_empty (Py.rstrip s)) eqn:E; [done|].
  simpl. by rewrite IH, E.
Qed.

Lemma lstrip_rstrip_lstrip (s : string) :
  Py.lstrip (Py.rstrip (Py.lstrip s)) = Py.rstrip (Py.lstrip s).
Proof.
  induction s as [|c s IH]; [done|]. simpl.
  destruct (Py.isspace c) eqn:E; [done|]. simpl. rewrite E. simpl.
  by rewrite E.
Qed.

Lemma strip_strip (s : string) : Py.strip (Py.strip s) = Py.strip s.
Proof.
  unfold Py.strip. by rewrite lstrip_rstrip_lstrip, rstrip_rstrip.
Qed.

Lemma split_sentences_trimmed (text : string) :
  Forall (fun b => b ≠ "" ∧ Py.strip b = b) (split_sentences text).
Proof.
  unfold split_sentences. apply Forall_forall. intros b Hb.
  apply list_elem_of_In, filter_In in Hb as [Hb Hne].
  apply in_map_iff in Hb as (x & <- & _).
  split; [by destruct (Py.strip x)|apply strip_strip].
Qed.

(** X2.  Every sentence returned by the sentence splitter is non-empty
    and carries no whitespace at either end. *)
Theorem split_sentences_stripped (text : string) :
  Forall (fun b => b ≠ "" ∧ Py.strip b = b) (split_sentences text).
Proof. apply split_sentences_trimmed. Qed.

Lemma strip_fenced (inner : string) :
  Py.strip (fence +:+ inner +:+ fence) = fence +:+ inner +:+ fence.
Proof.
  unfold Py.strip. rewrite lstrip_word_app by done.
  rewrite <- append_assoc. by apply rstrip_app_word.
Qed.

(** X3.  A fenced code block is a sentence of its own, whatever
    punctuation it holds: when the text has a first fenced block, the
    sentences are those of the text in front of it, cut at sentence ends,
    then the block as it stands, then the sentences of the text behind
    it. *)
Theorem split_sentences_fenced_block (text before block after : string) :
  find_fence text = Some (before, block, after) →
  text = before +:+ block +:+ after
  ∧ split_sentences text
    = List.filter (fun b => negb (Py.is_empty b))
        (map Py.strip
           (if Py.is_empty before then []
            else sent_re_split (Py.strip before)))
      ++ block :: split_sentences after.
Proof.
  intros E. pose proof (find_fence_shorter _ _ _ _ E) as Hshort.
  destruct (find_fence_parts _ _ _ _ E) as (Htext & inner & Hblock).
  split; [done|].
  unfold split_sentences.
  rewrite (split_blocks_fuel (S (String.length after))
             (String.length text) after) by lia.
  change (split_blocks (S (String.length text)) text)
    with (match find_fence text with
          | Some (before, block, after) =>
              (if Py.is_empty before then []
               else sent_re_split (Py.strip before))
              ++ block :: split_blocks (String.length text) after
          | None =>
              if Py.is_empty text then [] else sent_re_split (Py.strip text)
          end).
  rewrite E, map_app, List.filter_app. f_equal. cbn [map List.filter].
  assert (Hstrip : Py.strip block = block)
    by (rewrite Hblock; apply strip_fenced).
  rewrite Hstrip. rewrite Hblock at 1. done.
Qed.

Lemma split_sentences_fenced_block_witness :
  split_sentences "See this. Then ```a. B``` Done. Bye."
  = ["See this."; "Then"] ++ "```a. B```" :: split_sentences " Done. Bye.".
Proof.
  apply (split_sentences_fenced_block
           "See this. Then ```a. B``` Done. Bye."
           "See this. Then " "```a. B```" " Done. Bye.").
  reflexivity.
Defined.

End Splitters.

Section StructuralSplitters.

Import Chunker.

(** A split in front of line starts that captures nothing puts every
    character into a piece. *)
Lemma split_before_go_join (cut : string → option (list string))
    (bol : bool) (s : string) :
  (∀ t gs, cut t = Some gs → gs = []) →
  Py.join "" (split_before_go cut bol s) = s.
Proof.
  intros Hcut. revert bol. induction s as [|c s IH]; intros bol; [done|].
  cbn [split_before_go].
  destruct (if bol then cut (String c s) else None) as [gs|] eqn:E.
  - assert (gs = []) as ->.
    { destruct bol; [|done]. by apply (Hcut (String c s)). }
    cbn [app]. by rewrite join_empty_cons, join_cons_head, IH.
  - by rewrite join_cons_head, IH.
Qed.

Lemma heading_here_nil (t : string) (gs : list string) :
  heading_here t = Some gs → gs = [].
Proof.
  unfold heading_here. destruct t as [|c t]; [done|].
  destruct (Ascii.eqb c "#" && heading_tail 5 t); congruence.
Qed.

Lemma heading_here_cons (c : ascii) (r : string) :
  heading_here (String c r)
  = if Ascii.eqb c "#" && heading_tail 5 r then Some [] else None.
Proof. reflexivity. Qed.

Lemma hd_cons_head (c : ascii) (l : list string) :
  hd "" (cons_head c l) = String c (hd "" l).
Proof. by destruct l. Qed.

(** The heading marker found in front of a cut lies inside the piece that
    starts there. *)
Lemma heading_tail_head (room : nat) (s : string) :
  heading_tail room s = true →
  heading_tail room (hd "" (split_before_go heading_here false s)) = true.
Proof.
  revert room. induction s as [|c s IH]; intros room; [done|].
  cbn [split_before_go]. rewrite hd_cons_head.
  destruct room as [|room]; cbn [heading_tail];
    (destruct (Ascii.eqb_spec c "#") as [->|Hc]; [|done]); [done|].
  change (Ascii.eqb "#" Py.nl) with false. apply IH.
Qed.

Lemma split_before_go_headings (bol : bool) (s : string) :
  Forall (fun p => heading_here p = Some [])
    (tail (split_before_go heading_here bol s)).
Proof.
  revert bol. induction s as [|c s IH]; intros bol; [by constructor|].
  cbn [split_before_go].
  pose proof (IH (Ascii.eqb c Py.nl)) as Htail.
  assert (Hrest : tail (cons_head c
                    (split_before_go heading_here (Ascii.eqb c Py.nl) s))
                  = tail (split_before_go heading_here (Ascii.eqb c Py.nl) s))
    by (by destruct (split_before_go _ _ s)).
  destruct (if bol then heading_here (String c s) else None) as [gs|] eqn:E;
    [|by rewrite Hrest].
  assert (Hh : heading_here (String c s) = Some gs) by (by destruct bol).
  pose proof (heading_here_nil _ _ Hh) as ->. cbn [app tail].
  set (rest := cons_head c _) in *.
  assert (Hhead : heading_here (hd "" rest) = Some []).
  { subst rest. rewrite hd_cons_head.
    rewrite heading_here_cons in Hh. rewrite heading_here_cons.
    destruct (Ascii.eqb_spec c "#") as [->|]; [|done].
    destruct (heading_tail 5 s) eqn:Ht; [|done].
    change (Ascii.eqb "#" Py.nl) with false.
    by rewrite (heading_tail_head 5 s Ht). }
  destruct rest as [|h t] eqn:Er.
  - subst rest. by destruct (split_before_go _ _ s).
  - constructor; [done|]. simpl in Hrest. by rewrite Hrest.
Qed.

Lemma Forall_tail_filter {A} (P : A → Prop) (f : A → bool) (l : list A) :
  Forall P (tail l) → Forall P (tail (List.filter f l)).
Proof.
  destruct l as [|x l]; [done|]. simpl. intros H.
  assert (Hf : Forall P (List.filter f l)).
  { apply Forall_forall. intros y Hy. rewrite Forall_forall in H.
    apply H. apply list_elem_of_In. apply list_elem_of_In in Hy.
    by apply filter_In in Hy as [? _]. }
  destruct (f x); [done|]. by destruct (List.filter f l); [|inversion Hf].
Qed.

Lemma heading_split_squeeze (text : string) :
  Py.squeeze (Py.join "" (split_by_markdown_headings text))
  = Py.squeeze text.
Proof.
  unfold split_by_markdown_headings, split_before.
  rewrite squeeze_join_filter by apply squeeze_blank.
  rewrite split_before_go_join by apply heading_here_nil.
  apply squeeze_strip.
Qed.

(** X4.  The heading split loses nothing but whitespace, and every piece
    behind the first one begins with a heading marker: one to six hash
    signs and a whitespace character. *)
Theorem heading_split_pieces (text : string) :
  Py.squeeze (Py.join "" (split_by_markdown_headings text))
  = Py.squeeze text
  ∧ Forall (fun p => heading_here p = Some [])
      (tail (split_by_markdown_headings text)).
Proof.
  split; [apply heading_split_squeeze|].
  unfold split_by_markdown_headings, split_before.
  apply Forall_tail_filter, split_before_go_headings.
Qed.

Lemma paragraph_go_squeeze (skipping : bool) (s : string) :
  Py.squeeze (Py.join "" (paragraph_go skipping s)) = Py.squeeze s.
Proof.
  revert skipping. induction s as [|c s IH]; intros sk; [done|].
  cbn [paragraph_go]. destruct (Ascii.eqb_spec c Py.nl) as [->|Hc].
  - change (Py.squeeze (String Py.nl s)) with (Py.squeeze s).
    destruct sk; [apply IH|].
    destruct s as [|c' s']; [done|].
    destruct (Ascii.eqb c' Py.nl).
    + rewrite join_empty_cons. apply IH.
    + rewrite join_cons_head.
      change (Py.squeeze (String Py.nl ?x)) with (Py.squeeze x). apply IH.
  - rewrite join_cons_head. simpl. by rewrite IH.
Qed.

Lemma paragraph_split_squeeze (text : string) :
  Py.squeeze (Py.join "" (split_by_paragraph text)) = Py.squeeze text.
Proof.
  unfold split_by_paragraph.
  rewrite squeeze_join_filter by apply squeeze_blank.
  by rewrite paragraph_go_squeeze, squeeze_strip.
Qed.

Lemma filter_non_blank (l : list string) :
  Forall (fun p => Py.strip p ≠ "") (List.filter non_blank l).
Proof.
  apply Forall_forall. intros p Hp.
  apply list_elem_of_In, filter_In in Hp as [_ Hp].
  unfold non_blank in Hp. by destruct (Py.strip p).
Qed.

(** X5.  The paragraph split loses nothing but whitespace, and none of its
    pieces is blank. *)
Theorem paragraph_split_keeps_content (text : string) :
  Py.squeeze (Py.join "" (split_by_paragraph text)) = Py.squeeze text
  ∧ Forall (fun p => Py.strip p ≠ "") (split_by_paragraph text).
Proof.
  split; [apply paragraph_split_squeeze|apply filter_non_blank].
Qed.

End StructuralSplitters.

(** ** More on the hard cut and the decomposition *)

Section HardCutContent.

Import Chunker.

Variable tok : string → Z.
Variable max_toks : Z.

Lemma squeeze_squeeze (s : string) : Py.squeeze (Py.squeeze s) = Py.squeeze s.
Proof.
  induction s as [|c s IH]; [done|]. simpl.
  destruct (Py.isspace c) eqn:E; [done|]. simpl. by rewrite E, IH.
Qed.

Lemma hard_cut_group_words (s : string) :
  Forall (Forall Py.is_word)
    (hard_cut_groups max_toks tok (Py.split s) [] 0).
Proof.
  apply Forall_forall. intros g Hg. apply Forall_forall. intros w Hw.
  pose proof (split_words s) as Hs.
  assert (Hcat : concat (hard_cut_groups max_toks tok (Py.split s) [] 0)
                 = Py.split s) by apply hard_cut_groups_concat.
  rewrite <- Hcat in Hs. rewrite Forall_forall in Hs. apply Hs.
  apply list_elem_of_In, in_concat. exists g.
  split; by apply list_elem_of_In.
Qed.

Lemma hard_cut_words (s : string) :
  concat (map Py.split (_hard_cut s max_toks tok)) = Py.split s.
Proof.
  rewrite hard_cut_is_groups, map_map.
  assert (Hcat : concat (hard_cut_groups max_toks tok (Py.split s) [] 0)
                 = Py.split s) by apply hard_cut_groups_concat.
  rewrite <- Hcat at 2. f_equal.
  rewrite <- (map_id (hard_cut_groups max_toks tok (Py.split s) [] 0)) at 2.
  apply map_ext_Forall.
  eapply Forall_impl; [apply hard_cut_group_words|].
  intros g Hg. simpl. by rewrite split_strip, split_join_words.
Qed.

Lemma hard_cut_trimmed (s : string) :
  Forall (fun piece => piece ≠ "" ∧ Py.strip piece = piece)
    (_hard_cut s max_toks tok).
Proof.
  rewrite hard_cut_is_groups. apply Forall_forall. intros p Hp.
  apply list_elem_of_fmap in Hp as (g & -> & Hg).
  pose proof (hard_cut_group_words s) as Hw.
  pose proof (hard_cut_groups_nonempty tok max_toks (Py.split s) [] 0)
    as Hn.
  rewrite Forall_forall in Hw, Hn.
  specialize (Hw g Hg). specialize (Hn g Hg).
  split; [|apply strip_strip].
  rewrite strip_join_words by done.
  destruct (join_words_starts g Hw Hn) as (w & r & [Hw' _] & ->).
  by destruct w.
Qed.

(** X6.  The hard cut keeps every word, in order: splitting its pieces
    into words again gives the words of the text; no piece is empty or
    has whitespace at an end, and a text without a word gives no
    piece. *)
Theorem hard_cut_keeps_words (s : string) :
  concat (map Py.split (_hard_cut s max_toks tok)) = Py.split s
  ∧ Forall (fun piece => piece ≠ "" ∧ Py.strip piece = piece)
      (_hard_cut s max_toks tok)
  ∧ (_hard_cut s max_toks tok = [] ↔ Py.split s = []).
Proof.
  split; [apply hard_cut_words|]. split; [apply hard_cut_trimmed|]. split.
  - intros E. by rewrite <- hard_cut_words, E.
  - intros E. rewrite hard_cut_is_groups.
    pose proof (hard_cut_groups_concat tok max_toks (Py.split s) [] 0) as Hc.
    pose proof (hard_cut_groups_nonempty tok max_toks (Py.split s) [] 0)
      as Hn.
    destruct (hard_cut_groups max_toks tok (Py.split s) [] 0) as [|g gs];
      [done|].
    apply Forall_cons in Hn as [Hg _]. rewrite E in Hc. simpl in Hc.
    by destruct g.
Qed.

Lemma squeeze_join_words (l : list string) :
  Py.squeeze (Py.join "" l) = Py.join "" (concat (map Py.split l)).
Proof.
  induction l as [|x l IH]; [done|]. cbn [map concat].
  by rewrite join_empty_cons, squeeze_app, join_empty_app, IH, join_split.
Qed.

Lemma hard_cut_squeeze (s : string) :
  Py.squeeze (Py.join "" (_hard_cut s max_toks tok)) = Py.squeeze s.
Proof. by rewrite squeeze_join_words, hard_cut_words, join_split. Qed.

(** X7.  A second hard cut changes nothing: every piece of a hard cut is
    returned as it is, as one piece, by a hard cut with the same
    budget. *)
Theorem hard_cut_piece_fixed (s piece : string) :
  piece ∈ _hard_cut s max_toks tok →
  _hard_cut piece max_toks tok = [piece].
Proof. apply hard_cut_idempotent. Qed.

End HardCutContent.

(** ** Stripped texts *)

Section Stripped.

Lemma strip_fixed_ends (t : string) :
  Py.strip t = t → Py.lstrip t = t ∧ Py.rstrip t = t.
Proof.
  intros H. split; rewrite <- H; unfold Py.strip.
  - apply lstrip_rstrip_lstrip.
  - apply rstrip_rstrip.
Qed.

Lemma lstrip_app_fixed (a t : string) :
  Py.lstrip t = t → Py.lstrip (a +:+ t) = Py.lstrip a +:+ t.
Proof.
  intros Ht. induction a as [|c a IH]; [done|].
  rewrite append_cons. simpl. destruct (Py.isspace c); [done|].
  by rewrite append_cons.
Qed.

Lemma rstrip_app_fixed (a t : string) :
  Py.rstrip t = t → t ≠ "" → Py.rstrip (a +:+ t) = a +:+ t.
Proof.
  intros Ht Hne. induction a as [|c a IH]; [done|].
  rewrite append_cons. simpl. rewrite IH.
  destruct (a +:+ t) eqn:E.
  - destruct a; [by rewrite append_nil_l in E|by rewrite append_cons in E].
  - simpl. by rewrite andb_false_r.
Qed.

(** Stripping a text that ends with a stripped text leaves that ending
    in place. *)
Lemma strip_keeps_suffix (a t : string) :
  Py.strip t = t → ∃ pre, Py.strip (a +:+ t) = pre +:+ t.
Proof.
  intros Ht. destruct t as [|c t].
  - exists (Py.strip a). by rewrite !append_nil_r.
  - apply strip_fixed_ends in Ht as [Hl Hr].
    exists (Py.lstrip a). unfold Py.strip.
    rewrite lstrip_app_fixed by done. by apply rstrip_app_fixed.
Qed.

Lemma lstrip_squeeze_nil (s : string) : Py.squeeze s = "" → Py.lstrip s = "".
Proof.
  induction s as [|c s IH]; [done|]. simpl.
  by destruct (Py.isspace c).
Qed.

(** A text is blank exactly when it has no character that is not
    whitespace. *)
Lemma strip_nil_squeeze (s : string) : Py.strip s = "" ↔ Py.squeeze s = "".
Proof.
  split.
  - intros H. by rewrite <- squeeze_strip, H.
  - intros H. unfold Py.strip. by rewrite lstrip_squeeze_nil.
Qed.

Lemma squeeze_join_nil (l : list string) :
  Py.squeeze (Py.join "" l) = "" → Forall (fun p => Py.squeeze p = "") l.
Proof.
  induction l as [|x l IH]; [done|].
  rewrite join_empty_cons, squeeze_app. intros H.
  destruct (Py.squeeze x) eqn:Ex; [|by rewrite append_cons in H].
  rewrite append_nil_l in H. constructor; [done|by apply IH].
Qed.

End Stripped.

(** ** The decomposition and the result of [adaptive_chunk] *)

Section Decomposition.

Import Chunker.

Variable count_tokens : string → Z.
Variables max_tokens min_tokens : Z.

Local Abbreviation split_rules := (_split_with_rules count_tokens max_tokens).
Local Abbreviation run := (adaptive_chunk count_tokens max_tokens min_tokens).
Local Abbreviation fits := (fits count_tokens max_tokens).
Local Abbreviation pack := (pack count_tokens max_tokens min_tokens).
Local Abbreviation pack_loop :=
  (pack_loop count_tokens max_tokens min_tokens).
Local Abbreviation packed := (fun pieces =>
  chunks_of_groups count_tokens 0
    (greedy_groups count_tokens max_tokens pieces [])).

Lemma split_with_rules_squeeze (s : string)
    (rules : list (string → list string)) :
  Forall (fun rule => ∀ t, Py.squeeze (Py.join "" (rule t)) = Py.squeeze t)
    rules →
  Py.squeeze (Py.join "" (split_rules s rules)) = Py.squeeze s.
Proof.
  intros Hrules. revert s.
  induction Hrules as [|rule finer Hrule _ IH]; intros s; simpl.
  - apply hard_cut_squeeze.
  - destruct (length (rule s) =? 1)%nat.
    + destruct (_too_big count_tokens max_tokens s); [apply IH|done].
    + rewrite (squeeze_join_flat_map _ (fun p => p)).
      * rewrite map_id. apply Hrule.
      * apply Forall_forall. intros p _.
        destruct (_too_big count_tokens max_tokens p); [apply IH|done].
Qed.

Lemma splitters_squeeze (structure : string) :
  String.eqb structure "code" = false →
  Forall (fun rule => ∀ t, Py.squeeze (Py.join "" (rule t)) = Py.squeeze t)
    (splitters_for structure).
Proof.
  intros Hs. unfold splitters_for. rewrite Hs.
  destruct (String.eqb structure "markdown"); repeat constructor;
    auto using heading_split_squeeze, paragraph_split_squeeze,
               split_sentences_squeeze.
Qed.

(** X8.  Outside the code structure the decomposition loses nothing but
    whitespace: the non-whitespace characters of its pieces, read in
    order, are those of the text. *)
Theorem split_with_rules_keeps_content (text structure : string) :
  String.eqb structure "code" = false →
  Py.squeeze (Py.join "" (split_rules text (splitters_for structure)))
  = Py.squeeze text.
Proof.
  intros Hs. by apply split_with_rules_squeeze, splitters_squeeze.
Qed.

(** More fuel does not change what the loop returns. *)
Lemma pack_loop_mono (fuel fuel' : nat) (st st' : PackState) :
  pack_loop fuel st = Some st' → (fuel ≤ fuel')%nat →
  pack_loop fuel' st = Some st'.
Proof.
  revert fuel' st. induction fuel as [|fuel IH]; intros fuel' st; simpl.
  - destruct (pack_step _ _ _ st) eqn:E; [done|].
    intros H _. destruct fuel'; simpl; by rewrite E.
  - destruct (pack_step _ _ _ st) as [st1|] eqn:E.
    + intros H Hle. destruct fuel' as [|fuel']; [lia|]. simpl. rewrite E.
      apply IH; [done|lia].
    + intros H _. destruct fuel'; simpl; by rewrite E.
Qed.

(** What the packer returns, when it returns, on pieces of a
    decomposition. *)
Lemma pack_closed (fuel : nat) (pieces : list string) (cs : list Chunk) :
  Forall (fun p => fits p ∨ _hard_cut p max_tokens count_tokens = [p])
    pieces →
  pack fuel pieces = Some cs →
  Forall fits pieces ∧ cs = packed pieces.
Proof.
  intros Hpieces E.
  assert (Hfit : Forall fits pieces).
  { apply (pack_returns_iff count_tokens max_tokens min_tokens pieces
             Hpieces). eauto. }
  split; [done|].
  pose proof (pack_is_groups count_tokens max_tokens min_tokens pieces
                (Nat.max fuel (2 * length pieces)) Hfit) as Hbig.
  unfold Chunker.pack in E, Hbig.
  destruct (pack_loop fuel (pack_init pieces)) as [st|] eqn:El; [|done].
  rewrite (pack_loop_mono fuel _ _ _ El) in Hbig by lia.
  simpl in E, Hbig. rewrite E in Hbig. injection Hbig as ->; [done|lia].
Qed.

(** What [adaptive_chunk] returns when it returns. *)
Lemma adaptive_chunk_closed (fuel : nat) (text : string)
    (overlap_sentences : Z) (structure : string) (cs : list Chunk) :
  run fuel text overlap_sentences structure = Some cs →
  Forall fits (split_rules text (splitters_for structure))
  ∧ cs = map (fun c => set_meta c structure)
           (add_overlap count_tokens overlap_sentences
              (packed (split_rules text (splitters_for structure)))).
Proof.
  intros H. unfold adaptive_chunk in H.
  set (pieces := split_rules text (splitters_for structure)) in *.
  destruct (pack fuel pieces) as [cs0|] eqn:E; [|done].
  apply pack_closed in E as [Hfit ->];
    [|apply split_with_rules_pieces].
  split; [done|]. simpl in H. by injection H as <-.
Qed.

(** X9.  [adaptive_chunk] returns exactly when every piece of the
    decomposition is within [max_tokens]: then twice as many iterations of
    the packer loop as there are pieces are enough, and otherwise the loop
    is still running after any number of iterations. *)
Theorem adaptive_chunk_returns (text : string) (overlap_sentences : Z)
    (structure : string) :
  let pieces := split_rules text (splitters_for structure) in
  (Forall fits pieces →
   ∀ fuel, (2 * length pieces ≤ fuel)%nat →
     is_Some (run fuel text overlap_sentences structure))
  ∧ (¬ Forall fits pieces →
     ∀ fuel, run fuel text overlap_sentences structure = None).
Proof.
  intros pieces. split.
  - intros Hfit fuel Hfuel. unfold adaptive_chunk. fold pieces.
    rewrite (pack_is_groups count_tokens max_tokens min_tokens pieces fuel
               Hfit Hfuel).
    simpl. eauto.
  - intros Hn fuel.
    destruct (run fuel text overlap_sentences structure) as [cs|] eqn:E;
      [|done].
    exfalso. apply Hn.
    by apply (adaptive_chunk_closed fuel text overlap_sentences structure cs).
Qed.

(** The overlap pass, chunk by chunk. *)
Lemma add_overlap_grows (ov : Z) (cs : list Chunk) :
  let out := add_overlap count_tokens ov cs in
  length out = length cs
  ∧ ∀ k c b, out !! k = Some c → cs !! k = Some b →
      id c = id b ∧ meta c = meta b
      ∧ (n_tokens b = count_tokens (text b) →
         n_tokens c = count_tokens (text c))
      ∧ (Py.strip (text b) = text b →
         Py.strip (text c) = text c ∧ ∃ pre, text c = pre +:+ text b).
Proof.
  intros out. subst out. unfold add_overlap.
  destruct ((0 <? ov) && (1 <? length cs)%nat) eqn:E.
  - apply andb_true_iff in E as [_ Hlen%Nat.ltb_lt].
    destruct (overlap_prefix count_tokens ov cs (length cs - 1))
      as (Hl & _ & Hfirst & Hdone); [lia|].
    set (out := fold_left _ _ _) in *.
    split; [done|]. intros k c b Hc Hb.
    destruct k as [|j].
    + rewrite Hfirst, Hb in Hc. injection Hc as <-.
      split; [done|]. split; [done|]. split; [done|].
      intros Hs. split; [done|]. by exists "".
    + pose proof (lookup_lt_Some _ _ _ Hb) as Hk.
      destruct (lookup_lt_is_Some_2 out j) as [prev Hprev]; [lia|].
      rewrite (Hdone j prev b) in Hc by (done || lia).
      injection Hc as <-. simpl.
      split; [done|]. split; [done|]. split; [done|].
      intros Hs. split; [apply strip_strip|].
      rewrite <- append_assoc. by apply strip_keeps_suffix.
  - split; [done|]. intros k c b Hc Hb. rewrite Hb in Hc.
    injection Hc as <-.
    split; [done|]. split; [done|]. split; [done|].
    intros Hs. split; [done|]. by exists "".
Qed.

Lemma chunks_of_groups_lookup (start k : nat) (gs : list (list string))
    (b : Chunk) :
  chunks_of_groups count_tokens start gs !! k = Some b →
  ∃ g, gs !! k = Some g ∧ b = chunk_of_group count_tokens (start + k) g.
Proof.
  unfold chunks_of_groups. rewrite list_lookup_imap.
  destruct (gs !! k) as [g|]; [|done]. intros [= <-]. by exists g.
Qed.

Lemma splitters_non_blank (structure : string) :
  Forall (fun rule => ∀ t, Forall (fun p => Py.strip p ≠ "") (rule t))
    (splitters_for structure).
Proof.
  assert (Hsent : ∀ t, Forall (fun p => Py.strip p ≠ "")
                         (split_by_sentence t)).
  { intros t. eapply Forall_impl; [apply split_sentences_trimmed|].
    intros b [Hne Hb]. congruence. }
  unfold splitters_for.
  destruct (String.eqb structure "markdown");
    [|destruct (String.eqb structure "code")];
    repeat constructor; try done; intros t; apply filter_non_blank.
Qed.

Lemma split_with_rules_non_blank (s : string)
    (rules : list (string → list string)) :
  Forall (fun rule => ∀ t, Forall (fun p => Py.strip p ≠ "") (rule t))
    rules →
  Py.strip s ≠ "" →
  Forall (fun p => Py.strip p ≠ "") (split_rules s rules).
Proof.
  intros Hrules. revert s.
  induction Hrules as [|rule finer Hrule _ IH]; intros s Hs; simpl.
  - eapply Forall_impl; [apply hard_cut_trimmed|].
    intros p [Hne Hp]. congruence.
  - destruct (length (rule s) =? 1)%nat.
    + destruct (_too_big count_tokens max_tokens s); [by apply IH|].
      by repeat constructor.
    + apply Forall_forall. intros p Hp.
      apply list_elem_of_In, in_flat_map in Hp as (x & Hx & Hp).
      specialize (Hrule s). rewrite Forall_forall in Hrule.
      apply list_elem_of_In in Hx. specialize (Hrule x Hx).
      destruct (_too_big count_tokens max_tokens x).
      * specialize (IH x Hrule). rewrite Forall_forall in IH.
        by apply IH, list_elem_of_In.
      * by destruct Hp as [<-|[]].
Qed.

(** A blank text has no piece. *)
Lemma splitters_blank (structure text : string) :
  Py.strip text = "" → split_rules text (splitters_for structure) = [].
Proof.
  intros H. unfold splitters_for.
  destruct (String.eqb structure "markdown");
    [|destruct (String.eqb structure "code")];
    cbn [Chunker._split_with_rules];
    unfold split_by_markdown_headings, split_by_code_symbols,
      split_by_paragraph;
    rewrite H; reflexivity.
Qed.

Lemma decomposition_non_blank (text structure : string) :
  Forall (fun p => Py.strip p ≠ "")
    (split_rules text (splitters_for structure)).
Proof.
  destruct (decide (Py.strip text = "")) as [H|H].
  - by rewrite splitters_blank.
  - by apply split_with_rules_non_blank, H; apply splitters_non_blank.
Qed.

Lemma squeeze_join_groups (sep : string) (gs : list (list string)) :
  Py.squeeze sep = "" →
  Py.squeeze (Py.join "" (map (fun g => Py.strip (Py.join sep g)) gs))
  = Py.squeeze (Py.join "" (concat gs)).
Proof.
  intros Hsep. induction gs as [|g gs IH]; [done|]. cbn [map concat].
  rewrite join_empty_cons, join_empty_app, !squeeze_app, IH.
  by rewrite squeeze_strip, squeeze_join_sep.
Qed.

Lemma app_nil_string (a b : string) : a +:+ b = "" → b = "".
Proof. destruct a; [done|by rewrite append_cons]. Qed.

(** The texts of the packed chunks of non-blank pieces. *)
Lemma packed_texts (pieces : list string) (k : nat) (b : Chunk) :
  Forall (fun p => Py.strip p ≠ "") pieces →
  packed pieces !! k = Some b →
  id b = k ∧ n_tokens b = count_tokens (text b) ∧ meta b = None
  ∧ text b ≠ "" ∧ Py.strip (text b) = text b.
Proof.
  intros Hpieces Hb.
  apply chunks_of_groups_lookup in Hb as (g & Hg & ->). simpl.
  split; [done|]. split; [done|]. split; [done|].
  split; [|apply strip_strip].
  intros Hnil. apply strip_nil_squeeze in Hnil.
  rewrite squeeze_join_sep in Hnil by done.
  apply squeeze_join_nil in Hnil.
  pose proof (greedy_groups_nonempty count_tokens max_tokens pieces [])
    as Hne.
  pose proof (greedy_groups_concat count_tokens max_tokens pieces [])
    as Hcat.
  apply list_elem_of_lookup_2 in Hg.
  rewrite Forall_forall in Hne. specialize (Hne g Hg).
  destruct g as [|p g]; [done|].
  apply Forall_cons in Hnil as [Hp _].
  rewrite Forall_forall in Hpieces. apply (Hpieces p).
  - simpl in Hcat. rewrite <- Hcat.
    apply list_elem_of_In, in_concat. exists (p :: g).
    split; [by apply list_elem_of_In|by left].
  - by apply strip_nil_squeeze.
Qed.

(** X10.  Every chunk that [adaptive_chunk] returns has its position in
    the result as [id], the count of its final text as [n_tokens] and the
    structure as [meta]; its text is not empty and has no whitespace at
    either end. *)
Theorem adaptive_chunk_chunks (fuel : nat) (text : string)
    (overlap_sentences : Z) (structure : string) (cs : list Chunk) :
  run fuel text overlap_sentences structure = Some cs →
  ∀ k c, cs !! k = Some c →
    id c = k ∧ n_tokens c = count_tokens (Chunker.text c)
    ∧ meta c = Some structure
    ∧ Chunker.text c ≠ "" ∧ Py.strip (Chunker.text c) = Chunker.text c.
Proof.
  intros H k c Hc.
  apply adaptive_chunk_closed in H as [_ ->].
  set (pieces := split_rules text (splitters_for structure)) in *.
  rewrite list_lookup_fmap in Hc.
  destruct (add_overlap count_tokens overlap_sentences (packed pieces) !! k)
    as [c1|] eqn:Hc1; [|done].
  injection Hc as <-. simpl.
  destruct (add_overlap_grows overlap_sentences (packed pieces))
    as [Hlen Hgrow].
  destruct (lookup_lt_is_Some_2 (packed pieces) k) as [b Hb].
  { rewrite <- Hlen. by eapply lookup_lt_Some. }
  destruct (packed_texts pieces k b) as (Hid & Hn & _ & Hne & Hs);
    [apply decomposition_non_blank|done|].
  destruct (Hgrow k c1 b Hc1 Hb) as (Hid' & _ & Hn' & Hs').
  destruct (Hs' Hs) as [Hs1 [pre Hpre]].
  split; [congruence|]. split; [by apply Hn'|]. split; [done|].
  split; [|done].
  intros Hnil. rewrite Hnil in Hpre. symmetry in Hpre.
  by apply app_nil_string in Hpre.
Qed.

(** X11.  Without overlap and outside the code structure, the chunks that
    [adaptive_chunk] returns cover the text: the non-whitespace characters
    of their texts, read in order, are those of the text. *)
Theorem adaptive_chunk_covers_text (fuel : nat) (text : string)
    (overlap_sentences : Z) (structure : string) (cs : list Chunk) :
  overlap_sentences ≤ 0 →
  String.eqb structure "code" = false →
  run fuel text overlap_sentences structure = Some cs →
  Py.squeeze (Py.join "" (map Chunker.text cs)) = Py.squeeze text.
Proof.
  intros Hov Hs H.
  apply adaptive_chunk_closed in H as [_ ->].
  unfold add_overlap. destruct (Z.ltb_spec 0 overlap_sentences); [lia|].
  simpl. rewrite map_map. simpl.
  change (map (fun c => Chunker.text c) ?l) with (map Chunker.text l).
  rewrite text_chunks_of_groups, squeeze_join_groups by done.
  rewrite greedy_groups_concat. simpl.
  by apply split_with_rules_squeeze, splitters_squeeze.
Qed.

(** X12.  On a text that is empty or only whitespace [adaptive_chunk]
    returns no chunk, whatever the structure and the bounds. *)
Theorem adaptive_chunk_blank_text (fuel : nat) (text : string)
    (overlap_sentences : Z) (structure : string) :
  Py.strip text = "" →
  run fuel text overlap_sentences structure = Some [].
Proof.
  intros H. unfold adaptive_chunk. rewrite splitters_blank by done.
  unfold add_overlap. destruct fuel; simpl; by rewrite andb_false_r.
Qed.

(** X13.  The overlap pass only puts text in front: a run with overlap
    returns as many chunks as the run without it, with the same ids, and
    the text of each chunk ends with the text that the chunk has without
    overlap. *)
Theorem overlap_only_prepends (fuel : nat) (text : string)
    (overlap_sentences : Z) (structure : string) (cs : list Chunk) :
  run fuel text overlap_sentences structure = Some cs →
  ∃ base,
    run fuel text 0 structure = Some base
    ∧ length cs = length base
    ∧ ∀ k c b, cs !! k = Some c → base !! k = Some b →
        id c = id b ∧ ∃ pre, Chunker.text c = pre +:+ Chunker.text b.
Proof.
  intros H.
  destruct (run fuel text 0 structure) as [base|] eqn:Eb.
  2:{ unfold adaptive_chunk in H, Eb.
      by destruct (pack fuel (split_rules text (splitters_for structure))). }
  exists base. split; [done|].
  apply adaptive_chunk_closed in H as [_ ->].
  apply adaptive_chunk_closed in Eb as [_ ->].
  set (pieces := split_rules text (splitters_for structure)) in *.
  assert (Hzero : add_overlap count_tokens 0 (packed pieces) = packed pieces)
    by done.
  rewrite Hzero.
  destruct (add_overlap_grows overlap_sentences (packed pieces))
    as [Hlen Hgrow].
  split; [by rewrite !length_map|].
  intros k c b Hc Hb. rewrite list_lookup_fmap in Hc, Hb.
  destruct (add_overlap count_tokens overlap_sentences (packed pieces) !! k)
    as [c1|] eqn:Hc1; [|done].
  destruct (packed pieces !! k) as [b1|] eqn:Hb1; [|done].
  injection Hc as <-. injection Hb as <-. simpl.
  destruct (packed_texts pieces k b1) as (_ & _ & _ & _ & Hs);
    [apply decomposition_non_blank|done|].
  destruct (Hgrow k c1 b1 Hc1 Hb1) as (Hid & _ & _ & Hs').
  destruct (Hs' Hs) as [_ Hpre]. done.
Qed.

Lemma fold_insert_rev {A} (subs l : list A) (k : nat) :
  (k ≤ length l)%nat →
  fold_left (fun ps sub => Py.list_insert_at k sub ps) subs l
  = take k l ++ rev subs ++ drop k l.
Proof.
  revert l. induction subs as [|x subs IH]; intros l Hk; simpl.
  - by rewrite take_drop.
  - unfold Py.list_insert_at at 2.
    rewrite IH by (rewrite length_app, length_take; simpl; lia).
    rewrite take_app_length' by (rewrite length_take; lia).
    rewrite drop_app_length' by (rewrite length_take; lia).
    by rewrite <- !app_assoc.
Qed.

(** X14.  The oversized branch of the packer: the piece stays in the list
    and is passed over, and the pieces of its hard cut are put right
    behind it in reverse order, so that the last of them is the piece the
    loop reads next; the buffer and the chunks are left as they are. *)
Theorem oversized_piece_resplit (st : PackState) (piece : string) :
  parts st !! i st = Some piece →
  max_tokens < count_tokens piece →
  pack_step count_tokens max_tokens min_tokens st
  = Some {| parts := take (S (i st)) (parts st)
                     ++ rev (_hard_cut piece max_tokens count_tokens)
                     ++ drop (S (i st)) (parts st);
            i := S (i st); buf := buf st; buf_tokens := buf_tokens st;
            chunks := chunks st |}.
Proof.
  intros Hpiece Hbig. unfold pack_step. rewrite Hpiece.
  destruct (Z.ltb_spec max_tokens (count_tokens piece)); [|lia].
  unfold resplit. rewrite fold_insert_rev; [done|].
  apply lookup_lt_Some in Hpiece. lia.
Qed.

End Decomposition.

Section DecompositionExamples.

Import Fixtures Chunker.

Lemma hard_cut_piece_fixed_witness :
  "aaaa bbbb" ∈ _hard_cut "aaaa bbbb cccc dddd" 2 heuristic_count
  ∧ _hard_cut "aaaa bbbb" 2 heuristic_count = ["aaaa bbbb"].
Proof.
  assert (H : "aaaa bbbb" ∈ _hard_cut "aaaa bbbb cccc dddd" 2 heuristic_count).
  { apply list_elem_of_In. vm_compute. by left. }
  split; [exact H|].
  exact (hard_cut_piece_fixed heuristic_count 2 "aaaa bbbb cccc dddd"
           "aaaa bbbb" H).
Defined.

Lemma split_with_rules_keeps_content_witness :
  Py.squeeze
    (Py.join "" (_split_with_rules heuristic_count 1 three_paragraphs
                   (splitters_for "plain")))
  = "Ab.cdEf.".
Proof.
  rewrite (split_with_rules_keeps_content heuristic_count 1
             three_paragraphs "plain"); reflexivity.
Defined.

Lemma adaptive_chunk_returns_witness :
  is_Some (adaptive_chunk heuristic_count 1 1 6 three_paragraphs 1 "plain")
  ∧ ∀ fuel,
      adaptive_chunk heuristic_count 1 1 fuel "wwwwwwww and more" 1 "plain"
      = None.
Proof.
  split.
  - apply (adaptive_chunk_returns heuristic_count 1 1 three_paragraphs 1
             "plain").
    + vm_compute. repeat constructor; discriminate.
    + vm_compute. lia.
  - apply (adaptive_chunk_returns heuristic_count 1 1 "wwwwwwww and more" 1
             "plain").
    intros H. apply Forall_cons in H as [H _]. vm_compute in H. by apply H.
Defined.

Lemma adaptive_chunk_chunks_witness :
  ∃ c, adaptive_chunk heuristic_count 1 1 6 three_paragraphs 1 "plain"
       ≫= (.!! 1%nat) = Some c
       ∧ id c = 1%nat ∧ n_tokens c = heuristic_count (text c)
       ∧ meta c = Some "plain" ∧ text c ≠ "" ∧ Py.strip (text c) = text c.
Proof.
  eexists. split; [reflexivity|].
  eapply (adaptive_chunk_chunks heuristic_count 1 1 6 three_paragraphs 1
            "plain"); reflexivity.
Defined.

Lemma adaptive_chunk_covers_text_witness :
  ∃ cs, adaptive_chunk heuristic_count 1 1 6 three_paragraphs 0 "plain"
        = Some cs
        ∧ Py.squeeze (Py.join "" (map text cs)) = "Ab.cdEf.".
Proof.
  eexists. split; [reflexivity|].
  rewrite (adaptive_chunk_covers_text heuristic_count 1 1 6 three_paragraphs
             0 "plain"); [reflexivity|lia|reflexivity|reflexivity].
Defined.

Lemma adaptive_chunk_blank_text_witness :
  adaptive_chunk heuristic_count 800 400 0 "   " 1 "markdown" = Some [].
Proof. apply adaptive_chunk_blank_text. reflexivity. Defined.

Lemma overlap_only_prepends_witness :
  ∃ base,
    adaptive_chunk heuristic_count 1 1 6 three_paragraphs 0 "plain"
    = Some base
    ∧ length base = 3%nat.
Proof.
  destruct (overlap_only_prepends heuristic_count 1 1 6 three_paragraphs 1
              "plain" _ eq_refl) as (base & Hbase & Hlen & _).
  exists base. split; [exact Hbase|]. rewrite <- Hlen. reflexivity.
Defined.

Lemma oversized_piece_resplit_witness :
  pack_step heuristic_count 2 1 (pack_init ["aaaa bbbb cccc dddd"; "z"])
  = Some {| parts := ["aaaa bbbb cccc dddd"; "cccc dddd"; "aaaa bbbb"; "z"];
            i := 1; buf := []; buf_tokens := 0; chunks := [] |}.
Proof.
  rewrite (oversized_piece_resplit heuristic_count 2 1 _
             "aaaa bbbb cccc dddd"); [reflexivity|reflexivity|].
  vm_compute. reflexivity.
Defined.

End DecompositionExamples.

(** ** More on the character offsets *)

Section Occurrences.

Lemma prefix_app (a b : string) : String.prefix a (a +:+ b) = true.
Proof.
  induction a as [|c a IH]; [by destruct b|]. rewrite append_cons. simpl.
  by destruct (ascii_dec c c).
Qed.

Lemma prefix_split (a s : string) :
  String.prefix a s = true → ∃ b, s = a +:+ b.
Proof.
  revert s. induction a as [|c a IH]; intros s; simpl.
  - by exists s.
  - destruct s as [|d s]; [done|]. cbn [String.prefix].
    destruct (ascii_dec c d) as [->|]; [|done].
    intros H. apply IH in H as [b ->]. by exists b.
Qed.

Lemma find_from_prefix (sub s : string) (k : nat) :
  String.prefix sub s = true → Py.find_from sub s k = Some k.
Proof. destruct s; simpl; by intros ->. Qed.

(** A search finds every text that occurs, at or before any given
    occurrence. *)
Lemma find_from_complete (sub a b : string) (k : nat) :
  ∃ i, Py.find_from sub (a +:+ sub +:+ b) k = Some i
       ∧ (k ≤ i ≤ k + String.length a)%nat.
Proof.
  revert k. induction a as [|c a IH]; intros k.
  - rewrite append_nil_l. exists k.
    split; [apply find_from_prefix, prefix_app|simpl; lia].
  - rewrite append_cons. cbn [Py.find_from].
    destruct (String.prefix sub _); [exists k; split; [done|lia]|].
    destruct (IH (S k)) as (i & Hi & Hle). exists i.
    split; [done|simpl; lia].
Qed.

(** What a search finds is an occurrence. *)
Lemma find_from_occurs (sub s : string) (k i : nat) :
  Py.find_from sub s k = Some i →
  ∃ a b, s = a +:+ sub +:+ b ∧ (k + String.length a = i)%nat.
Proof.
  revert k. induction s as [|c s IH]; intros k; cbn [Py.find_from].
  - destruct (String.prefix sub "") eqn:E; [|done]. intros [= <-].
    apply prefix_split in E as [b ->]. exists "", b. split; [done|simpl; lia].
  - destruct (String.prefix sub (String c s)) eqn:E.
    + intros [= <-]. apply prefix_split in E as [b ->].
      exists "", b. split; [done|simpl; lia].
    + intros H. apply IH in H as (a & b & -> & Hlen).
      exists (String c a), b. split; [done|simpl; lia].
Qed.

Lemma find_from_absent (sub s : string) :
  Py.find_from sub s 0 = None → ∀ a b, s ≠ a +:+ sub +:+ b.
Proof.
  intros H a b ->.
  destruct (find_from_complete sub a b 0) as (i & Hi & _). congruence.
Qed.

Lemma substring_all (s : string) : String.substring 0 (String.length s) s = s.
Proof. induction s as [|c s IH]; [done|]. simpl. by rewrite IH. Qed.

Lemma length_substring_0 (n : nat) (s : string) :
  (n ≤ String.length s)%nat → String.length (String.substring 0 n s) = n.
Proof.
  revert s. induction n as [|n IH]; intros [|c s]; simpl; try done; try lia.
  intros H. rewrite IH; lia.
Qed.

Lemma slice_long (s : string) (n : nat) :
  (n ≤ String.length s)%nat →
  Py.slice s 0 (Z.of_nat n) = String.substring 0 n s.
Proof. intros H. by apply (slice_substring s 0 n). Qed.

Lemma slice_short (s : string) (n : Z) :
  Py.len s ≤ n → Py.slice s 0 n = s.
Proof.
  intros H. unfold Py.slice, Py.clamp_index, Py.len in *.
  destruct (Z.ltb_spec n 0); [lia|]. simpl.
  rewrite Z.min_l by lia. rewrite Z.min_r by lia.
  rewrite Z.sub_0_r, Nat2Z.id. apply substring_all.
Qed.

(** A slice from the start is a prefix. *)
Lemma slice_is_prefix (s : string) (n : nat) :
  ∃ rest, s = Py.slice s 0 (Z.of_nat n) +:+ rest.
Proof.
  destruct (Nat.le_gt_cases n (String.length s)) as [H|H].
  - rewrite slice_long by done. exists (Chunker.skip n s).
    apply substring_0_skip.
  - exists "". rewrite slice_short by (unfold Py.len; lia).
    by rewrite append_nil_r.
Qed.

End Occurrences.

Section OffsetsCases.

Import GenerateChunks.

(** The part of the stripped chunk that the fallback searches for. *)
Local Abbreviation portion := (fun chunk : string =>
  Py.slice (Py.strip chunk) 0 100).

Lemma search_portion_slice (s : string) :
  (if 100 <? Py.len s then Py.slice s 0 100 else s) = Py.slice s 0 100.
Proof.
  destruct (Z.ltb_spec 100 (Py.len s)); [done|].
  by rewrite slice_short.
Qed.

(** The three ways out of [calculate_char_offsets] on a chunk text and a
    document that are not empty. *)
Lemma offsets_cases (chunk full : string) :
  chunk ≠ "" → full ≠ "" →
  let r := calculate_char_offsets (Some chunk) (Some full) in
  (∃ i, Py.find_from (Py.strip chunk) full 0 = Some i
        ∧ r = {| char_start := Z.of_nat i;
                 char_end := Z.of_nat i + Py.len (Py.strip chunk);
                 source_length := Py.len full; confidence := 1%Q |})
  ∨ (Py.find_from (Py.strip chunk) full 0 = None
     ∧ ∃ j, Py.find_from (portion chunk) full 0 = Some j
            ∧ r = {| char_start := Z.of_nat j;
                     char_end := Z.min (Z.of_nat j + Py.len (Py.strip chunk))
                                   (Py.len full);
                     source_length := Py.len full;
                     confidence := (8 # 10)%Q |})
  ∨ (Py.find_from (Py.strip chunk) full 0 = None
     ∧ Py.find_from (portion chunk) full 0 = None
     ∧ r = {| char_start := -1; char_end := -1;
              source_length := Py.len full; confidence := 0%Q |}).
Proof.
  intros Hc Hf r. subst r. unfold calculate_char_offsets.
  assert (Ht : negb (truthy (Some full)) || negb (truthy (Some chunk))
               = false).
  { destruct chunk, full; done. }
  rewrite Ht. cbn [from_option]. unfold Datatypes.id.
  rewrite search_portion_slice.
  destruct (find_cases full (Py.strip chunk)) as [(i & Hi & ->)|(Hn & ->)].
  - left. exists i. split; [done|].
    by destruct (Z.eqb_spec (Z.of_nat i) (-1)); [lia|].
  - right. cbn [Z.eqb negb].
    destruct (find_cases full (portion chunk)) as [(j & Hj & ->)|(Hn' & ->)].
    + left. split; [done|]. exists j. split; [done|].
      by destruct (Z.eqb_spec (Z.of_nat j) (-1)); [lia|].
    + right. done.
Qed.

(** X15.  Offsets reported with a positive confidence lie inside the
    document: [0 <= char_start <= char_end <= source_length], and
    [source_length] is the length of the document. *)
Theorem offsets_within_source (chunk full : string) :
  let r := calculate_char_offsets (Some chunk) (Some full) in
  (0 < confidence r)%Q →
  0 ≤ char_start r ∧ char_start r ≤ char_end r
  ∧ char_end r ≤ source_length r ∧ source_length r = Py.len full.
Proof.
  intros r. subst r.
  destruct (decide (chunk = "")) as [->|Hc].
  { destruct full; cbn; intros H; by inversion H. }
  destruct (decide (full = "")) as [->|Hf].
  { cbn; intros H; by inversion H. }
  destruct (offsets_cases chunk full Hc Hf)
    as [(i & Hi & ->)|[(_ & j & Hj & ->)|(_ & _ & ->)]]; cbn.
  - intros _. apply find_from_found in Hi as (_ & _ & Hlen).
    unfold Py.len. lia.
  - intros _. apply find_from_found in Hj as (_ & _ & Hlen).
    unfold Py.len. lia.
  - intros H; by inversion H.
Qed.

(** X16.  A chunk text is located exactly when, stripped, it occurs in the
    document: the confidence is 1.0 exactly in that case, and then
    [char_start] is at or before every occurrence. *)
Theorem exact_match_iff_occurs (chunk full : string) :
  chunk ≠ "" → full ≠ "" →
  let r := calculate_char_offsets (Some chunk) (Some full) in
  (confidence r = 1%Q ↔ ∃ a b, full = a +:+ Py.strip chunk +:+ b)
  ∧ ∀ a b, full = a +:+ Py.strip chunk +:+ b →
      0 ≤ char_start r ∧ char_start r ≤ Py.len a.
Proof.
  intros Hc Hf r. subst r.
  destruct (offsets_cases chunk full Hc Hf)
    as [(i & Hi & ->)|[(Hn & j & Hj & ->)|(Hn & _ & ->)]]; cbn.
  - split.
    + split; [intros _|done].
      apply find_from_occurs in Hi as (a & b & Hab & _). eauto.
    + intros a b ->.
      destruct (find_from_complete (Py.strip chunk) a b 0)
        as (i' & Hi' & Hle).
      rewrite Hi in Hi'. injection Hi' as <-. unfold Py.len. lia.
  - split.
    + split; [intros [=]|].
      intros (a & b & Hab). by apply (find_from_absent _ _ Hn) in Hab.
    + intros a b Hab. by apply (find_from_absent _ _ Hn) in Hab.
  - split.
    + split; [intros [=]|].
      intros (a & b & Hab). by apply (find_from_absent _ _ Hn) in Hab.
    + intros a b Hab. by apply (find_from_absent _ _ Hn) in Hab.
Qed.

(** X17.  A partial match: with confidence 0.8 the stripped chunk is
    longer than 100 characters and occurs nowhere in the document, the 100
    characters of the document from [char_start] are the first 100 of the
    stripped chunk, and [char_end] is the start plus the length of the
    stripped chunk, cut at the end of the document. *)
Theorem partial_match_prefix (chunk full : string) :
  let r := calculate_char_offsets (Some chunk) (Some full) in
  confidence r = (8 # 10)%Q →
  100 < Py.len (Py.strip chunk)
  ∧ (∀ a b, full ≠ a +:+ Py.strip chunk +:+ b)
  ∧ Py.slice full (char_start r) (char_start r + 100)
    = Py.slice (Py.strip chunk) 0 100
  ∧ char_end r
    = Z.min (char_start r + Py.len (Py.strip chunk)) (Py.len full).
Proof.
  intros r. subst r.
  destruct (decide (chunk = "")) as [->|Hc].
  { destruct full; cbn; intros [=]. }
  destruct (decide (full = "")) as [->|Hf].
  { cbn; intros [=]. }
  destruct (offsets_cases chunk full Hc Hf)
    as [(i & Hi & ->)|[(Hn & j & Hj & ->)|(_ & _ & ->)]]; cbn;
    [intros [=]| |intros [=]].
  intros _.
  assert (Hlong : 100 < Py.len (Py.strip chunk)).
  { destruct (Z.lt_ge_cases 100 (Py.len (Py.strip chunk))) as [|Hle];
      [done|].
    rewrite slice_short in Hj by lia. congruence. }
  split; [done|]. split; [by apply find_from_absent|]. split; [|done].
  apply find_from_found in Hj as (_ & Hsub & Hlen).
  rewrite Nat.sub_0_r in Hsub, Hlen.
  assert (Hp : String.length (Py.slice (Py.strip chunk) 0 100) = 100%nat).
  { rewrite (slice_long _ 100) by (unfold Py.len in Hlong; lia).
    apply length_substring_0. unfold Py.len in Hlong. lia. }
  rewrite Hp in Hsub, Hlen.
  rewrite <- Hsub. by apply (slice_substring full j 100).
Qed.

(** X18.  No match: on a chunk text and a document that are not empty,
    the confidence is 0.0 exactly when the first 100 characters of the
    stripped chunk (all of it when it is shorter) occur nowhere in the
    document, and then the offsets are [-1, -1]. *)
Theorem no_match_iff_absent (chunk full : string) :
  chunk ≠ "" → full ≠ "" →
  let r := calculate_char_offsets (Some chunk) (Some full) in
  (confidence r = 0%Q
   ↔ ∀ a b, full ≠ a +:+ Py.slice (Py.strip chunk) 0 100 +:+ b)
  ∧ (confidence r = 0%Q → char_start r = -1 ∧ char_end r = -1).
Proof.
  intros Hc Hf r. subst r.
  destruct (offsets_cases chunk full Hc Hf)
    as [(i & Hi & ->)|[(Hn & j & Hj & ->)|(_ & Hn & ->)]]; cbn.
  - split; [|intros [=]]. split; [intros [=]|]. intros Habs. exfalso.
    apply find_from_occurs in Hi as (a & b & Hab & _).
    destruct (slice_is_prefix (Py.strip chunk) 100) as [rest Hrest].
    apply (Habs a (rest +:+ b)). rewrite Hab at 1.
    rewrite Hrest at 1. by rewrite !append_assoc.
  - split; [|intros [=]]. split; [intros [=]|]. intros Habs. exfalso.
    apply find_from_occurs in Hj as (a & b & Hab & _).
    by apply (Habs a b).
  - split; [|done]. split; [|done]. intros _.
    by apply find_from_absent.
Qed.

End OffsetsCases.

Section OffsetsCasesExamples.

Import GenerateChunks Fixtures.

Lemma offsets_within_source_witness :
  let r := calculate_char_offsets (Some "  world ") (Some "hello world!") in
  0 ≤ char_start r ∧ char_start r ≤ char_end r
  ∧ char_end r ≤ source_length r ∧ source_length r = 12.
Proof.
  apply (offsets_within_source "  world " "hello world!"). reflexivity.
Defined.

Lemma exact_match_iff_occurs_witness :
  let r := calculate_char_offsets (Some "  world ") (Some "hello world!") in
  0 ≤ char_start r ∧ char_start r ≤ 6.
Proof.
  destruct (exact_match_iff_occurs "  world " "hello world!")
    as [_ Hlow]; [done|done|].
  apply (Hlow "hello " "!"). reflexivity.
Defined.

Lemma partial_match_prefix_witness :
  let r := calculate_char_offsets (Some drifted_chunk)
             (Some drifted_document) in
  Py.slice drifted_document (char_start r) (char_start r + 100)
  = Py.slice drifted_chunk 0 100
  ∧ char_end r = 111.
Proof.
  destruct (partial_match_prefix drifted_chunk drifted_document eq_refl)
    as (_ & _ & Hslice & Hend).
  split; [exact Hslice|]. rewrite Hend. reflexivity.
Defined.

Lemma no_match_iff_absent_witness :
  let r := calculate_char_offsets (Some "moon") (Some "hello world!") in
  char_start r = -1 ∧ char_end r = -1.
Proof.
  apply (no_match_iff_absent "moon" "hello world!");
    [done|done|reflexivity].
Defined.

End OffsetsCasesExamples.

(** ** The heading of a chunk ([extract_heading_from_chunk]) *)

Section Headings.

Import GenerateChunks.

Lemma split_on_cons (sep : ascii) (s : string) :
  ∃ x xs, Py.split_on sep s = x :: xs.
Proof.
  destruct s as [|c s]; [by exists "", []|]. cbn [Py.split_on].
  destruct (Ascii.eqb c sep); [by eexists _, _|].
  destruct (Py.split_on sep s); by eexists _, _.
Qed.

(** Splitting at a character and joining with it again gives the text
    back. *)
Lemma join_split_on (sep : ascii) (s : string) :
  Py.join (String sep "") (Py.split_on sep s) = s.
Proof.
  induction s as [|c s IH]; [done|]. cbn [Py.split_on].
  destruct (split_on_cons sep s) as (x & xs & E). rewrite E in *.
  unfold Py.join in *.
  destruct (Ascii.eqb_spec c sep) as [->|Hc].
  - cbn [String.concat]. rewrite append_nil_l, append_cons, append_nil_l.
    f_equal. exact IH.
  - rewrite <- IH. cbn [String.concat].
    destruct xs; [done|]. by rewrite append_cons.
Qed.

Lemma find_map_first {A B} (f : B → bool) (g : A → B) (l : list A) :
  match List.find f (map g l) with
  | Some x =>
      ∃ before y after,
        l = before ++ y :: after ∧ x = g y ∧ f (g y) = true
        ∧ Forall (fun z => f (g z) = false) before
  | None => Forall (fun z => f (g z) = false) l
  end.
Proof.
  induction l as [|a l IH]; [by constructor|]. simpl.
  destruct (f (g a)) eqn:E.
  - exists [], a, l. by repeat split.
  - destruct (List.find f (map g l)) as [x|].
    + destruct IH as (before & y & after & -> & -> & Hy & Hb).
      exists (a :: before), y, after. split; [done|]. split; [done|].
      split; [done|]. by constructor.
    + by constructor.
Qed.

(** X19.  The heading of a chunk is the first of its lines that, stripped,
    starts with a hash sign, in its stripped form; it is the empty string
    exactly when no line does.  The lines are the parts of the text
    between newlines. *)
Theorem extract_heading_first_line (chunk_text : string) :
  let lines := Py.split_on Py.nl chunk_text in
  let h := extract_heading_from_chunk chunk_text in
  Py.join Py.newline lines = chunk_text
  ∧ ((∃ before line after,
        lines = before ++ line :: after
        ∧ h = Py.strip line ∧ Py.startswith h "#" = true
        ∧ Forall (fun l => Py.startswith (Py.strip l) "#" = false) before)
     ∨ (h = ""
        ∧ Forall (fun l => Py.startswith (Py.strip l) "#" = false) lines)).
Proof.
  intros lines h. subst lines h. split; [apply join_split_on|].
  unfold extract_heading_from_chunk.
  pose proof (find_map_first (fun l => Py.startswith l "#") Py.strip
                (Py.split_on Py.nl chunk_text)) as H.
  destruct (List.find _ _) as [x|].
  - left. destruct H as (before & y & after & Hl & -> & Hy & Hb).
    by exists before, y, after.
  - by right.
Qed.

End Headings.

(** ** More on the chunks of a document *)

Section AssemblyFields.

Import GenerateChunks.

Variable tiktoken_len : string → option Z.
Variable split_text : string → list string.
Variable clean_markdown_text : string → string.
Variable extract_markdown_links : string → list (string * string).
Variable get_chunk_header_context : string → string → HeaderContext.
Variable sha256_hexdigest : string → string.

Local Abbreviation count_tokens := (count_tokens tiktoken_len).
Local Abbreviation kept := (kept tiktoken_len clean_markdown_text).
Local Abbreviation chunk_content_with_langchain :=
  (chunk_content_with_langchain tiktoken_len split_text clean_markdown_text
     extract_markdown_links get_chunk_header_context sha256_hexdigest).

(** The slice that exact offsets give. *)
Lemma exact_offsets_slice (chunk full : string) :
  let r := calculate_char_offsets (Some chunk) (Some full) in
  confidence r = 1%Q →
  Py.slice full (char_start r) (char_end r) = Py.strip chunk.
Proof.
  intros r Hc. subst r.
  apply confidence_one_exact in Hc as (i & Hfind & ->). simpl in *.
  apply find_from_found in Hfind as (_ & Hsub & Hlen).
  rewrite Nat.sub_0_r in Hsub, Hlen.
  unfold Py.len. by rewrite slice_substring.
Qed.

(** The embedded text that [create_chunk] makes: the title line, one of
    three context parts, and the cleaned content. *)
Lemma create_chunk_embed_text (content heading : string) (md : Metadata)
    (chunk_num : nat) (content_type : string)
    (prev_id next_id full_content markdown_chunk_content : option string) :
  ∃ middle,
    embed_text
      (create_chunk tiktoken_len clean_markdown_text extract_markdown_links
         get_chunk_header_context sha256_hexdigest content heading md
         chunk_num content_type prev_id next_id full_content
         markdown_chunk_content)
    = ("Title: " +:+ md_title md +:+ Py.newline) +:+ middle
      +:+ clean_markdown_text content.
Proof.
  unfold create_chunk. cbn [embed_text].
  destruct (truthy (hc_header_hierarchy _)).
  - eexists. f_equal. symmetry. apply append_assoc.
  - destruct (negb _ && negb _).
    + exists (heading +:+ Py.blank_line). f_equal. symmetry.
      apply append_assoc.
    + by exists Py.newline.
Qed.

(** X20.  The embedded text of an emitted chunk is the title line, a
    context part, and the text of the chunk cleaned twice: once by the
    first pass and once more by [create_chunk]; [token_count] is the count
    of the embedded text, and [heading] is the heading of the raw chunk
    text. *)
Theorem langchain_embed_text (content : string) (md : Metadata)
    (k : nat) (c : Chunk) :
  chunk_content_with_langchain content md !! k = Some c →
  ∃ raw middle,
    List.filter kept (split_text content) !! k = Some raw
    ∧ embed_text c
      = ("Title: " +:+ md_title md +:+ Py.newline) +:+ middle
        +:+ clean_markdown_text (clean_markdown_text raw)
    ∧ token_count c = count_tokens (embed_text c)
    ∧ heading c = extract_heading_from_chunk raw
    ∧ content_type c = "post"
    ∧ parent_id c = "post:" +:+ md_slug md.
Proof.
  rewrite langchain_lookup.
  destruct (List.filter kept (split_text content) !! k) as [t|]; [|done].
  simpl. intros [= <-]. exists t.
  destruct (create_chunk_embed_text (clean_markdown_text t)
              (extract_heading_from_chunk t) md k "post"
              (if (0 <? k)%nat
               then Some ("post:" +:+ md_slug md +:+ "::ch"
                          +:+ Py.str_of_nat (k - 1))
               else None)
              (if Z.of_nat k
                  <? Z.of_nat (length (List.filter kept (split_text content)))
                     - 1
               then Some ("post:" +:+ md_slug md +:+ "::ch"
                          +:+ Py.str_of_nat (k + 1))
               else None)
              (Some content) (Some t)) as [middle Hmiddle].
  exists middle. split; [done|]. split; [exact Hmiddle|done].
Qed.

(** X21.  The ids of the chunks of one document are pairwise
    different. *)
Theorem langchain_ids_unique (content : string) (md : Metadata) :
  NoDup (map id (chunk_content_with_langchain content md)).
Proof.
  apply NoDup_alt. intros i j x Hi Hj.
  rewrite list_lookup_fmap in Hi, Hj.
  destruct (chunk_content_with_langchain content md !! i) as [c|] eqn:Ei;
    [|done].
  destruct (chunk_content_with_langchain content md !! j) as [c'|] eqn:Ej;
    [|done].
  apply chunk_id_pattern in Ei as [Hc _].
  apply chunk_id_pattern in Ej as [Hc' _].
  simpl in Hi, Hj. injection Hi as <-. injection Hj as Hj.
  rewrite Hc, Hc' in Hj.
  do 3 apply (inj (String.append _)) in Hj.
  symmetry. by apply (inj pretty).
Qed.

(** X22.  The offsets of an emitted chunk are those of its displayed text
    in the document that was chunked: with a document that is not empty
    they are computed from [display_markdown], so that at confidence 1.0
    the slice of the document between them is the displayed text,
    stripped; the content hash is that of the document. *)
Theorem langchain_offsets (content : string) (md : Metadata)
    (k : nat) (c : Chunk) :
  content ≠ "" →
  chunk_content_with_langchain content md !! k = Some c →
  char_offsets c
  = calculate_char_offsets (Some (display_markdown c)) (Some content)
  ∧ source_content_sha256 c = Some (sha256_hexdigest content)
  ∧ (confidence (char_offsets c) = 1%Q →
     Py.slice content (char_start (char_offsets c))
       (char_end (char_offsets c))
     = Py.strip (display_markdown c)).
Proof.
  intros Hne. rewrite langchain_lookup.
  destruct (List.filter kept (split_text content) !! k) as [t|]; [|done].
  simpl. intros [= <-].
  assert (Ht : truthy (Some content) = true) by (by destruct content).
  assert (Hoff : char_offsets
                   (second_pass_item tiktoken_len clean_markdown_text
                      extract_markdown_links get_chunk_header_context
                      sha256_hexdigest content md
                      (length (List.filter kept (split_text content))) k
                      (temp_of clean_markdown_text k t))
                 = calculate_char_offsets
                     (Some (display_markdown
                        (second_pass_item tiktoken_len clean_markdown_text
                           extract_markdown_links get_chunk_header_context
                           sha256_hexdigest content md
                           (length (List.filter kept (split_text content)))
                           k (temp_of clean_markdown_text k t))))
                     (Some content)).
  { unfold second_pass_item, create_chunk. cbn [char_offsets display_markdown
      tc_markdown_content tc_content temp_of].
    rewrite Ht. by destruct (truthy (Some t)). }
  split; [exact Hoff|]. split.
  - unfold second_pass_item, create_chunk. cbn [source_content_sha256].
    by rewrite Ht.
  - rewrite Hoff. apply exact_offsets_slice.
Qed.

End AssemblyFields.

Section AssemblyFieldsExamples.

Import GenerateChunks Fixtures.

Lemma langchain_embed_text_witness :
  ∃ c, langchain_lines two_lines demo_md !! 1%nat = Some c
       ∧ token_count c = count_tokens char_tokens (embed_text c)
       ∧ heading c = "".
Proof.
  eexists. split; [reflexivity|].
  destruct (langchain_embed_text char_tokens split_lines clean_plain no_links
              no_context digest_stub two_lines demo_md 1 _ eq_refl)
    as (raw & middle & Hraw & _ & Htok & Hhead & _).
  split; [exact Htok|]. rewrite Hhead.
  vm_compute in Hraw. injection Hraw as <-. reflexivity.
Defined.

Lemma langchain_offsets_witness :
  ∃ c, langchain_lines two_lines demo_md !! 1%nat = Some c
       ∧ Py.slice two_lines (char_start (char_offsets c))
           (char_end (char_offsets c))
         = "The second line of the note is just as long and is kept as well.".
Proof.
  eexists. split; [reflexivity|].
  destruct (langchain_offsets char_tokens split_lines clean_plain no_links
              no_context digest_stub two_lines demo_md 1 _ ltac:(done)
              eq_refl)
    as (_ & _ & Hslice).
  rewrite Hslice; reflexivity.
Defined.

End AssemblyFieldsExamples.

(** ** The file name of a chunk ([save_chunks_as_individual_files]) *)

Section Filenames.

Import GenerateChunks.

Lemma prefix_nil (s : string) : String.prefix "" s = true.
Proof. by destruct s. Qed.

(** Replacing a single character, one character at a time. *)
Lemma replace_char_cons (c d : ascii) (new r : string) :
  Py.replace (String d r) (String c "") new
  = (if Ascii.eqb d c then new else String d "")
    +:+ Py.replace r (String c "") new.
Proof.
  unfold Py.replace. cbn [Py.is_empty String.length Py.replace_go].
  cbn [String.prefix]. rewrite prefix_nil.
  destruct (ascii_dec c d) as [->|Hne].
  - by rewrite Ascii.eqb_refl.
  - destruct (Ascii.eqb_spec d c) as [->|_]; [done|].
    by rewrite append_cons, append_nil_l.
Qed.

Lemma replace_char_app (c : ascii) (new a b : string) :
  Py.replace (a +:+ b) (String c "") new
  = Py.replace a (String c "") new +:+ Py.replace b (String c "") new.
Proof.
  induction a as [|d a IH]; [done|].
  by rewrite append_cons, !replace_char_cons, IH, append_assoc.
Qed.

Lemma lacks_app (c : ascii) (a b : string) :
  Py.lacks c (a +:+ b) = Py.lacks c a && Py.lacks c b.
Proof.
  induction a as [|d a IH]; [done|]. rewrite append_cons. simpl.
  by rewrite IH, andb_assoc.
Qed.

Lemma replace_char_lacks (c : ascii) (new s : string) :
  Py.lacks c new = true → Py.lacks c (Py.replace s (String c "") new) = true.
Proof.
  intros Hnew. induction s as [|d s IH]; [done|].
  rewrite replace_char_cons, lacks_app, IH, andb_true_r.
  destruct (Ascii.eqb d c) eqn:E; [done|]. simpl. by rewrite E.
Qed.

(** Nothing is replaced in a text that lacks the first character of what
    is searched. *)
Lemma replace_go_absent (fuel : nat) (c : ascii) (old new s : string) :
  Py.lacks c s = true → Py.replace_go fuel (String c old) new s = s.
Proof.
  revert s. induction fuel as [|fuel IH]; intros s Hs; [done|].
  destruct s as [|d s]; [done|]. simpl in Hs.
  apply andb_true_iff in Hs as [Hd Hs]. cbn [Py.replace_go String.prefix].
  destruct (ascii_dec c d) as [->|_].
  - by rewrite Ascii.eqb_refl in Hd.
  - by rewrite IH.
Qed.

(** X23.  The file name of a chunk holds no colon: every colon of the id
    becomes an underscore, one for one, so the second replacement, of a
    double colon, finds nothing to replace; ids that differ only by a
    colon in place of an underscore get the same file name. *)
Theorem safe_filename_no_colon (chunk_id : string) :
  safe_filename chunk_id = Py.replace chunk_id ":" "_" +:+ ".json"
  ∧ Py.lacks ":" (safe_filename chunk_id) = true
  ∧ ∀ a b, chunk_id = a +:+ ":" +:+ b →
      safe_filename chunk_id = safe_filename (a +:+ "_" +:+ b).
Proof.
  assert (Hlack : ∀ s, Py.lacks ":" (Py.replace s ":" "_") = true)
    by (intros s; by apply replace_char_lacks).
  assert (Hsame : ∀ s, safe_filename s = Py.replace s ":" "_" +:+ ".json").
  { intros s. unfold safe_filename. f_equal.
    unfold Py.replace at 1. cbn [Py.is_empty].
    by apply replace_go_absent. }
  split; [apply Hsame|]. split.
  - by rewrite Hsame, lacks_app, Hlack.
  - intros a b ->. rewrite !Hsame. f_equal.
    by rewrite !replace_char_app.
Qed.

End Filenames.

Section FilenamesExamples.

Import GenerateChunks.

Lemma safe_filename_no_colon_witness :
  safe_filename "post:my-slug::ch0" = "post_my-slug__ch0.json"
  ∧ safe_filename "post:my-slug::ch0" = safe_filename "post_my-slug::ch0".
Proof.
  split; [reflexivity|].
  destruct (safe_filename_no_colon "post:my-slug::ch0") as (_ & _ & Hsame).
  exact (Hsame "post" "my-slug::ch0" eq_refl).
Defined.

End FilenamesExamples.

(** ** The fallback token counts *)

Section FallbackCounts.

(** X24.  Without tiktoken the two sources count differently: the counter
    of [chunker.py] gives a quarter of the length, rounded down, but never
    less than one, the one of [generate_chunks.py] the quarter itself,
    which is zero below four characters; and the first pass of the
    pipeline then keeps a chunk text exactly when its cleaned form has at
    least 200 characters. *)
Theorem fallback_counts (clean : string → string) (s : string) :
  let chunker_count := Chunker._build_token_counter None s in
  let pipeline_count := GenerateChunks.count_tokens (fun _ => None) s in
  chunker_count = Z.max 1 pipeline_count
  ∧ 1 ≤ chunker_count
  ∧ (pipeline_count = 0 ↔ Py.len s < 4)
  ∧ (GenerateChunks.kept (fun _ => None) clean s = true
     ↔ 200 ≤ Py.len (clean s)).
Proof.
  cbn. unfold Chunker.heuristic_count, GenerateChunks.kept,
    GenerateChunks.count_tokens, GenerateChunks.MIN_CHUNK_TOKENS.
  assert (Hlen : 0 ≤ Py.len s) by (unfold Py.len; lia).
  split; [done|]. split; [lia|]. split.
  - split; intros H.
    + destruct (Z.lt_ge_cases (Py.len s) 4) as [|Hge]; [done|].
      pose proof (Z.div_le_mono 4 (Py.len s) 4 ltac:(lia) Hge) as Hd.
      change (4 / 4) with 1 in Hd. lia.
    + apply Z.div_small. lia.
  - destruct (Z.ltb_spec (Py.len (clean s) / 4) 50) as [Hlt|Hge]; simpl.
    + split; [done|]. intros H.
      pose proof (Z.div_le_mono 200 (Py.len (clean s)) 4 ltac:(lia) H) as Hd.
      change (200 / 4) with 50 in Hd. lia.
    + split; [|done]. intros _.
      destruct (Z.lt_ge_cases (Py.len (clean s)) 200) as [Hs|]; [|done].
      assert (Py.len (clean s) / 4 < 50); [|lia].
      apply Z.div_lt_upper_bound; lia.
Qed.

End FallbackCounts.

(** ** The code splitter ([split_by_code_symbols]) *)

Section CodeSplit.

Import Chunker.

Local Abbreviation weight := (fun s : string =>
  String.length (Py.squeeze s)).

(** A split in front of line starts loses no character, whatever the
    lookahead captures. *)
Lemma split_before_go_longer (cut : string → option (list string))
    (bol : bool) (s : string) :
  (weight s ≤ weight (Py.join "" (split_before_go cut bol s)))%nat.
Proof.
  revert bol. induction s as [|c s IH]; intros bol; [simpl; lia|].
  cbn [split_before_go].
  assert (Hrest : (weight (String c s)
                   ≤ weight (Py.join ""
                               (cons_head c
                                  (split_before_go cut (Ascii.eqb c Py.nl)
                                     s))))%nat).
  { rewrite join_cons_head. specialize (IH (Ascii.eqb c Py.nl)). simpl.
    destruct (Py.isspace c); simpl; lia. }
  destruct (if bol then cut (String c s) else None) as [gs|]; [|done].
  rewrite join_empty_cons, append_nil_l, join_empty_app, squeeze_app,
    length_append.
  lia.
Qed.

Lemma code_keyword_weight (kw : string) :
  kw ∈ code_keywords → non_blank kw = true ∧ (0 < weight kw)%nat.
Proof.
  intros H. apply list_elem_of_In in H. simpl in H.
  repeat (destruct H as [<-|H]; [split; [done|simpl; lia]|]). done.
Qed.

Lemma code_symbol_keyword (s kw : string) :
  code_symbol_here s = Some [kw] → kw ∈ code_keywords.
Proof.
  unfold code_symbol_here.
  destruct (List.find _ code_keywords) as [k|] eqn:E; [|done].
  intros [= <-]. apply find_some in E as [E _]. by apply list_elem_of_In.
Qed.

(** X25.  The code split repeats the keyword it cuts at: when the text,
    stripped, begins with one of the keywords, the first piece is that
    keyword alone, and the pieces together hold more non-whitespace
    characters than the text. *)
Theorem code_split_repeats_keyword (text kw : string) :
  code_symbol_here (Py.strip text) = Some [kw] →
  kw ∈ code_keywords
  ∧ (∃ rest, split_by_code_symbols text = kw :: rest)
  ∧ (weight text < weight (Py.join "" (split_by_code_symbols text)))%nat.
Proof.
  intros Hcut. pose proof (code_symbol_keyword _ _ Hcut) as Hkw.
  destruct (code_keyword_weight kw Hkw) as [Hnb Hw].
  split; [done|].
  unfold split_by_code_symbols, split_before.
  rewrite <- (squeeze_strip text).
  destruct (Py.strip text) as [|c r] eqn:Es; [done|].
  cbn [split_before_go]. rewrite Hcut.
  cbn [app List.filter]. rewrite Hnb.
  change (non_blank "") with false. cbn iota.
  split; [by eexists|].
  rewrite join_empty_cons, squeeze_app, length_append.
  rewrite squeeze_join_filter by apply squeeze_blank.
  rewrite join_cons_head.
  pose proof (split_before_go_longer code_symbol_here (Ascii.eqb c Py.nl) r)
    as Hr.
  simpl. destruct (Py.isspace c); simpl; lia.
Qed.

End CodeSplit.

Section CodeSplitExamples.

Import Chunker.

Example code_split_def :
  split_by_code_symbols "def f(): pass"
  = ["def "; "def f(): pass"].
Proof. reflexivity. Qed.

Lemma code_split_repeats_keyword_witness :
  ∃ rest, split_by_code_symbols "def f(): pass" = "def " :: rest.
Proof.
  by apply (code_split_repeats_keyword "def f(): pass" "def ").
Defined.

End CodeSplitExamples.
